(** * Hotspot-detection: synthetic dataset generators and the train/val partitioner

    A shallow embedding of [generate_dataset.py] (ring targets),
    [generate_yolo_dataset.py] (polygons) and [split_dataset.py]
    (partitioner), with the properties of their bounding-box annotation,
    label format, bounded retry loops and file copying, of the shapes,
    colors and augmentations of the generators, of what each generator
    writes, and of the store a run of the partitioner leaves.

    Conventions of the embedding:
    - a Python [int] is a [Z]; a Python [float] is an exact rational [Q]
      (binary64 rounding is not modelled: arithmetic on floats is exact);
      a number is formatted from its exact value, so where that value is a
      tie at the sixth decimal the last digit of the text can differ from
      the one Python prints for the binary64 value (0.1816875 is written
      0.181688 here);
    - an exception is a value [Raise e] of the [result] type;
    - the process-wide [random] generator is an explicit state [rng],
      threaded through every function that draws from it;
    - a raster is a symbolic value recording the drawing calls made on it;
    - files written by the generators go to a sink, the list of writes in
      order; the partitioner reads and writes a finite map from paths to
      file contents;
    - a [while] loop is a recursion on a fuel argument that raises
      [FuelExhausted] when it runs out; the properties give the fuel that
      is enough;
    - what the scripts print is left out.

    The annotator of the polygon generator is embedded a second time on
    binary64 floats, to run Scenario B as Python does. *)

From Stdlib Require Import ZArith QArith Qround Qabs Lia Lqa.
From Stdlib Require Import String Ascii DecimalString.
From Stdlib Require PrimFloat.
From stdpp Require Import base option list gmap strings.

Open Scope Z_scope.

(** ** Exceptions and results *)

Inductive exn : Type :=
  | ValueError
  | ZeroDivisionError
  | IndexError
  | KeyError
  | FileNotFoundError
  | SameFileError
  | FuelExhausted.

Inductive result (A : Type) : Type :=
  | Ok (a : A)
  | Raise (e : exn).

Arguments Ok {A} a.
Arguments Raise {A} e.

Definition is_Ok {A} (r : result A) : bool :=
  match r with Ok _ => true | Raise _ => false end.

#[global] Instance result_ret : MRet result := fun A a => Ok a.
#[global] Instance result_bind : MBind result := fun A B f r =>
  match r with
  | Ok a => f a
  | Raise e => Raise e
  end.

(** ** Python numerics *)

Module py.

(** [int(x)] on a float: truncation toward zero. *)
Definition int (x : Q) : Z :=
  if Qle_bool 0 x then Qfloor x else Qceiling x.

(** [max(a, b)] and [min(a, b)] on numbers. Python returns the first
    argument unless the second is strictly larger (resp. smaller). *)
Definition max (a b : Q) : Q := if Qlt_le_dec a b then b else a.
Definition min (a b : Q) : Q := if Qlt_le_dec b a then b else a.

(** Comparisons as booleans. *)
Definition ltb (a b : Q) : bool := if Qlt_le_dec a b then true else false.
Definition leb (a b : Q) : bool := if Qlt_le_dec b a then false else true.

(** True division [a / b]; raises on a zero divisor. *)
Definition truediv (a b : Q) : result Q :=
  if Qeq_bool b 0 then Raise ZeroDivisionError else Ok (a / b)%Q.

End py.

(** ** The random source

    [stream] is the sequence of raw values the generator delivers, one for
    each request, and [pos] counts the requests made so far. Seeding
    selects a stream and rewinds to its start. *)

Record rng : Type := mk_rng { stream : nat -> Z; pos : nat }.

Definition M (A : Type) : Type := rng -> result (A * rng).

#[global] Instance M_ret : MRet M := fun A a s => Ok (a, s).
#[global] Instance M_bind : MBind M := fun A B f m s =>
  match m s with
  | Ok (a, s') => f a s'
  | Raise e => Raise e
  end.

Definition raise {A} (e : exn) : M A := fun _ => Raise e.

Definition lift {A} (r : result A) : M A := fun s =>
  match r with Ok a => Ok (a, s) | Raise e => Raise e end.

Module random.

Definition next_raw : M Z := fun s =>
  Ok (stream s (pos s), mk_rng (stream s) (S (pos s))).

(** [random.seed(a)]: [mt a] is the stream of the generator seeded with [a]. *)
Definition seed (mt : Z -> nat -> Z) (a : Z) : M unit := fun _ =>
  Ok (tt, mk_rng (mt a) 0).

(** [_randbelow(n)] for [n > 0]: a value in [0, n). *)
Definition randbelow (n : Z) : M Z :=
  v ← next_raw; mret (v mod n).

(** [random.randint(a, b)]: a value in [a, b]; [ValueError] on an empty range. *)
Definition randint (a b : Z) : M Z :=
  if b <? a then raise ValueError
  else v ← randbelow (b - a + 1); mret (a + v).

(** [random.randrange(start, stop, step)] for a positive step. *)
Definition randrange (start stop step : Z) : M Z :=
  let n := (stop - start + step - 1) / step in
  if n <=? 0 then raise ValueError
  else v ← randbelow n; mret (start + step * v).

(** [random.random()]: a float in [0, 1) with 53 bits. *)
Definition random : M Q :=
  v ← next_raw; mret (Qmake (v mod 2 ^ 53) (2 ^ 53)).

(** [random.uniform(a, b)] is [a + (b - a) * random()]. *)
Definition uniform (a b : Q) : M Q :=
  u ← random; mret (a + (b - a) * u)%Q.

(** [random.choice(seq)]. *)
Definition choice {A} (seq : list A) : M A :=
  match seq with
  | [] => raise IndexError
  | _ =>
      i ← randbelow (Z.of_nat (length seq));
      match seq !! Z.to_nat i with
      | Some x => mret x
      | None => raise IndexError
      end
  end.

(** The swap [x[i], x[j] = x[j], x[i]] on a list. *)
Definition swap {A} (i j : nat) (x : list A) : list A :=
  match x !! i, x !! j with
  | Some xi, Some xj => <[j := xi]> (<[i := xj]> x)
  | _, _ => x
  end.

(** [random.shuffle(x)]:
    [for i in reversed(range(1, len(x))): j = randbelow(i + 1); swap]. *)
Fixpoint shuffle_from {A} (i : nat) (x : list A) : M (list A) :=
  match i with
  | O => mret x
  | S i' =>
      j ← randbelow (Z.of_nat i + 1);
      shuffle_from i' (swap i (Z.to_nat j) x)
  end.

Definition shuffle {A} (x : list A) : M (list A) :=
  shuffle_from (length x - 1)%nat x.

(** [random.sample(population, k)] with the pool algorithm used for small
    populations: [j = randbelow(n - i); result[i] = pool[j];
    pool[j] = pool[n - i - 1]]. *)
Fixpoint sample_pool {A} (k : nat) (n : nat) (pool : list A) : M (list A) :=
  match k with
  | O => mret []
  | S k' =>
      j ← randbelow (Z.of_nat n);
      match pool !! Z.to_nat j, pool !! (n - 1)%nat with
      | Some xj, Some xl =>
          rest ← sample_pool k' (n - 1)%nat (<[Z.to_nat j := xl]> pool);
          mret (xj :: rest)
      | _, _ => raise IndexError
      end
  end.

Definition sample {A} (population : list A) (k : nat) : M (list A) :=
  if (length population <? k)%nat then raise ValueError
  else sample_pool k (length population) population.

End random.

(** ** String formatting *)

Module fmt.

Definition digit (d : Z) : ascii := ascii_of_nat (48 + Z.to_nat (d mod 10)).

Definition is_digit (c : ascii) : bool :=
  let n := nat_of_ascii c in ((48 <=? n) && (n <=? 57))%nat.

(** Decimal numeral of a natural number, without leading zeros
    (["0"] for zero). *)
Definition dec (n : Z) : string :=
  NilZero.string_of_uint (N.to_uint (Z.to_N n)).

(** [str(n)] / [f"{n}"] on an int. *)
Definition int_str (n : Z) : string :=
  if n <? 0 then String "-" (dec (- n)) else dec n.

Fixpoint zeros (k : nat) : string :=
  match k with O => EmptyString | S k' => String "0" (zeros k') end.

(** [f"{n:0Wd}"]: zero-padded to width [W], the sign before the zeros. *)
Definition zero_pad (width : nat) (n : Z) : string :=
  if n <? 0 then
    String "-" (zeros (width - 1 - String.length (dec (- n))) +:+ dec (- n))
  else zeros (width - String.length (dec n)) +:+ dec n.

(** Nearest integer to [x >= 0], ties to even. *)
Definition round_half_even (x : Q) : Z :=
  let n := Qnum x in
  let d := Zpos (Qden x) in
  let q := n / d in
  let r := n mod d in
  if 2 * r <? d then q
  else if d <? 2 * r then q + 1
  else if Z.even q then q else q + 1.

(** The six digits of [m mod 10^6]. *)
Definition frac6 (m : Z) : string :=
  String (digit (m / 100000))
 (String (digit (m / 10000))
 (String (digit (m / 1000))
 (String (digit (m / 100))
 (String (digit (m / 10))
 (String (digit m) EmptyString))))).

(** [f"{x:.6f}"]: fixed notation with exactly six decimals. *)
Definition fixed6 (x : Q) : string :=
  let m := round_half_even (Qabs x * 1000000)%Q in
  let body := dec (m / 1000000) +:+ String "." (frac6 m) in
  if py.ltb x 0 then String "-" body else body.

Fixpoint all_digits (s : string) : bool :=
  match s with
  | EmptyString => true
  | String c s' => is_digit c && all_digits s'
  end.

(** Splits a string at its first ["."]. *)
Fixpoint split_dot (s : string) : option (string * string) :=
  match s with
  | EmptyString => None
  | String c s' =>
      if Ascii.eqb c "." then Some (EmptyString, s')
      else match split_dot s' with
           | Some (a, b) => Some (String c a, b)
           | None => None
           end
  end.

(** A numeral without its sign. *)
Definition strip_sign (s : string) : string :=
  match s with
  | String "-" s' => s'
  | _ => s
  end.

(** Recognizer of the fixed notation with exactly six decimals:
    an optional sign, one or more digits, a point, six digits. *)
Definition is_fixed6 (s : string) : bool :=
  match split_dot (strip_sign s) with
  | Some (ip, fp) =>
      negb (String.eqb ip EmptyString) && all_digits ip
      && all_digits fp && (String.length fp =? 6)%nat
  | None => false
  end.

(** Recognizer of a decimal integer. *)
Definition is_int (s : string) : bool :=
  negb (String.eqb (strip_sign s) EmptyString) && all_digits (strip_sign s).

Definition newline : ascii := "010"%char.

Fixpoint count_char (c : ascii) (s : string) : nat :=
  match s with
  | EmptyString => O
  | String c' s' => ((if Ascii.eqb c c' then 1 else 0) + count_char c s')%nat
  end.

(** [s.split(" ")]. *)
Fixpoint split_spaces (s : string) : list string :=
  match s with
  | EmptyString => [EmptyString]
  | String c s' =>
      if Ascii.eqb c " " then EmptyString :: split_spaces s'
      else match split_spaces s' with
           | w :: ws => String c w :: ws
           | [] => [String c EmptyString]
           end
  end.

(** One annotation line without its terminator: five space-separated
    fields, a decimal class id and four fixed-notation numbers. *)
Definition is_annotation (s : string) : bool :=
  match split_spaces s with
  | [c; x; y; w; h] =>
      is_int c && is_fixed6 x && is_fixed6 y && is_fixed6 w && is_fixed6 h
  | _ => false
  end.

(** [s.lower()] on ASCII letters. *)
Definition lower_char (c : ascii) : ascii :=
  let n := nat_of_ascii c in
  if ((65 <=? n) && (n <=? 90))%nat then ascii_of_nat (n + 32) else c.

Fixpoint lower (s : string) : string :=
  match s with
  | EmptyString => EmptyString
  | String c s' => String (lower_char c) (lower s')
  end.

End fmt.

(** ** [os.path] on POSIX paths *)

Module os_path.

Definition sep : ascii := "/"%char.

Fixpoint ends_with_sep (p : string) : bool :=
  match p with
  | EmptyString => false
  | String c EmptyString => Ascii.eqb c sep
  | String _ p' => ends_with_sep p'
  end.

(** [os.path.join(a, b)]. *)
Definition join (a b : string) : string :=
  match b with
  | String "/" _ => b
  | _ =>
      if String.eqb a EmptyString || ends_with_sep a then a +:+ b
      else a +:+ String sep b
  end.

(** The part after the last separator, if there is a separator. *)
Fixpoint after_last_sep (p : string) : option string :=
  match p with
  | EmptyString => None
  | String c p' =>
      match after_last_sep p' with
      | Some t => Some t
      | None => if Ascii.eqb c sep then Some p' else None
      end
  end.

(** [os.path.basename(p)]. *)
Definition basename (p : string) : string :=
  default p (after_last_sep p).

(** Splits at the last ["."]: the part before it and the part from it. *)
Fixpoint split_last_dot (s : string) : option (string * string) :=
  match s with
  | EmptyString => None
  | String c s' =>
      match split_last_dot s' with
      | Some (a, b) => Some (String c a, b)
      | None => if Ascii.eqb c "." then Some (EmptyString, s) else None
      end
  end.

Fixpoint only_dots (s : string) : bool :=
  match s with
  | EmptyString => true
  | String c s' => Ascii.eqb c "." && only_dots s'
  end.

(** [os.path.splitext(p)] on a path without separator: the extension
    starts at the last dot, leading dots of the name are not one. *)
Definition splitext (p : string) : string * string :=
  match split_last_dot p with
  | Some (root, ext) =>
      if only_dots root then (p, EmptyString) else (root, ext)
  | None => (p, EmptyString)
  end.

End os_path.

(** * [generate_dataset.py]: the ring-target generator *)

Module generate_dataset.

Definition IMG_WIDTH : Z := 640.
Definition IMG_HEIGHT : Z := 640.
Definition NUM_IMAGES : Z := 5000.
Definition NUM_CIRCLES : Z := 5.
Definition OUTPUT_DIR : string := "hotspot_dataset".
Definition IMAGES_SUBDIR : string :=
  os_path.join (os_path.join OUTPUT_DIR "images") "train".
Definition LABELS_SUBDIR : string :=
  os_path.join (os_path.join OUTPUT_DIR "labels") "train".
Definition CLASS_ID : Z := 0.

Definition color : Type := Z * Z * Z.

Definition HOTSPOT_PALETTE : list color :=
  [(255, 255, 255); (0, 0, 0); (255, 0, 0); (0, 0, 255); (0, 255, 255)].

Definition RADII_FACTORS : list Q := [1; 0.8; 0.6; 0.4; 0.2]%Q.

(** A raster, as the sequence of calls that produced it. *)
Inductive image : Type :=
  | np_full (rows cols : Z) (c : color)
  | cv2_circle (img : image) (center : Z * Z) (radius : Z) (c : color)
  | cv2_warpPerspective (img : image) (pts1 pts2 : list (Q * Q))
  | cv2_GaussianBlur (img : image) (ksize : Z).

(** [image.shape]: drawing, warping and blurring keep the size. *)
Fixpoint shape (img : image) : Z * Z :=
  match img with
  | np_full rows cols _ => (rows, cols)
  | cv2_circle img' _ _ _ => shape img'
  | cv2_warpPerspective img' _ _ => shape img'
  | cv2_GaussianBlur img' _ => shape img'
  end.

(** A file handed to the sink. *)
Inductive file : Type :=
  | ImageFile (img : image)
  | TextFile (contents : string).

Definition generate_random_color : M color :=
  b ← random.randint 0 255;
  g ← random.randint 0 255;
  r ← random.randint 0 255;
  mret (b, g, r).

Definition calculate_visible_bbox (cx cy r_outer img_w img_h : Z)
  : Z * Z * Z * Z :=
  let x_min := cx - r_outer in
  let y_min := cy - r_outer in
  let x_max := cx + r_outer in
  let y_max := cy + r_outer in
  (Z.max 0 x_min, Z.max 0 y_min, Z.min img_w x_max, Z.min img_h y_max).

Definition to_yolo_format (bbox : Z * Z * Z * Z) (img_w img_h : Z)
  : result (Z * Q * Q * Q * Q) :=
  let '(vis_x_min, vis_y_min, vis_x_max, vis_y_max) := bbox in
  dw ← py.truediv 1 (inject_Z img_w);
  dh ← py.truediv 1 (inject_Z img_h);
  let x_center := (inject_Z (vis_x_min + vis_x_max) / 2)%Q in
  let y_center := (inject_Z (vis_y_min + vis_y_max) / 2)%Q in
  let width := inject_Z (vis_x_max - vis_x_min) in
  let height := inject_Z (vis_y_max - vis_y_min) in
  let x_center_norm := (x_center * dw)%Q in
  let y_center_norm := (y_center * dh)%Q in
  let width_norm := (width * dw)%Q in
  let height_norm := (height * dh)%Q in
  mret (CLASS_ID, x_center_norm, y_center_norm, width_norm, height_norm).

(** [np.clip(v, lo, hi)]. *)
Definition np_clip (v lo hi : Q) : Q := py.min (py.max v lo) hi.

Definition apply_perspective_transform (img : image) (max_shift_ratio : Q)
  : M image :=
  let '(rows, cols) := shape img in
  let rows := inject_Z rows in
  let cols := inject_Z cols in
  let pts1 := [(0, 0); (cols - 1, 0); (0, rows - 1); (cols - 1, rows - 1)]%Q in
  let max_shift_x := (cols * max_shift_ratio)%Q in
  let max_shift_y := (rows * max_shift_ratio)%Q in
  dx1 ← random.uniform (- max_shift_x) max_shift_x;
  dy1 ← random.uniform (- max_shift_y) max_shift_y;
  dx2 ← random.uniform (- max_shift_x) max_shift_x;
  dy2 ← random.uniform (- max_shift_y) max_shift_y;
  dx3 ← random.uniform (- max_shift_x) max_shift_x;
  dy3 ← random.uniform (- max_shift_y) max_shift_y;
  dx4 ← random.uniform (- max_shift_x) max_shift_x;
  dy4 ← random.uniform (- max_shift_y) max_shift_y;
  let pts2 := [(dx1, dy1); (cols - 1 + dx2, dy2);
               (dx3, rows - 1 + dy3); (cols - 1 + dx4, rows - 1 + dy4)]%Q in
  let pts2 := map (fun p : Q * Q =>
                     (np_clip (fst p) (- cols * 0.2) (cols * 1.2),
                      np_clip (snd p) (- rows * 0.2) (rows * 1.2))%Q) pts2 in
  mret (cv2_warpPerspective img pts1 pts2).

Definition apply_blur (img : image) (max_kernel_size : Z) : M image :=
  if max_kernel_size <? 1 then mret img
  else
    kernel_val ← random.randrange 1 (max_kernel_size + 1) 2;
    mret (cv2_GaussianBlur img kernel_val).

(** The drawing loop of [main]:
    [for k in range(NUM_CIRCLES): if k < len(actual_radii): ...]. *)
Fixpoint draw_rings (ks : list nat) (img : image) (cx cy : Z)
    (actual_radii : list Z) (colors : list color) : result image :=
  match ks with
  | [] => Ok img
  | k :: ks' =>
      match actual_radii !! k with
      | Some radius =>
          if (length colors =? 0)%nat then Raise ZeroDivisionError
          else match colors !! (k mod length colors)%nat with
               | Some c =>
                   draw_rings ks' (cv2_circle img (cx, cy) radius c)
                     cx cy actual_radii colors
               | None => Raise IndexError
               end
      | None => draw_rings ks' img cx cy actual_radii colors
      end
  end.

(** The label line written by [main]:
    [f"{d[0]} {d[1]:.6f} {d[2]:.6f} {d[3]:.6f} {d[4]:.6f}\n"]. *)
Definition label_line (yolo_data : Z * Q * Q * Q * Q) : string :=
  let '(c, x, y, w, h) := yolo_data in
  fmt.int_str c +:+ " " +:+ fmt.fixed6 x +:+ " " +:+ fmt.fixed6 y +:+ " "
  +:+ fmt.fixed6 w +:+ " " +:+ fmt.fixed6 h +:+ String fmt.newline EmptyString.

(** The state of the generation loop: [generated_count] and the files
    written so far, oldest first. *)
Definition loop_state : Type := Z * list (string * file).

(** One pass through the body of [for i in range(NUM_IMAGES * 2)], after
    the [break] test. A [continue] returns the state unchanged. In the test
    before the write, [not yolo_data] is false, the record being a 5-tuple. *)
Definition iteration (st : loop_state) : M loop_state :=
  let '(generated_count, sink) := st in
  bg_color ← generate_random_color;
  let img := np_full IMG_HEIGHT IMG_WIDTH bg_color in
  let max_possible_r_outer := Z.min IMG_WIDTH IMG_HEIGHT / 2 in
  let min_r_outer :=
    Z.max 1 (py.int (0.1 * inject_Z (Z.min IMG_WIDTH IMG_HEIGHT))%Q) in
  let min_r_outer :=
    if max_possible_r_outer <? min_r_outer then max_possible_r_outer
    else min_r_outer in
  r_outer ← random.randint min_r_outer max_possible_r_outer;
  let cx_min := r_outer in
  let cx_max := IMG_WIDTH - r_outer in
  let cy_min := r_outer in
  let cy_max := IMG_HEIGHT - r_outer in
  cx ← random.randint cx_min cx_max;
  cy ← random.randint cy_min cy_max;
  let actual_radii :=
    map (fun factor => py.int (factor * inject_Z r_outer)%Q) RADII_FACTORS in
  let actual_radii := filter (fun r => 0 < r) actual_radii in
  if Z.of_nat (length actual_radii) <? NUM_CIRCLES then mret st
  else
    current_hotspot_colors ←
      random.sample HOTSPOT_PALETTE (length HOTSPOT_PALETTE);
    img ← lift (draw_rings (seq 0 (Z.to_nat NUM_CIRCLES)) img cx cy
                  actual_radii current_hotspot_colors);
    let visible_bbox :=
      calculate_visible_bbox cx cy r_outer IMG_WIDTH IMG_HEIGHT in
    u ← random.random;
    img ← (if py.ltb u 0.3 then apply_perspective_transform img 0.08
           else mret img);
    u ← random.random;
    img ← (if py.ltb u 0.4 then apply_blur img 5 else mret img);
    yolo_data ← lift (to_yolo_format visible_bbox IMG_WIDTH IMG_HEIGHT);
    let '(_, _, _, width_norm, height_norm) := yolo_data in
    if py.leb width_norm 0 || py.leb height_norm 0 then mret st
    else
      let img_filename :=
        "hotspot_" +:+ fmt.zero_pad 5 generated_count +:+ ".png" in
      let label_filename :=
        "hotspot_" +:+ fmt.zero_pad 5 generated_count +:+ ".txt" in
      let sink :=
        sink ++ [(os_path.join IMAGES_SUBDIR img_filename, ImageFile img);
                 (os_path.join LABELS_SUBDIR label_filename,
                  TextFile (label_line yolo_data))] in
      mret (generated_count + 1, sink).

(** [for i in range(n)] with the [break] on reaching [num_images]. *)
Fixpoint generation_loop (num_images : Z) (n : nat) (st : loop_state)
  : M loop_state :=
  match n with
  | O => mret st
  | S n' =>
      if num_images <=? fst st then mret st
      else st' ← iteration st; generation_loop num_images n' st'
  end.

(** [main] for a requested number of images; the loop runs at most twice
    that many times. *)
Definition main_with (num_images : Z) : M loop_state :=
  generation_loop num_images (Z.to_nat (num_images * 2)) (0, []).

Definition main : M loop_state := main_with NUM_IMAGES.

End generate_dataset.

(** * [generate_yolo_dataset.py]: the polygon generator *)

Module generate_yolo_dataset.

Definition IMAGE_WIDTH : Z := 640.
Definition IMAGE_HEIGHT : Z := 640.
Definition NUM_IMAGES_PER_SHAPE : Z := 5000.
Definition MIN_SHAPE_SIZE : Z := 50.
Definition MAX_SHAPE_SIZE : Z := 250.

(** The dict [SHAPE_CLASSES], in insertion order. *)
Definition SHAPE_CLASSES : list (string * Z) :=
  [("Rectangle", 0); ("Square", 1); ("Circle", 2); ("Triangle", 3)]%string.

Definition color : Type := Z * Z * Z.

Definition BACKGROUND_COLORS : list color :=
  [(200, 200, 200); (220, 220, 220); (240, 240, 240);
   (173, 216, 230); (135, 206, 250); (176, 224, 230);
   (144, 238, 144); (152, 251, 152); (60, 179, 113);
   (255, 228, 196); (255, 239, 213); (250, 235, 215);
   (255, 192, 203); (255, 182, 193); (221, 160, 221)].

Definition SHAPE_COLORS : list color :=
  [(255, 0, 0); (0, 0, 255); (0, 128, 0); (255, 165, 0); (128, 0, 128);
   (255, 20, 147); (0, 0, 0); (70, 130, 180); (218, 165, 32);
   (165, 42, 42); (0, 200, 0); (200, 0, 200)].

Definition BBOX_PADDING_PERCENTAGE : Q := 0.07%Q.

Definition point : Type := Z * Z.

(** A PIL image with the calls made on its [ImageDraw]. *)
Inductive image : Type :=
  | Image_new (w h : Z) (c : color)
  | draw_rectangle (img : image) (p1 p2 : point) (fill : color)
  | draw_ellipse (img : image) (p1 p2 : point) (fill : color)
  | draw_polygon (img : image) (points : list point) (fill : color).

Inductive file : Type :=
  | ImageFile (img : image)
  | TextFile (contents : string).

(** [create_directories_for_shape]: the two directory names. Creating the
    directories has no effect on the sink. *)
Definition create_directories_for_shape (base_path shape_name : string)
  : string * string :=
  let images_dir := os_path.join (os_path.join base_path "images") shape_name in
  let labels_dir := os_path.join (os_path.join base_path "labels") shape_name in
  (images_dir, labels_dir).

Definition color_eqb (a b : color) : bool := bool_decide (a = b).

(** The loop [while shape_color == bg_color: shape_color = choice(...)]. *)
Fixpoint resample_color (fuel : nat) (bg_color shape_color : color)
    (shape_colors : list color) : M color :=
  if color_eqb shape_color bg_color then
    match fuel with
    | O => raise FuelExhausted
    | S fuel' =>
        shape_color ← random.choice shape_colors;
        resample_color fuel' bg_color shape_color shape_colors
    end
  else mret shape_color.

Definition get_random_color_pair (fuel : nat) (bg_colors shape_colors : list color)
  : M (color * color) :=
  bg_color ← random.choice bg_colors;
  shape_color ← random.choice shape_colors;
  shape_color ← resample_color fuel bg_color shape_color shape_colors;
  mret (bg_color, shape_color).

Definition get_triangle_area (p1 p2 p3 : point) : Q :=
  (0.5 * inject_Z (Z.abs (fst p1 * (snd p2 - snd p3)
                          + fst p2 * (snd p3 - snd p1)
                          + fst p3 * (snd p1 - snd p2))))%Q.

(** ** The bounding-box annotator, stage by stage *)

Definition bbox : Type := Q * Q * Q * Q.

(** Lines 115-126: the tight box enlarged by the padding on each side. *)
Definition enlarged_bbox (tight_bbox : bbox) (padding_percentage : Q) : bbox :=
  let '(tight_x_min, tight_y_min, tight_x_max, tight_y_max) := tight_bbox in
  let tight_w := (tight_x_max - tight_x_min)%Q in
  let tight_h := (tight_y_max - tight_y_min)%Q in
  let pad_w := (tight_w * padding_percentage)%Q in
  let pad_h := (tight_h * padding_percentage)%Q in
  let enlarged_x_min := (tight_x_min - pad_w)%Q in
  let enlarged_y_min := (tight_y_min - pad_h)%Q in
  let enlarged_x_max := (tight_x_max + pad_w)%Q in
  let enlarged_y_max := (tight_y_max + pad_h)%Q in
  (enlarged_x_min, enlarged_y_min, enlarged_x_max, enlarged_y_max).

(** Lines 128-131: the clamp to the canvas. *)
Definition clamped_bbox (enlarged : bbox) (img_w img_h : Z) : bbox :=
  let '(enlarged_x_min, enlarged_y_min, enlarged_x_max, enlarged_y_max) :=
    enlarged in
  let final_x_min := py.max 0 enlarged_x_min in
  let final_y_min := py.max 0 enlarged_y_min in
  let final_x_max := py.min (inject_Z img_w) enlarged_x_max in
  let final_y_max := py.min (inject_Z img_h) enlarged_y_max in
  (final_x_min, final_y_min, final_x_max, final_y_max).

(** Lines 133-136 for x with [limit = img_w], lines 138-141 for y with
    [limit = img_h]: the repair of an empty span. *)
Definition repair_span (final_min final_max : Q) (limit : Z) : Q * Q :=
  if py.leb final_max final_min then
    let final_max :=
      if py.ltb final_min (inject_Z limit) then (final_min + 1)%Q
      else inject_Z limit in
    let final_max :=
      if py.ltb (inject_Z limit) final_max then inject_Z limit
      else final_max in
    let final_min :=
      if py.leb final_max final_min then
        (if py.ltb 0 final_max then (final_max - 1)%Q else 0%Q)
      else final_min in
    (final_min, final_max)
  else (final_min, final_max).

(** Lines 115-141: the box that is normalized. *)
Definition final_bbox (tight_bbox : bbox) (img_w img_h : Z)
    (padding_percentage : Q) : bbox :=
  let '(final_x_min, final_y_min, final_x_max, final_y_max) :=
    clamped_bbox (enlarged_bbox tight_bbox padding_percentage) img_w img_h in
  let '(final_x_min, final_x_max) := repair_span final_x_min final_x_max img_w in
  let '(final_y_min, final_y_max) := repair_span final_y_min final_y_max img_h in
  (final_x_min, final_y_min, final_x_max, final_y_max).

(** Lines 143-151: center and size, divided by the canvas size. *)
Definition normalized (final : bbox) (img_w img_h : Z) : result bbox :=
  let '(final_x_min, final_y_min, final_x_max, final_y_max) := final in
  let bbox_abs_center_x := ((final_x_min + final_x_max) / 2)%Q in
  let bbox_abs_center_y := ((final_y_min + final_y_max) / 2)%Q in
  let bbox_abs_width := (final_x_max - final_x_min)%Q in
  let bbox_abs_height := (final_y_max - final_y_min)%Q in
  x_center_norm ← py.truediv bbox_abs_center_x (inject_Z img_w);
  y_center_norm ← py.truediv bbox_abs_center_y (inject_Z img_h);
  width_norm ← py.truediv bbox_abs_width (inject_Z img_w);
  height_norm ← py.truediv bbox_abs_height (inject_Z img_h);
  mret (x_center_norm, y_center_norm, width_norm, height_norm).

(** The four normalized fields of the annotation. *)
Definition yolo_fields (tight_bbox : bbox) (img_w img_h : Z)
    (padding_percentage : Q) : result bbox :=
  normalized (final_bbox tight_bbox img_w img_h padding_percentage) img_w img_h.

(** Line 153: the f-string. *)
Definition annotation_str (class_id : Z) (fields : bbox) : string :=
  let '(x_center_norm, y_center_norm, width_norm, height_norm) := fields in
  fmt.int_str class_id +:+ " " +:+ fmt.fixed6 x_center_norm +:+ " "
  +:+ fmt.fixed6 y_center_norm +:+ " " +:+ fmt.fixed6 width_norm +:+ " "
  +:+ fmt.fixed6 height_norm.

Definition calculate_yolo_annotation (tight_bbox : bbox) (class_id : Z)
    (img_w img_h : Z) (padding_percentage : Q) : result string :=
  fields ← yolo_fields tight_bbox img_w img_h padding_percentage;
  mret (annotation_str class_id fields).

(** ** The shape generators

    Each draws on the image it is given and returns it with the tight box. *)

Definition tight : Type := Z * Z * Z * Z.

Definition generate_rectangle (draw : image) (shape_color : color)
  : M (image * tight) :=
  width ← random.randint MIN_SHAPE_SIZE MAX_SHAPE_SIZE;
  height ← random.randint MIN_SHAPE_SIZE MAX_SHAPE_SIZE;
  x1 ← random.randint 0 (IMAGE_WIDTH - width);
  y1 ← random.randint 0 (IMAGE_HEIGHT - height);
  let x2 := x1 + width in
  let y2 := y1 + height in
  mret (draw_rectangle draw (x1, y1) (x2, y2) shape_color, (x1, y1, x2, y2)).

Definition generate_square (draw : image) (shape_color : color)
  : M (image * tight) :=
  side ← random.randint MIN_SHAPE_SIZE MAX_SHAPE_SIZE;
  x1 ← random.randint 0 (IMAGE_WIDTH - side);
  y1 ← random.randint 0 (IMAGE_HEIGHT - side);
  let x2 := x1 + side in
  let y2 := y1 + side in
  mret (draw_rectangle draw (x1, y1) (x2, y2) shape_color, (x1, y1, x2, y2)).

Definition generate_circle (draw : image) (shape_color : color)
  : M (image * tight) :=
  radius ← random.randint (MIN_SHAPE_SIZE / 2) (MAX_SHAPE_SIZE / 2);
  cx ← random.randint radius (IMAGE_WIDTH - radius);
  cy ← random.randint radius (IMAGE_HEIGHT - radius);
  let x1 := cx - radius in
  let y1 := cy - radius in
  let x2 := cx + radius in
  let y2 := cy + radius in
  mret (draw_ellipse draw (x1, y1) (x2, y2) shape_color, (x1, y1, x2, y2)).

Definition min_area : Q := (inject_Z (MIN_SHAPE_SIZE * MIN_SHAPE_SIZE) / 10)%Q.

(** One vertex of a candidate triangle, inside the window. *)
Definition random_vertex (tri_origin_x tri_origin_y tri_bbox_w tri_bbox_h : Z)
  : M point :=
  pt_x ← random.randint tri_origin_x (tri_origin_x + tri_bbox_w);
  pt_y ← random.randint tri_origin_y (tri_origin_y + tri_bbox_h);
  mret (pt_x, pt_y).

(** Lines 244-254: the window and the three vertices of one candidate. *)
Definition sample_candidate : M (point * point * point) :=
  tri_bbox_w ← random.randint MIN_SHAPE_SIZE MAX_SHAPE_SIZE;
  tri_bbox_h ← random.randint MIN_SHAPE_SIZE MAX_SHAPE_SIZE;
  tri_origin_x ← random.randint 0 (IMAGE_WIDTH - tri_bbox_w);
  tri_origin_y ← random.randint 0 (IMAGE_HEIGHT - tri_bbox_h);
  q1 ← random_vertex tri_origin_x tri_origin_y tri_bbox_w tri_bbox_h;
  q2 ← random_vertex tri_origin_x tri_origin_y tri_bbox_w tri_bbox_h;
  q3 ← random_vertex tri_origin_x tri_origin_y tri_bbox_w tri_bbox_h;
  mret (q1, q2, q3).

(** The loop [while attempts < 50] of [generate_triangle]; it returns
    [points], empty when no candidate was accepted. *)
Fixpoint triangle_attempts (fuel : nat) (attempts : Z) : M (list point) :=
  if attempts <? 50 then
    match fuel with
    | O => raise FuelExhausted
    | S fuel' =>
        '(q1, q2, q3) ← sample_candidate;
        let temp_points := [q1; q2; q3] in
        let area := get_triangle_area q1 q2 q3 in
        if py.ltb min_area area then mret temp_points
        else triangle_attempts fuel' (attempts + 1)
    end
  else mret [].

(** The construction after [if not points]. *)
Definition fallback_triangle : M (list point) :=
  base ← random.randint MIN_SHAPE_SIZE MAX_SHAPE_SIZE;
  height ← random.randint MIN_SHAPE_SIZE MAX_SHAPE_SIZE;
  tl_x ← random.randint 0 (IMAGE_WIDTH - base);
  tl_y ← random.randint 0 (IMAGE_HEIGHT - height);
  let p1 := (tl_x + base / 2, tl_y) in
  let p2 := (tl_x, tl_y + height) in
  let p3 := (tl_x + base, tl_y + height) in
  mret [p1; p2; p3].

(** [min(xs)] and [max(xs)] on a list. *)
Definition list_min (xs : list Z) : result Z :=
  match xs with
  | [] => Raise ValueError
  | x :: xs' => Ok (foldl Z.min x xs')
  end.

Definition list_max (xs : list Z) : result Z :=
  match xs with
  | [] => Raise ValueError
  | x :: xs' => Ok (foldl Z.max x xs')
  end.

(** The axis-aligned envelope computed at the end of [generate_triangle]. *)
Definition envelope (points : list point) : result tight :=
  let x_coords := map fst points in
  let y_coords := map snd points in
  x_lo ← list_min x_coords;
  y_lo ← list_min y_coords;
  x_hi ← list_max x_coords;
  y_hi ← list_max y_coords;
  mret (x_lo, y_lo, x_hi, y_hi).

(** The vertices [generate_triangle] settles on. *)
Definition triangle_points (fuel : nat) : M (list point) :=
  points ← triangle_attempts fuel 0;
  match points with
  | [] => fallback_triangle
  | _ => mret points
  end.

Definition generate_triangle (fuel : nat) (draw : image) (shape_color : color)
  : M (image * tight) :=
  points ← triangle_points fuel;
  box ← lift (envelope points);
  mret (draw_polygon draw points shape_color, box).

(** ** The generation loop of the script *)

(** [d[k]] on a dict given as its list of items. *)
Fixpoint dict_get {V} (d : list (string * V)) (k : string) : result V :=
  match d with
  | [] => Raise KeyError
  | (k', v) :: d' => if String.eqb k k' then Ok v else dict_get d' k
  end.

Definition shape_generators (fuel : nat)
  : list (string * (image -> color -> M (image * tight))) :=
  [("Rectangle", generate_rectangle); ("Square", generate_square);
   ("Circle", generate_circle); ("Triangle", generate_triangle fuel)]%string.

Definition to_bbox (t : tight) : bbox :=
  let '(x1, y1, x2, y2) := t in
  (inject_Z x1, inject_Z y1, inject_Z x2, inject_Z y2).

Definition sink : Type := list (string * file).

(** The body of [for i in range(NUM_IMAGES_PER_SHAPE)]. *)
Definition sample_step (fuel : nat) (shape_name : string) (class_id : Z)
    (images_dir labels_dir : string)
    (shape_generator_func : image -> color -> M (image * tight))
    (out : sink) (i : Z) : M sink :=
  '(bg_color, shape_color_val) ←
    get_random_color_pair fuel BACKGROUND_COLORS SHAPE_COLORS;
  let img := Image_new IMAGE_WIDTH IMAGE_HEIGHT bg_color in
  '(img, tight_bbox) ← shape_generator_func img shape_color_val;
  yolo_annotation_str ←
    lift (calculate_yolo_annotation (to_bbox tight_bbox) class_id
            IMAGE_WIDTH IMAGE_HEIGHT BBOX_PADDING_PERCENTAGE);
  let image_filename :=
    fmt.lower shape_name +:+ "_" +:+ fmt.zero_pad 4 (i + 1) +:+ ".png" in
  let image_path := os_path.join images_dir image_filename in
  let label_filename :=
    fmt.lower shape_name +:+ "_" +:+ fmt.zero_pad 4 (i + 1) +:+ ".txt" in
  let label_path := os_path.join labels_dir label_filename in
  mret (out ++ [(image_path, ImageFile img);
                (label_path, TextFile yolo_annotation_str)]).

(** [for x in xs] threading the sink. *)
Fixpoint for_each {A} (body : sink -> A -> M sink) (xs : list A) (out : sink)
  : M sink :=
  match xs with
  | [] => mret out
  | x :: xs' => out' ← body out x; for_each body xs' out'
  end.

(** [range(n)]. *)
Definition range (n : Z) : list Z := map Z.of_nat (seq 0 (Z.to_nat n)).

(** The body of [for shape_name, class_id in SHAPE_CLASSES.items()]. *)
Definition shape_step (fuel : nat) (num_images_per_shape : Z)
    (dataset_base_path : string) (out : sink) (item : string * Z) : M sink :=
  let '(shape_name, class_id) := item in
  let '(images_dir, labels_dir) :=
    create_directories_for_shape dataset_base_path shape_name in
  shape_generator_func ← lift (dict_get (shape_generators fuel) shape_name);
  for_each (sample_step fuel shape_name class_id images_dir labels_dir
              shape_generator_func)
    (range num_images_per_shape) out.

Definition main_with (fuel : nat) (num_images_per_shape : Z) : M sink :=
  let dataset_base_path := "dataset_2d_shapes"%string in
  for_each (shape_step fuel num_images_per_shape dataset_base_path)
    SHAPE_CLASSES [].

Definition main (fuel : nat) : M sink := main_with fuel NUM_IMAGES_PER_SHAPE.

End generate_yolo_dataset.

(** * The annotator of [generate_yolo_dataset.py] in binary64

    Lines 115-151 once more, on IEEE 754 doubles as Python computes them,
    to compare with the exact rational arithmetic above. The integers of
    the call (box corners, canvas size) are given as the doubles that
    represent them. *)

Module binary64.

Import PrimFloat.
Local Open Scope float_scope.

Definition max (a b : float) : float := if ltb a b then b else a.
Definition min (a b : float) : float := if ltb b a then b else a.

Definition enlarged_bbox (tight_bbox : float * float * float * float)
    (padding_percentage : float) : float * float * float * float :=
  let '(tight_x_min, tight_y_min, tight_x_max, tight_y_max) := tight_bbox in
  let tight_w := tight_x_max - tight_x_min in
  let tight_h := tight_y_max - tight_y_min in
  let pad_w := tight_w * padding_percentage in
  let pad_h := tight_h * padding_percentage in
  (tight_x_min - pad_w, tight_y_min - pad_h,
   tight_x_max + pad_w, tight_y_max + pad_h).

Definition repair_span (final_min final_max limit : float) : float * float :=
  if leb final_max final_min then
    let final_max := if ltb final_min limit then final_min + 1 else limit in
    let final_max := if ltb limit final_max then limit else final_max in
    let final_min :=
      if leb final_max final_min then
        (if ltb 0 final_max then final_max - 1 else 0)
      else final_min in
    (final_min, final_max)
  else (final_min, final_max).

Definition final_bbox (tight_bbox : float * float * float * float)
    (img_w img_h padding_percentage : float)
  : float * float * float * float :=
  let '(enlarged_x_min, enlarged_y_min, enlarged_x_max, enlarged_y_max) :=
    enlarged_bbox tight_bbox padding_percentage in
  let final_x_min := max 0 enlarged_x_min in
  let final_y_min := max 0 enlarged_y_min in
  let final_x_max := min img_w enlarged_x_max in
  let final_y_max := min img_h enlarged_y_max in
  let '(final_x_min, final_x_max) := repair_span final_x_min final_x_max img_w in
  let '(final_y_min, final_y_max) := repair_span final_y_min final_y_max img_h in
  (final_x_min, final_y_min, final_x_max, final_y_max).

Definition yolo_fields (tight_bbox : float * float * float * float)
    (img_w img_h padding_percentage : float)
  : float * float * float * float :=
  let '(final_x_min, final_y_min, final_x_max, final_y_max) :=
    final_bbox tight_bbox img_w img_h padding_percentage in
  let bbox_abs_center_x := (final_x_min + final_x_max) / 2 in
  let bbox_abs_center_y := (final_y_min + final_y_max) / 2 in
  let bbox_abs_width := final_x_max - final_x_min in
  let bbox_abs_height := final_y_max - final_y_min in
  (bbox_abs_center_x / img_w, bbox_abs_center_y / img_h,
   bbox_abs_width / img_w, bbox_abs_height / img_h).

(** The double nearest to 0.07. *)
#[warnings="-inexact-float"] Definition BBOX_PADDING_PERCENTAGE : float := 0.07.

(** The doubles nearest to the figures of Scenario B, as computed and as
    specified. *)
#[warnings="-inexact-float"] Definition scenario_B_fields
  : float * float * float * float :=
  (0.09375, 0.133203125, 0.178125, 0.26640625).

#[warnings="-inexact-float"] Definition scenario_B_specified
  : float * float * float * float :=
  (0.09375, 0.134765625, 0.178125, 0.25).

End binary64.

(** * [split_dataset.py]: the partitioner *)

Module split_dataset.

Definition SOURCE_IMAGES_DIR : string :=
  os_path.join (os_path.join "hotspot_dataset" "images") "train".
Definition SOURCE_LABELS_DIR : string :=
  os_path.join (os_path.join "hotspot_dataset" "labels") "train".
Definition OUTPUT_DATA_DIR : string := "yolo_hotspot_data".
Definition TRAIN_RATIO : Q := 0.8%Q.
Definition RANDOM_SEED : Z := 42.

Definition get_corresponding_label_file (image_path labels_dir : string)
  : string :=
  let base_filename := fst (os_path.splitext (os_path.basename image_path)) in
  os_path.join labels_dir (base_filename +:+ ".txt").

(** [os.path.exists(p)] in a store of files. *)
Definition path_exists (files : gmap string string) (p : string) : bool :=
  bool_decide (is_Some (files !! p)).

(** [shutil.copy(src, dst)] for an existing directory [dst]: the file is
    written to [dst/basename(src)], replacing what was there. *)
Definition shutil_copy (src dst : string) (files : gmap string string)
  : result (gmap string string) :=
  match files !! src with
  | None => Raise FileNotFoundError
  | Some data =>
      let target := os_path.join dst (os_path.basename src) in
      if String.eqb target src then Raise SameFileError
      else Ok (<[target := data]> files)
  end.

(** The body of [for img_path in file_list] in [copy_files], on the store
    and [copied_count]. An exception of a copy is caught and the loop goes
    on; what the first copy wrote stays. *)
Definition copy_step (dest_img_dir dest_lbl_dir source_lbl_dir : string)
    (st : gmap string string * Z) (img_path : string)
  : gmap string string * Z :=
  let '(files, copied_count) := st in
  let lbl_path := get_corresponding_label_file img_path source_lbl_dir in
  if negb (path_exists files lbl_path) then st
  else
    match shutil_copy img_path dest_img_dir files with
    | Raise _ => st
    | Ok files1 =>
        match shutil_copy lbl_path dest_lbl_dir files1 with
        | Raise _ => (files1, copied_count)
        | Ok files2 => (files2, copied_count + 1)
        end
    end.

Definition copy_files (file_list : list string)
    (dest_img_dir dest_lbl_dir source_lbl_dir : string)
    (files : gmap string string) : gmap string string * Z :=
  foldl (copy_step dest_img_dir dest_lbl_dir source_lbl_dir) (files, 0)
    file_list.

Record report : Type := mk_report {
  train_files : list string;
  val_files : list string;
  train_copied : Z;
  val_copied : Z
}.

(** The split of [main]: seed, shuffle, cut at [int(len * TRAIN_RATIO)]. *)
Definition partition (mt : Z -> nat -> Z) (train_ratio : Q) (seed : Z)
    (image_files : list string) : M (list string * list string) :=
  _ ← random.seed mt seed;
  image_files ← random.shuffle image_files;
  let split_index :=
    py.int (inject_Z (Z.of_nat (length image_files)) * train_ratio)%Q in
  let train_files := take (Z.to_nat split_index) image_files in
  let val_files := drop (Z.to_nat split_index) image_files in
  mret (train_files, val_files).

(** [main] from the listing [image_files = glob.glob(...)] on; the
    directories are taken to exist. An empty listing ends the run. *)
Definition main (mt : Z -> nat -> Z) (image_files : list string)
    (files : gmap string string) : M (gmap string string * option report) :=
  let train_images_path :=
    os_path.join (os_path.join OUTPUT_DATA_DIR "images") "train" in
  let train_labels_path :=
    os_path.join (os_path.join OUTPUT_DATA_DIR "labels") "train" in
  let val_images_path :=
    os_path.join (os_path.join OUTPUT_DATA_DIR "images") "val" in
  let val_labels_path :=
    os_path.join (os_path.join OUTPUT_DATA_DIR "labels") "val" in
  match image_files with
  | [] => mret (files, None)
  | _ =>
      '(train_files, val_files) ← partition mt TRAIN_RATIO RANDOM_SEED image_files;
      let '(files, train_copied) :=
        copy_files train_files train_images_path train_labels_path
          SOURCE_LABELS_DIR files in
      let '(files, val_copied) :=
        copy_files val_files val_images_path val_labels_path
          SOURCE_LABELS_DIR files in
      mret (files, Some (mk_report train_files val_files train_copied val_copied))
  end.

End split_dataset.

(** * Vocabulary of the properties *)

(** Equality of boxes as numbers: a rational has several representations. *)
Definition bbox_eq (a b : generate_yolo_dataset.bbox) : Prop :=
  let '(a1, a2, a3, a4) := a in
  let '(b1, b2, b3, b4) := b in
  (a1 == b1 /\ a2 == b2 /\ a3 == b3 /\ a4 == b4)%Q.

(** The box of a normalized annotation, back in pixels:
    [x_min = (x_center_norm - width_norm / 2) * W] and analogues. *)
Definition denormalize (fields : generate_yolo_dataset.bbox) (img_w img_h : Z)
  : generate_yolo_dataset.bbox :=
  let '(x_center_norm, y_center_norm, width_norm, height_norm) := fields in
  (((x_center_norm - width_norm / 2) * inject_Z img_w)%Q,
   ((y_center_norm - height_norm / 2) * inject_Z img_h)%Q,
   ((x_center_norm + width_norm / 2) * inject_Z img_w)%Q,
   ((y_center_norm + height_norm / 2) * inject_Z img_h)%Q).

(** Two boxes agree within one pixel on every edge. *)
Definition within_one_pixel (a b : generate_yolo_dataset.bbox) : Prop :=
  let '(a1, a2, a3, a4) := a in
  let '(b1, b2, b3, b4) := b in
  (Qabs (a1 - b1) < 1 /\ Qabs (a2 - b2) < 1
   /\ Qabs (a3 - b3) < 1 /\ Qabs (a4 - b4) < 1)%Q.

(** The four edges of a box [(x_min, y_min, x_max, y_max)]. *)
Definition x_min_of (b : generate_yolo_dataset.bbox) : Q := fst (fst (fst b)).
Definition y_min_of (b : generate_yolo_dataset.bbox) : Q := snd (fst (fst b)).
Definition x_max_of (b : generate_yolo_dataset.bbox) : Q := snd (fst b).
Definition y_max_of (b : generate_yolo_dataset.bbox) : Q := snd b.

(** A tight box as the data model has it: its corners are ordered. *)
Definition well_formed (t : generate_yolo_dataset.tight) : Prop :=
  let '(x1, y1, x2, y2) := t in x1 <= x2 /\ y1 <= y2.

(** The text ends with a line feed. *)
Fixpoint ends_with_newline (s : string) : bool :=
  match s with
  | EmptyString => false
  | String c EmptyString => Ascii.eqb c fmt.newline
  | String _ s' => ends_with_newline s'
  end.

(** The characters a formatted number is made of: digits, sign, point. *)
Definition is_field_char (c : ascii) : bool :=
  fmt.is_digit c || Ascii.eqb c "-" || Ascii.eqb c ".".

Fixpoint field_text (s : string) : bool :=
  match s with
  | EmptyString => true
  | String c s' => is_field_char c && field_text s'
  end.

(** A newline-terminated label: one annotation line and its terminator. *)
Definition is_terminated_label (s : string) : Prop :=
  exists line, s = line +:+ String fmt.newline EmptyString
               /\ fmt.is_annotation line = true
               /\ fmt.count_char fmt.newline line = O.

(** A label holding one annotation line and no terminator. *)
Definition is_unterminated_label (s : string) : Prop :=
  fmt.is_annotation s = true /\ fmt.count_char fmt.newline s = O.

(** A ring target the constraint solver may sample on a [W] x [H] canvas:
    outer radius and center. *)
Definition sampled_target (W H r cx cy : Z) : Prop :=
  1 <= r <= Z.min W H / 2 /\ r <= cx <= W - r /\ r <= cy <= H - r.

(** What the ring generator may hand to the sink: a raster, or the label
    line of a record with positive normalized width and height, computed
    from the outer box of a sampled target. *)
Definition ring_record_ok (f : generate_dataset.file) : Prop :=
  match f with
  | generate_dataset.ImageFile _ => True
  | generate_dataset.TextFile s =>
      exists r cx cy c x y w h,
        sampled_target generate_dataset.IMG_WIDTH generate_dataset.IMG_HEIGHT
          r cx cy
        /\ generate_dataset.calculate_visible_bbox cx cy r
             generate_dataset.IMG_WIDTH generate_dataset.IMG_HEIGHT
           = (cx - r, cy - r, cx + r, cy + r)
        /\ generate_dataset.to_yolo_format (cx - r, cy - r, cx + r, cy + r)
             generate_dataset.IMG_WIDTH generate_dataset.IMG_HEIGHT
           = Ok (c, x, y, w, h)
        /\ s = generate_dataset.label_line (c, x, y, w, h)
        /\ (0 < w)%Q /\ (0 < h)%Q
  end.

(** The same for the polygon generator. *)
Definition polygon_record_ok (f : generate_yolo_dataset.file) : Prop :=
  match f with
  | generate_yolo_dataset.ImageFile _ => True
  | generate_yolo_dataset.TextFile s =>
      exists t class_id x y w h,
        generate_yolo_dataset.yolo_fields (generate_yolo_dataset.to_bbox t)
          generate_yolo_dataset.IMAGE_WIDTH generate_yolo_dataset.IMAGE_HEIGHT
          generate_yolo_dataset.BBOX_PADDING_PERCENTAGE = Ok (x, y, w, h)
        /\ s = generate_yolo_dataset.annotation_str class_id (x, y, w, h)
        /\ (0 < w)%Q /\ (0 < h)%Q
  end.

(** The label texts among the files of a sink. *)
Definition ring_labels (out : list (string * generate_dataset.file))
  : list string :=
  omap (fun e => match snd e with
                 | generate_dataset.TextFile s => Some s
                 | _ => None
                 end) out.

Definition polygon_labels (out : list (string * generate_yolo_dataset.file))
  : list string :=
  omap (fun e => match snd e with
                 | generate_yolo_dataset.TextFile s => Some s
                 | _ => None
                 end) out.

(** The random source after [k] more draws. *)
Definition advance (k : nat) (s : rng) : rng := mk_rng (stream s) (k + pos s).

(** The candidate triangle drawn at [s] is rejected: its area does not
    exceed [min_area]. *)
Definition rejected (s : rng) : Prop :=
  exists q1 q2 q3 s',
    generate_yolo_dataset.sample_candidate s = Ok ((q1, q2, q3), s')
    /\ (generate_yolo_dataset.get_triangle_area q1 q2 q3
        <= generate_yolo_dataset.min_area)%Q.

(** The candidate triangle drawn at [s] is accepted with these vertices. *)
Definition accepted (s : rng) (q1 q2 q3 : generate_yolo_dataset.point) : Prop :=
  exists s',
    generate_yolo_dataset.sample_candidate s = Ok ((q1, q2, q3), s')
    /\ (generate_yolo_dataset.min_area
        < generate_yolo_dataset.get_triangle_area q1 q2 q3)%Q.

(** The isosceles triangle of the fallback: apex above the middle of the
    base of a window of size [base] x [height] at [(tl_x, tl_y)], the
    window lying inside the canvas. *)
Definition isosceles_in_window (q1 q2 q3 : generate_yolo_dataset.point) : Prop :=
  exists base height tl_x tl_y,
    generate_yolo_dataset.MIN_SHAPE_SIZE <= base
    <= generate_yolo_dataset.MAX_SHAPE_SIZE
    /\ generate_yolo_dataset.MIN_SHAPE_SIZE <= height
       <= generate_yolo_dataset.MAX_SHAPE_SIZE
    /\ 0 <= tl_x <= generate_yolo_dataset.IMAGE_WIDTH - base
    /\ 0 <= tl_y <= generate_yolo_dataset.IMAGE_HEIGHT - height
    /\ q1 = (tl_x + base / 2, tl_y)
    /\ q2 = (tl_x, tl_y + height)
    /\ q3 = (tl_x + base, tl_y + height).

(** Total correctness of a computation: from [s] it returns a value and a
    state that satisfy [P]; it does not raise. *)
Definition returns {A} (m : M A) (s : rng) (P : A -> rng -> Prop) : Prop :=
  exists a s', m s = Ok (a, s') /\ P a s'.

(** A shape generator that returns for every image, color and state of
    the random source. *)
Definition generator_total
    (gen : generate_yolo_dataset.image -> generate_yolo_dataset.color
           -> M (generate_yolo_dataset.image * generate_yolo_dataset.tight))
  : Prop :=
  forall img c s (P : _ -> rng -> Prop),
    (forall r s', P r s') -> returns (gen img c) s P.

(** The invariant of the sink of the polygon generator. *)
Definition polygon_sink_ok (out : generate_yolo_dataset.sink) : Prop :=
  Forall (fun e => polygon_record_ok (snd e)) out
  /\ Forall is_unterminated_label (polygon_labels out).

(** The invariant of the sink of the ring generator. *)
Definition ring_sink_ok (out : list (string * generate_dataset.file)) : Prop :=
  Forall (fun e => ring_record_ok (snd e)) out
  /\ Forall is_terminated_label (ring_labels out).

(** The two paths a pass of [copy_files] writes for the image [x]. *)
Definition copy_targets (dest_img_dir dest_lbl_dir source_lbl_dir x : string)
  : list string :=
  [os_path.join dest_img_dir (os_path.basename x);
   os_path.join dest_lbl_dir
     (os_path.basename
        (split_dataset.get_corresponding_label_file x source_lbl_dir))].

(** The two paths a pass of [copy_files] reads for the image [img]. *)
Definition copy_sources (source_lbl_dir img : string) : list string :=
  [img; split_dataset.get_corresponding_label_file img source_lbl_dir].

(** No file written for an image of the list is a file read for an image
    of the list: the destinations are apart from the sources. *)
Definition separated (dest_img_dir dest_lbl_dir source_lbl_dir : string)
    (file_list : list string) : Prop :=
  forall x img t q,
    x ∈ file_list -> img ∈ file_list ->
    t ∈ copy_targets dest_img_dir dest_lbl_dir source_lbl_dir x ->
    q ∈ copy_sources source_lbl_dir img ->
    t <> q.

(** The image and its label are both in the store. *)
Definition copyable (files : gmap string string) (source_lbl_dir img : string)
  : bool :=
  split_dataset.path_exists files
    (split_dataset.get_corresponding_label_file img source_lbl_dir)
  && split_dataset.path_exists files img.

(** The listing [glob.glob] gives for the source image directory: paths
    [SOURCE_IMAGES_DIR/name] with a file name that has no separator. *)
Definition in_source_dir (p : string) : Prop :=
  exists name,
    p = split_dataset.SOURCE_IMAGES_DIR +:+ String os_path.sep name
    /\ os_path.after_last_sep name = None.

(** The rest of [s] after the prefix [pre], if [s] starts with it. *)
Fixpoint string_strip_prefix (pre s : string) : option string :=
  match pre, s with
  | EmptyString, _ => Some s
  | String a pre', String b s' =>
      if Ascii.eqb a b then string_strip_prefix pre' s' else None
  | String _ _, EmptyString => None
  end.

(** Decision of [in_source_dir]. *)
Definition in_source_dirb (p : string) : bool :=
  match string_strip_prefix
          (split_dataset.SOURCE_IMAGES_DIR +:+ String os_path.sep "") p with
  | Some name =>
      match os_path.after_last_sep name with
      | None => true
      | Some _ => false
      end
  | None => false
  end.

(** The first character of a path. *)
Definition head_char (p : string) : option ascii :=
  match p with
  | EmptyString => None
  | String c _ => Some c
  end.

(** The store agrees with [files0] on everything [copy_files] reads for the
    images of [file_list]. *)
Definition agree_on_sources (source_lbl_dir : string) (file_list : list string)
    (files files0 : gmap string string) : Prop :=
  forall img q,
    img ∈ file_list -> q ∈ copy_sources source_lbl_dir img ->
    files !! q = files0 !! q.

(** The number whose six-decimal expansion [fmt.fixed6 x] prints: the
    same rounded integer [m], read as [m / 10^6] with the sign of [x]. *)
Definition rounded6 (x : Q) : Q :=
  let m := fmt.round_half_even (Qabs x * 1000000)%Q in
  let v := (inject_Z m / 1000000)%Q in
  if py.ltb x 0 then (- v)%Q else v.

(** The four fields as a label file holds them. *)
Definition rounded_fields (fields : generate_yolo_dataset.bbox)
  : generate_yolo_dataset.bbox :=
  let '(x, y, w, h) := fields in
  (rounded6 x, rounded6 y, rounded6 w, rounded6 h).

(** ** Data of the examples *)

(** The seeded generator of the examples, and a listing of [n] images. *)
Definition demo_mt (seed : Z) (n : nat) : Z := seed * Z.of_nat n + 7.

Definition demo_listing (n : Z) : list string :=
  map (fun i => split_dataset.SOURCE_IMAGES_DIR +:+ "/hotspot_"
                +:+ fmt.zero_pad 5 i +:+ ".png")
    (generate_yolo_dataset.range n).

(** A store with three images, the second without its label. *)
Definition demo_store : gmap string string :=
  <[ "hotspot_dataset/images/train/hotspot_00000.png" := "image 0" ]>
  (<[ "hotspot_dataset/labels/train/hotspot_00000.txt" := "label 0" ]>
  (<[ "hotspot_dataset/images/train/hotspot_00001.png" := "image 1" ]>
  (<[ "hotspot_dataset/images/train/hotspot_00002.png" := "image 2" ]>
  (<[ "hotspot_dataset/labels/train/hotspot_00002.txt" := "label 2" ]> ∅)))).

(** The value a computation returned, if it returned. *)
Definition run_value {A} (r : result (A * rng)) : option A :=
  match r with
  | Ok (a, _) => Some a
  | Raise _ => None
  end.

(** A concrete random stream for the examples. *)
Definition demo_rng : rng := mk_rng (fun n => Z.of_nat n * 7919 + 13) 0.

(** The tight box of Scenario B. *)
Definition scenario_B : generate_yolo_dataset.bbox := (10, 10, 110, 160)%Q.

(** A vertex on the canvas of the polygon generator. *)
Definition inside_canvas (q : generate_yolo_dataset.point) : Prop :=
  0 <= fst q <= generate_yolo_dataset.IMAGE_WIDTH
  /\ 0 <= snd q <= generate_yolo_dataset.IMAGE_HEIGHT.

(** [box] is the axis-aligned envelope of [points]: it holds them all and
    each of its edges passes through one of them. *)
Definition is_envelope (box : generate_yolo_dataset.tight)
    (points : list generate_yolo_dataset.point) : Prop :=
  let '(x_lo, y_lo, x_hi, y_hi) := box in
  Forall (fun q => x_lo <= fst q <= x_hi /\ y_lo <= snd q <= y_hi) points
  /\ Exists (fun q => fst q = x_lo) points
  /\ Exists (fun q => snd q = y_lo) points
  /\ Exists (fun q => fst q = x_hi) points
  /\ Exists (fun q => snd q = y_hi) points.

(** A point moved by [d]. *)
Definition translate (d q : generate_yolo_dataset.point)
  : generate_yolo_dataset.point := (fst q + fst d, snd q + snd d).

(** Twice the signed area of the triangle [p1 p2 p3]. *)
Definition cross (p1 p2 p3 : generate_yolo_dataset.point) : Z :=
  (fst p2 - fst p1) * (snd p3 - snd p1) - (fst p3 - fst p1) * (snd p2 - snd p1).

(** The four fields of a normalized annotation describe a box inside the
    unit square, of positive size. *)
Definition in_unit_square (fields : generate_yolo_dataset.bbox) : Prop :=
  let '(x, y, w, h) := fields in
  (0 < w /\ w <= 1 /\ 0 < h /\ h <= 1
   /\ 0 <= x - w / 2 /\ x + w / 2 <= 1
   /\ 0 <= y - h / 2 /\ y + h / 2 <= 1)%Q.

(** A box inside the canvas, of positive size. *)
Definition box_on_canvas (b : generate_yolo_dataset.bbox) (W H : Z) : Prop :=
  (0 <= x_min_of b /\ x_min_of b < x_max_of b /\ x_max_of b <= inject_Z W
   /\ 0 <= y_min_of b /\ y_min_of b < y_max_of b
   /\ y_max_of b <= inject_Z H)%Q.

(** The disks drawn on a raster, oldest first: center, radius and color.
    The augmentations draw none. *)
Fixpoint circles (img : generate_dataset.image)
  : list (Z * Z * Z * generate_dataset.color) :=
  match img with
  | generate_dataset.np_full _ _ _ => []
  | generate_dataset.cv2_circle img' center radius c =>
      circles img' ++ [(center, radius, c)]
  | generate_dataset.cv2_warpPerspective img' _ _ => circles img'
  | generate_dataset.cv2_GaussianBlur img' _ => circles img'
  end.

(** The two files the ring generator writes for the sample numbered [i]. *)
Definition ring_entry (i : Z) (p : generate_dataset.image * string)
  : list (string * generate_dataset.file) :=
  [(os_path.join generate_dataset.IMAGES_SUBDIR
      ("hotspot_" +:+ fmt.zero_pad 5 i +:+ ".png"),
    generate_dataset.ImageFile (fst p));
   (os_path.join generate_dataset.LABELS_SUBDIR
      ("hotspot_" +:+ fmt.zero_pad 5 i +:+ ".txt"),
    generate_dataset.TextFile (snd p))].

(** The sink holding the samples [pairs], numbered from [first] on. *)
Definition ring_sink (first : Z) (pairs : list (generate_dataset.image * string))
  : list (string * generate_dataset.file) :=
  concat (imap (fun i p => ring_entry (first + Z.of_nat i) p) pairs).

(** A raster and a label that belong together: the raster has the size of
    the canvas and shows five concentric disks, drawn from the largest to
    the smallest, in the five colors of the palette in some order; the
    radius of the largest is between a tenth and half of the side of the
    canvas, the largest lies on the canvas, and the label is the line of
    the record of its box. *)
Definition ring_pair_ok (p : generate_dataset.image * string) : Prop :=
  exists cx cy r1 r2 r3 r4 r5 colors c x y w h,
    circles (fst p)
    = zip_with (fun r col => ((cx, cy), r, col)) [r1; r2; r3; r4; r5] colors
    /\ generate_dataset.shape (fst p)
       = (generate_dataset.IMG_HEIGHT, generate_dataset.IMG_WIDTH)
    /\ colors ≡ₚ generate_dataset.HOTSPOT_PALETTE
    /\ 0 < r5 < r4 /\ r4 < r3 < r2 /\ r2 < r1
    /\ 64 <= r1 <= 320
    /\ r1 <= cx <= generate_dataset.IMG_WIDTH - r1
    /\ r1 <= cy <= generate_dataset.IMG_HEIGHT - r1
    /\ generate_dataset.to_yolo_format (cx - r1, cy - r1, cx + r1, cy + r1)
         generate_dataset.IMG_WIDTH generate_dataset.IMG_HEIGHT
       = Ok (c, x, y, w, h)
    /\ snd p = generate_dataset.label_line (c, x, y, w, h).

(** A tight box on the canvas of the polygon generator, of positive width
    and height. *)
Definition tight_on_canvas (t : generate_yolo_dataset.tight) : Prop :=
  let '(x1, y1, x2, y2) := t in
  0 <= x1 < x2 /\ x2 <= generate_yolo_dataset.IMAGE_WIDTH
  /\ 0 <= y1 < y2 /\ y2 <= generate_yolo_dataset.IMAGE_HEIGHT.

(** [img] is [base] with one more shape on it, filled with [fill]; [box]
    is the extent of that shape: the corners given to [rectangle] and
    [ellipse], the envelope of the vertices given to [polygon]. *)
Definition drawn_on (base : generate_yolo_dataset.image)
    (fill : generate_yolo_dataset.color) (img : generate_yolo_dataset.image)
    (box : generate_yolo_dataset.tight) : Prop :=
  match img with
  | generate_yolo_dataset.Image_new _ _ _ => False
  | generate_yolo_dataset.draw_rectangle i (x1, y1) (x2, y2) c =>
      i = base /\ c = fill /\ box = (x1, y1, x2, y2)
  | generate_yolo_dataset.draw_ellipse i (x1, y1) (x2, y2) c =>
      i = base /\ c = fill /\ box = (x1, y1, x2, y2)
  | generate_yolo_dataset.draw_polygon i points c =>
      i = base /\ c = fill /\ is_envelope box points
  end.

(** The last shape drawn on [img] is one of the class [class_id]:
    0 a rectangle, 1 a square, 2 a circle, 3 a triangle. *)
Definition depicts (class_id : Z) (img : generate_yolo_dataset.image) : Prop :=
  match img with
  | generate_yolo_dataset.Image_new _ _ _ => False
  | generate_yolo_dataset.draw_rectangle _ (x1, y1) (x2, y2) _ =>
      class_id = 0 \/ (class_id = 1 /\ x2 - x1 = y2 - y1)
  | generate_yolo_dataset.draw_ellipse _ (x1, y1) (x2, y2) _ =>
      class_id = 2 /\ x2 - x1 = y2 - y1
  | generate_yolo_dataset.draw_polygon _ points _ =>
      class_id = 3 /\ length points = 3%nat
  end.

(** A shape generator for the class [class_id]: on every image, color and
    state of the random source it returns the image with one more shape of
    that class, in that color, and the extent of the shape, which lies on the
    canvas. *)
Definition generator_draws (class_id : Z)
    (gen : generate_yolo_dataset.image -> generate_yolo_dataset.color
           -> M (generate_yolo_dataset.image * generate_yolo_dataset.tight))
  : Prop :=
  forall img c s,
    returns (gen img c) s (fun r _ =>
      drawn_on img c (fst r) (snd r) /\ depicts class_id (fst r)
      /\ tight_on_canvas (snd r)).

(** An image and a label of the polygon generator that belong together:
    the image is a canvas in a background color with one shape of the class
    in a shape color, the extent of the shape lies on the canvas, and the
    label is the annotation of that extent with the class id. *)
Definition polygon_pair_ok (class_id : Z)
    (p : generate_yolo_dataset.image * string) : Prop :=
  exists bg sc box,
    bg ∈ generate_yolo_dataset.BACKGROUND_COLORS
    /\ sc ∈ generate_yolo_dataset.SHAPE_COLORS
    /\ drawn_on (generate_yolo_dataset.Image_new
                   generate_yolo_dataset.IMAGE_WIDTH
                   generate_yolo_dataset.IMAGE_HEIGHT bg) sc (fst p) box
    /\ depicts class_id (fst p)
    /\ tight_on_canvas box
    /\ generate_yolo_dataset.calculate_yolo_annotation
         (generate_yolo_dataset.to_bbox box) class_id
         generate_yolo_dataset.IMAGE_WIDTH generate_yolo_dataset.IMAGE_HEIGHT
         generate_yolo_dataset.BBOX_PADDING_PERCENTAGE
       = Ok (snd p).

(** The two files the polygon generator writes for the sample [i] of a
    shape. *)
Definition polygon_entry (images_dir labels_dir shape_name : string) (i : Z)
    (p : generate_yolo_dataset.image * string) : generate_yolo_dataset.sink :=
  [(os_path.join images_dir
      (fmt.lower shape_name +:+ "_" +:+ fmt.zero_pad 4 (i + 1) +:+ ".png"),
    generate_yolo_dataset.ImageFile (fst p));
   (os_path.join labels_dir
      (fmt.lower shape_name +:+ "_" +:+ fmt.zero_pad 4 (i + 1) +:+ ".txt"),
    generate_yolo_dataset.TextFile (snd p))].

(** The files of one shape: its samples in the order of [range(n)], in
    the two directories of the shape. *)
Definition polygon_group (n : Z) (item : string * Z)
    (g : list (generate_yolo_dataset.image * string))
  : generate_yolo_dataset.sink :=
  let '(images_dir, labels_dir) :=
    generate_yolo_dataset.create_directories_for_shape "dataset_2d_shapes"
      (fst item) in
  concat (zip_with (polygon_entry images_dir labels_dir (fst item))
            (generate_yolo_dataset.range n) g).

(** The sink of a run: the groups of the shapes in the order of
    [SHAPE_CLASSES]. *)
Definition polygon_sink (n : Z)
    (groups : list (list (generate_yolo_dataset.image * string)))
  : generate_yolo_dataset.sink :=
  concat (zip_with (polygon_group n) generate_yolo_dataset.SHAPE_CLASSES groups).

(** The copies a pass of [copy_files] makes for the image [x], each as
    source and target. *)
Definition copy_pairs (dest_img_dir dest_lbl_dir source_lbl_dir x : string)
  : list (string * string) :=
  zip (copy_sources source_lbl_dir x)
      (copy_targets dest_img_dir dest_lbl_dir source_lbl_dir x).

(** No path is the target of two different sources. *)
Definition one_source (dest_img_dir dest_lbl_dir source_lbl_dir : string)
    (file_list : list string) : Prop :=
  forall x y q q' t,
    x ∈ file_list -> y ∈ file_list ->
    (q, t) ∈ copy_pairs dest_img_dir dest_lbl_dir source_lbl_dir x ->
    (q', t) ∈ copy_pairs dest_img_dir dest_lbl_dir source_lbl_dir y ->
    q = q'.

(** The store [files] holds, at each target of the image [x], what
    [files0] holds at its source. *)
Definition copied (dest_img_dir dest_lbl_dir source_lbl_dir : string)
    (files files0 : gmap string string) (x : string) : Prop :=
  forall q t,
    (q, t) ∈ copy_pairs dest_img_dir dest_lbl_dir source_lbl_dir x ->
    files !! t = files0 !! q.

(** The path lies under the output directory of [split_dataset.py]. *)
Definition in_output_dir (p : string) : Prop :=
  is_Some (string_strip_prefix
             (split_dataset.OUTPUT_DATA_DIR +:+ String os_path.sep "") p).

(** * Properties

    ** The runtime model on examples *)

Example fixed6_ex1 : fmt.fixed6 (3 # 32) = "0.093750"%string.
Proof. reflexivity. Qed.
Example fixed6_ex2 : fmt.fixed6 (1 # 128) = "0.007812"%string.
Proof. reflexivity. Qed.
Example fixed6_ex3 : fmt.fixed6 (- (5 # 4)) = "-1.250000"%string.
Proof. reflexivity. Qed.
Example zero_pad_ex : fmt.zero_pad 5 42 = "00042"%string.
Proof. reflexivity. Qed.
Example zero_pad_ex2 : fmt.zero_pad 5 (-42) = "-0042"%string.
Proof. reflexivity. Qed.
Example zero_pad_ex3 : fmt.zero_pad 4 12345 = "12345"%string.
Proof. reflexivity. Qed.
Example splitext_ex :
  os_path.splitext "hotspot_00001.png" = ("hotspot_00001", ".png")%string.
Proof. reflexivity. Qed.
Example splitext_ex2 : os_path.splitext ".cshrc" = (".cshrc", "")%string.
Proof. reflexivity. Qed.
Example basename_ex : os_path.basename "a/b/c.png" = "c.png"%string.
Proof. reflexivity. Qed.
Example join_ex :
  os_path.join (os_path.join "hotspot_dataset" "images") "train"
  = "hotspot_dataset/images/train"%string.
Proof. reflexivity. Qed.

(** ** Comparisons, clamps and truncation *)

Section Numerics.

Open Scope Q_scope.

Lemma ltb_true (a b : Q) : py.ltb a b = true <-> a < b.
Proof.
  unfold py.ltb. destruct (Qlt_le_dec a b) as [H | H]; split; intros H';
    try reflexivity; try assumption; try discriminate.
  exfalso. apply (Qlt_not_le _ _ H'). exact H.
Qed.

Lemma ltb_false (a b : Q) : py.ltb a b = false <-> b <= a.
Proof.
  unfold py.ltb. destruct (Qlt_le_dec a b) as [H | H]; split; intros H';
    try reflexivity; try assumption; try discriminate.
  exfalso. apply (Qlt_not_le _ _ H). exact H'.
Qed.

Lemma leb_true (a b : Q) : py.leb a b = true <-> a <= b.
Proof.
  unfold py.leb. destruct (Qlt_le_dec b a) as [H | H]; split; intros H';
    try reflexivity; try assumption; try discriminate.
  exfalso. apply (Qlt_not_le _ _ H). exact H'.
Qed.

Lemma leb_false (a b : Q) : py.leb a b = false <-> b < a.
Proof.
  unfold py.leb. destruct (Qlt_le_dec b a) as [H | H]; split; intros H';
    try reflexivity; try assumption; try discriminate.
  exfalso. apply (Qlt_not_le _ _ H'). exact H.
Qed.

Lemma max_lower (a b : Q) : a <= py.max a b.
Proof. unfold py.max. destruct (Qlt_le_dec a b); lra. Qed.

Lemma min_upper (a b : Q) : py.min a b <= a.
Proof. unfold py.min. destruct (Qlt_le_dec b a); lra. Qed.

Lemma max_id (a b : Q) : a <= b -> py.max a b == b.
Proof. unfold py.max. destruct (Qlt_le_dec a b); lra. Qed.

Lemma min_id (a b : Q) : b <= a -> py.min a b == b.
Proof. unfold py.min. destruct (Qlt_le_dec b a); lra. Qed.

Lemma inject_Z_ge1 (n : Z) : (1 <= n)%Z -> 1 <= inject_Z n.
Proof. intros H. rewrite Zle_Qle in H. exact H. Qed.

Lemma inject_Z_pos (n : Z) : (0 < n)%Z -> 0 < inject_Z n.
Proof. intros H. rewrite Zlt_Qlt in H. exact H. Qed.

Lemma truediv_ok (a b : Q) : ~ b == 0 -> py.truediv a b = Ok (a / b).
Proof.
  intros Hb. unfold py.truediv.
  destruct (Qeq_bool b 0) eqn:E; [| reflexivity].
  apply Qeq_bool_iff in E. contradiction.
Qed.

Lemma truediv_inject_pos (a : Q) (n : Z) :
  (0 < n)%Z -> py.truediv a (inject_Z n) = Ok (a / inject_Z n).
Proof.
  intros H. apply truediv_ok. apply inject_Z_pos in H. lra.
Qed.

End Numerics.

(** ** The polygon annotator on Scenario B *)

Section ScenarioB.

Import generate_yolo_dataset.
Open Scope Q_scope.

(** C1, as the code computes it: for the tight box (10,10)-(110,160) on a
    640x640 canvas with padding 0.07, the pads are 7 and 10.5, the enlarged
    box is (3, -0.5, 117, 170.5), the clamp raises y_min to 0 and changes
    nothing else, no repair takes place, and the normalized annotation has
    center (0.09375, 0.133203125) and size (0.178125, 0.26640625); the
    label text is "0 0.093750 0.133203 0.178125 0.266406". *)
Theorem scenario_B_annotation :
  bbox_eq (enlarged_bbox scenario_B 0.07) (3, -0.5, 117, 170.5)
  /\ bbox_eq (clamped_bbox (enlarged_bbox scenario_B 0.07) 640 640)
       (3, 0, 117, 170.5)
  /\ bbox_eq (final_bbox scenario_B 640 640 0.07) (3, 0, 117, 170.5)
  /\ (exists fields,
        yolo_fields scenario_B 640 640 0.07 = Ok fields
        /\ bbox_eq fields (0.09375, 0.133203125, 0.178125, 0.26640625))
  /\ calculate_yolo_annotation scenario_B 0 640 640 0.07
     = Ok "0 0.093750 0.133203 0.178125 0.266406"%string.
Proof.
  split; [| split; [| split; [| split]]].
  - vm_compute. repeat split.
  - vm_compute. repeat split.
  - vm_compute. repeat split.
  - eexists. split; [vm_compute; reflexivity |]. vm_compute. repeat split.
  - vm_compute. reflexivity.
Qed.

(** The figures of Scenario B as the specification gives them do not come
    out of the code: the enlarged box is not (3, 6.5, 117, 166.5), the clamp
    does change it, and the normalized annotation is not
    (0.09375, 0.134765625, 0.178125, 0.25). *)
Lemma scenario_B_as_specified_fails :
  ~ bbox_eq (enlarged_bbox scenario_B 0.07) (3, 6.5, 117, 166.5)
  /\ ~ bbox_eq (clamped_bbox (enlarged_bbox scenario_B 0.07) 640 640)
         (enlarged_bbox scenario_B 0.07)
  /\ ~ (exists fields,
          yolo_fields scenario_B 640 640 0.07 = Ok fields
          /\ bbox_eq fields (0.09375, 0.134765625, 0.178125, 0.25)).
Proof.
  split; [| split].
  - intros H. vm_compute in H. destruct H as (_ & H & _). discriminate H.
  - intros H. vm_compute in H. destruct H as (_ & H & _). discriminate H.
  - intros (fields & Hf & H).
    vm_compute in Hf. injection Hf as <-.
    vm_compute in H. destruct H as (_ & H & _). discriminate H.
Qed.

End ScenarioB.

(** ** The ring generator: the box of a sampled target *)

Section RingBox.

Import generate_dataset.

(** A box inside the canvas passes the clamps unchanged. *)
Lemma visible_bbox_inside (W H r cx cy : Z) :
  0 <= cx - r -> cx + r <= W -> 0 <= cy - r -> cy + r <= H ->
  calculate_visible_bbox cx cy r W H = (cx - r, cy - r, cx + r, cy + r).
Proof.
  intros B1 B2 B3 B4. unfold calculate_visible_bbox.
  rewrite (Z.max_r 0 (cx - r)) by exact B1.
  rewrite (Z.max_r 0 (cy - r)) by exact B3.
  rewrite (Z.min_r W (cx + r)) by exact B2.
  rewrite (Z.min_r H (cy + r)) by exact B4.
  reflexivity.
Qed.

(** C2: for an outer radius r with 1 <= r <= floor(min(W,H)/2) and a center
    with cx in [r, W-r] and cy in [r, H-r], the box (cx-r, cy-r, cx+r, cy+r)
    lies within [0,W] x [0,H], and calculate_visible_bbox returns exactly
    that box: its clamps are the identity. *)
Theorem visible_bbox_is_outer_box (W H r cx cy : Z) :
  1 <= r <= Z.min W H / 2 ->
  r <= cx <= W - r ->
  r <= cy <= H - r ->
  (0 <= cx - r /\ cx + r <= W /\ 0 <= cy - r /\ cy + r <= H)
  /\ calculate_visible_bbox cx cy r W H = (cx - r, cy - r, cx + r, cy + r).
Proof.
  intros Hr Hcx Hcy.
  assert (B : 0 <= cx - r /\ cx + r <= W /\ 0 <= cy - r /\ cy + r <= H) by lia.
  split; [exact B |].
  destruct B as (B1 & B2 & B3 & B4).
  apply visible_bbox_inside; assumption.
Qed.

(** Scenario A: radius 200 at the center of the 640x640 canvas. *)
Lemma visible_bbox_is_outer_box_witness :
  (0 <= 320 - 200 /\ 320 + 200 <= 640 /\ 0 <= 320 - 200 /\ 320 + 200 <= 640)
  /\ calculate_visible_bbox 320 320 200 640 640
     = (320 - 200, 320 - 200, 320 + 200, 320 + 200).
Proof.
  apply (visible_bbox_is_outer_box 640 640 200 320 320);
    [vm_compute | lia | lia]; split; discriminate.
Defined.

(** C10: with max_kernel_size < 1, apply_blur returns the image it was
    given and leaves the random source where it was. *)
Theorem apply_blur_below_one (img : image) (max_kernel_size : Z) (s : rng) :
  max_kernel_size < 1 ->
  apply_blur img max_kernel_size s = Ok (img, s).
Proof.
  intros H. unfold apply_blur.
  destruct (Z.ltb_spec max_kernel_size 1) as [_ | Hge]; [reflexivity | lia].
Qed.

(** With a maximal kernel size of 0. *)
Lemma apply_blur_below_one_witness :
  apply_blur (np_full 640 640 (1, 2, 3)) 0 demo_rng
  = Ok (np_full 640 640 (1, 2, 3), demo_rng).
Proof. apply apply_blur_below_one. lia. Defined.

(** From 1 on, the blur draws once from the random source. *)
Lemma apply_blur_from_one (img : image) (max_kernel_size : Z) (s : rng) :
  1 <= max_kernel_size ->
  exists k, apply_blur img max_kernel_size s
            = Ok (cv2_GaussianBlur img k, mk_rng (stream s) (S (pos s)))
            /\ 1 <= k <= max_kernel_size /\ Z.odd k = true.
Proof.
  intros H. unfold apply_blur, random.randrange.
  destruct (Z.ltb_spec max_kernel_size 1) as [Hlt | _]; [lia |].
  replace (max_kernel_size + 1 - 1 + 2 - 1) with (max_kernel_size + 1) by lia.
  set (n := (max_kernel_size + 1) / 2).
  assert (Hn : 0 < n) by (subst n; apply Z.div_str_pos; lia).
  assert (Hn2 : 2 * n <= max_kernel_size + 1)
    by (subst n; apply Z.mul_div_le; lia).
  destruct (Z.leb_spec n 0) as [Hle | _]; [lia |].
  exists (1 + 2 * (stream s (pos s) mod n)).
  split; [reflexivity |].
  pose proof (Z.mod_pos_bound (stream s (pos s)) n Hn) as Hm.
  split; [lia |].
  rewrite Z.odd_add_mul_2. reflexivity.
Qed.

End RingBox.

(** ** The polygon annotator: clamp, repair, normalization *)

Section Annotator.

Import generate_yolo_dataset.
Open Scope Q_scope.

Lemma clamped_edges (e : bbox) (W H : Z) :
  x_min_of (clamped_bbox e W H) = py.max 0 (x_min_of e)
  /\ y_min_of (clamped_bbox e W H) = py.max 0 (y_min_of e)
  /\ x_max_of (clamped_bbox e W H) = py.min (inject_Z W) (x_max_of e)
  /\ y_max_of (clamped_bbox e W H) = py.min (inject_Z H) (y_max_of e).
Proof. destruct e as [[[a b] c] d]. repeat split. Qed.

Lemma final_edges (tb : bbox) (W H : Z) (pad : Q) :
  let c := clamped_bbox (enlarged_bbox tb pad) W H in
  let f := final_bbox tb W H pad in
  x_min_of f = fst (repair_span (x_min_of c) (x_max_of c) W)
  /\ x_max_of f = snd (repair_span (x_min_of c) (x_max_of c) W)
  /\ y_min_of f = fst (repair_span (y_min_of c) (y_max_of c) H)
  /\ y_max_of f = snd (repair_span (y_min_of c) (y_max_of c) H).
Proof.
  unfold final_bbox. cbv zeta.
  destruct (clamped_bbox (enlarged_bbox tb pad) W H) as [[[a b] c] d].
  unfold x_min_of, y_min_of, x_max_of, y_max_of. cbn [fst snd].
  destruct (repair_span a c W) as [a' c'].
  destruct (repair_span b d H) as [b' d'].
  repeat split.
Qed.

(** A span that is not empty is left alone. *)
Lemma repair_span_keeps (lo hi : Q) (limit : Z) :
  lo < hi -> repair_span lo hi limit = (lo, hi).
Proof.
  intros H. unfold repair_span.
  destruct (py.leb hi lo) eqn:E; [| reflexivity].
  apply leb_true in E. lra.
Qed.

(** An empty span starting at or after 0 is repaired into a non-empty one
    inside the canvas. *)
Lemma repair_span_bounds (lo hi : Q) (limit : Z) :
  (1 <= limit)%Z -> 0 <= lo -> hi <= lo ->
  0 <= fst (repair_span lo hi limit)
  /\ fst (repair_span lo hi limit) < snd (repair_span lo hi limit)
  /\ snd (repair_span lo hi limit) <= inject_Z limit.
Proof.
  intros HW Hlo Hdeg.
  pose proof (inject_Z_ge1 limit HW) as HWq.
  unfold repair_span, py.leb, py.ltb.
  repeat (destruct (Qlt_le_dec _ _); simpl); lra.
Qed.

(** After the repair, a span is never empty, whatever it was before. *)
Lemma repair_span_positive (lo hi : Q) (limit : Z) :
  (1 <= limit)%Z -> 0 <= lo ->
  fst (repair_span lo hi limit) < snd (repair_span lo hi limit).
Proof.
  intros HW Hlo.
  destruct (Qlt_le_dec lo hi) as [Hlt | Hge].
  - rewrite repair_span_keeps by exact Hlt. exact Hlt.
  - apply repair_span_bounds; assumption.
Qed.

(** No integer lies strictly between [limit - 1] and [limit]. *)
Lemma no_integer_between (x limit : Z) :
  inject_Z x <= inject_Z limit - 1 \/ inject_Z limit <= inject_Z x.
Proof.
  destruct (Z_le_gt_dec x (limit - 1)) as [Hle | Hgt].
  - left. assert (Hle' : (x + 1 <= limit)%Z) by lia.
    rewrite Zle_Qle, inject_Z_plus in Hle'.
    change (inject_Z 1) with 1 in Hle'. lra.
  - right. assert (Hle : (limit <= x)%Z) by lia.
    rewrite Zle_Qle in Hle. exact Hle.
Qed.

(** For a tight box with integer, ordered corners and a padding that is
    not negative, the repaired span is exactly one pixel. *)
Lemma repair_span_unit (x1 x2 : Z) (pad : Q) (limit : Z) :
  (1 <= limit)%Z -> (x1 <= x2)%Z -> 0 <= pad ->
  let d := inject_Z x2 - inject_Z x1 in
  let lo := py.max 0 (inject_Z x1 - d * pad) in
  let hi := py.min (inject_Z limit) (inject_Z x2 + d * pad) in
  hi <= lo ->
  snd (repair_span lo hi limit) - fst (repair_span lo hi limit) == 1.
Proof.
  intros HW Hx Hpad d lo hi.
  pose proof (inject_Z_ge1 limit HW) as HWq.
  assert (Hd : 0 <= d) by (subst d; rewrite Zle_Qle in Hx; lra).
  assert (HP : 0 <= d * pad) by (apply Qmult_le_0_compat; assumption).
  pose proof (no_integer_between x1 limit) as Hint.
  subst lo hi. revert HP. generalize (d * pad). intros P HP.
  subst d.
  unfold repair_span, py.max, py.min, py.leb, py.ltb.
  repeat (destruct (Qlt_le_dec _ _); simpl); intros Hdeg;
    destruct Hint; lra.
Qed.

Lemma clamped_min_nonneg (e : bbox) (W H : Z) :
  0 <= x_min_of (clamped_bbox e W H) /\ 0 <= y_min_of (clamped_bbox e W H).
Proof.
  destruct (clamped_edges e W H) as (-> & -> & _ & _).
  split; apply max_lower.
Qed.

(** C3: on a canvas with W >= 1 and H >= 1, for every tight box and
    padding, when the clamped box has x_max <= x_min the repaired box has
    0 <= x_min < x_max <= W, and likewise for y with H; and for a tight box
    with integer, ordered corners and a non-negative padding the repaired
    span is exactly one pixel. *)
Theorem degeneracy_repair (tb : bbox) (pad : Q) (W H : Z) :
  (1 <= W)%Z -> (1 <= H)%Z ->
  let c := clamped_bbox (enlarged_bbox tb pad) W H in
  let f := final_bbox tb W H pad in
  (x_max_of c <= x_min_of c ->
   0 <= x_min_of f /\ x_min_of f < x_max_of f /\ x_max_of f <= inject_Z W)
  /\ (y_max_of c <= y_min_of c ->
      0 <= y_min_of f /\ y_min_of f < y_max_of f /\ y_max_of f <= inject_Z H)
  /\ (forall t, tb = to_bbox t -> well_formed t -> 0 <= pad ->
        (x_max_of c <= x_min_of c -> x_max_of f - x_min_of f == 1)
        /\ (y_max_of c <= y_min_of c -> y_max_of f - y_min_of f == 1)).
Proof.
  intros HW HH c f.
  destruct (final_edges tb W H pad) as (Fx1 & Fx2 & Fy1 & Fy2).
  fold c in Fx1, Fx2, Fy1, Fy2. fold f in Fx1, Fx2, Fy1, Fy2.
  destruct (clamped_min_nonneg (enlarged_bbox tb pad) W H) as [Nx Ny].
  fold c in Nx, Ny.
  split; [| split].
  - intros Hdeg. rewrite Fx1, Fx2. apply repair_span_bounds; assumption.
  - intros Hdeg. rewrite Fy1, Fy2. apply repair_span_bounds; assumption.
  - intros [[[x1 y1] x2] y2] -> [Hx Hy] Hpad.
    rewrite Fx1, Fx2, Fy1, Fy2.
    destruct (clamped_edges (enlarged_bbox (to_bbox (x1, y1, x2, y2)) pad) W H)
      as (Cx1 & Cy1 & Cx2 & Cy2).
    fold c in Cx1, Cy1, Cx2, Cy2.
    rewrite Cx1, Cx2, Cy1, Cy2.
    unfold enlarged_bbox, to_bbox, x_min_of, y_min_of, x_max_of, y_max_of.
    cbn [fst snd].
    split; intros Hdeg.
    + apply (repair_span_unit x1 x2 pad W HW Hx Hpad Hdeg).
    + apply (repair_span_unit y1 y2 pad H HH Hy Hpad Hdeg).
Qed.

(** A box of no extent to the right of the canvas: both spans are repaired. *)
Lemma degeneracy_repair_witness :
  let f := final_bbox (to_bbox (650, 5, 650, 5)%Z) 640 640 0.07 in
  (0 <= x_min_of f /\ x_min_of f < x_max_of f /\ x_max_of f <= 640)
  /\ (0 <= y_min_of f /\ y_min_of f < y_max_of f /\ y_max_of f <= 640)
  /\ x_max_of f - x_min_of f == 1 /\ y_max_of f - y_min_of f == 1.
Proof.
  intros f.
  destruct (degeneracy_repair (to_bbox (650, 5, 650, 5)%Z) 0.07 640 640)
    as (Hx & Hy & Hs); [lia | lia |].
  destruct (Hs (650, 5, 650, 5)%Z) as [Sx Sy];
    [reflexivity | split; lia | vm_compute; discriminate |].
  split; [apply Hx; vm_compute; discriminate |].
  split; [apply Hy; vm_compute; discriminate |].
  split; [apply Sx | apply Sy]; vm_compute; discriminate.
Defined.

(** An inverted tight box can leave a repaired span shorter than a pixel:
    the strict order of the edges is what the repair gives in general. *)
Example repair_of_inverted_box :
  bbox_eq (final_bbox (639, 5, 629, 5) 640 640 0.07) (639.7, 5, 640, 6).
Proof. vm_compute. repeat split. Qed.

(** The normalized fields of the polygon annotator denormalize to the box
    they were computed from. *)
Lemma normalized_round_trip (final : bbox) (W H : Z) :
  (0 < W)%Z -> (0 < H)%Z ->
  exists fields,
    normalized final W H = Ok fields
    /\ bbox_eq (denormalize fields W H) final.
Proof.
  intros HW HH. destruct final as [[[a b] c] d].
  unfold normalized.
  rewrite !(truediv_inject_pos _ W HW), !(truediv_inject_pos _ H HH).
  eexists. split; [reflexivity |].
  apply inject_Z_pos in HW, HH.
  cbn [denormalize bbox_eq].
  repeat split; field; lra.
Qed.


(** On a canvas of at least one pixel each way the polygon annotator
    succeeds, and its normalized width and height are positive. *)
Lemma yolo_fields_positive (tb : bbox) (W H : Z) (pad : Q) :
  (1 <= W)%Z -> (1 <= H)%Z ->
  exists x y w h,
    yolo_fields tb W H pad = Ok (x, y, w, h) /\ 0 < w /\ 0 < h.
Proof.
  intros HW HH.
  destruct (final_edges tb W H pad) as (Fx1 & Fx2 & Fy1 & Fy2).
  destruct (clamped_min_nonneg (enlarged_bbox tb pad) W H) as [Nx Ny].
  set (cl := clamped_bbox (enlarged_bbox tb pad) W H) in *.
  pose proof (repair_span_positive _ (x_max_of cl) W HW Nx) as Px.
  pose proof (repair_span_positive _ (y_max_of cl) H HH Ny) as Py.
  rewrite <- Fx1, <- Fx2 in Px. rewrite <- Fy1, <- Fy2 in Py.
  unfold yolo_fields.
  destruct (final_bbox tb W H pad) as [[[a b] c] d].
  unfold x_min_of, x_max_of, y_min_of, y_max_of in Px, Py. cbn [fst snd] in Px, Py.
  unfold normalized.
  assert (HW0 : (0 < W)%Z) by lia. assert (HH0 : (0 < H)%Z) by lia.
  rewrite !(truediv_inject_pos _ W HW0), !(truediv_inject_pos _ H HH0).
  do 4 eexists. split; [reflexivity |].
  apply inject_Z_pos in HW0, HH0.
  split; apply Qlt_shift_div_l; try assumption; lra.
Qed.

End Annotator.

(** ** The random source *)

Section RandomSource.

Lemma bind_Ok {A B} (m : M A) (f : A -> M B) (s s' : rng) (a : A) :
  m s = Ok (a, s') -> (m ≫= f) s = f a s'.
Proof. intros E. unfold mbind, M_bind. rewrite E. reflexivity. Qed.

Lemma advance_advance (j k : nat) (s : rng) :
  advance j (advance k s) = advance (j + k) s.
Proof. unfold advance. cbn. f_equal. lia. Qed.

Lemma advance_0 (s : rng) : advance 0 s = s.
Proof. destruct s. reflexivity. Qed.

Lemma randbelow_Ok (n : Z) (s : rng) :
  random.randbelow n s = Ok (stream s (pos s) mod n, advance 1 s).
Proof. reflexivity. Qed.

Lemma randint_Ok (a b : Z) (s : rng) :
  a <= b ->
  exists v, random.randint a b s = Ok (v, advance 1 s) /\ a <= v <= b.
Proof.
  intros H. unfold random.randint.
  destruct (Z.ltb_spec b a) as [Hlt | _]; [lia |].
  exists (a + stream s (pos s) mod (b - a + 1)).
  split; [reflexivity |].
  pose proof (Z.mod_pos_bound (stream s (pos s)) (b - a + 1)). lia.
Qed.

End RandomSource.

(** Runs one [randint] of a chain: names the value and its range. *)
Ltac step_randint v Hv :=
  match goal with
  | |- context [(random.randint ?a ?b ≫= ?f) ?s] =>
      let E := fresh "E" in
      destruct (randint_Ok a b s) as (v & E & Hv);
      [ try (unfold generate_yolo_dataset.MIN_SHAPE_SIZE,
             generate_yolo_dataset.MAX_SHAPE_SIZE,
             generate_yolo_dataset.IMAGE_WIDTH,
             generate_yolo_dataset.IMAGE_HEIGHT in *; lia)
      | rewrite (bind_Ok _ f s _ v E); clear E ]
  end.

(** ** The triangle generator: bounded retries, then the fallback *)

Section Triangle.
Import generate_yolo_dataset.

Lemma random_vertex_Ok (ox oy w h : Z) (s : rng) :
  0 <= w -> 0 <= h ->
  exists q, random_vertex ox oy w h s = Ok (q, advance 2 s).
Proof.
  intros Hw Hh. unfold random_vertex.
  step_randint x Hx. step_randint y Hy.
  exists (x, y). cbn. rewrite advance_advance. reflexivity.
Qed.

Lemma sample_candidate_Ok (s : rng) :
  exists q1 q2 q3, sample_candidate s = Ok ((q1, q2, q3), advance 10 s).
Proof.
  unfold sample_candidate.
  step_randint w Hw. step_randint h Hh. step_randint ox Hox. step_randint oy Hoy.
  unfold MIN_SHAPE_SIZE in *.
  rewrite !advance_advance. cbn [Nat.add].
  destruct (random_vertex_Ok ox oy w h (advance 4 s)) as (q1 & E1);
    [lia | lia |].
  rewrite (bind_Ok _ _ _ _ _ E1), advance_advance. cbn [Nat.add].
  destruct (random_vertex_Ok ox oy w h (advance 6 s)) as (q2 & E2);
    [lia | lia |].
  rewrite (bind_Ok _ _ _ _ _ E2), advance_advance. cbn [Nat.add].
  destruct (random_vertex_Ok ox oy w h (advance 8 s)) as (q3 & E3);
    [lia | lia |].
  rewrite (bind_Ok _ _ _ _ _ E3), advance_advance. cbn [Nat.add].
  exists q1, q2, q3. reflexivity.
Qed.

Lemma fallback_triangle_Ok (s : rng) :
  exists q1 q2 q3,
    fallback_triangle s = Ok ([q1; q2; q3], advance 4 s)
    /\ isosceles_in_window q1 q2 q3.
Proof.
  unfold fallback_triangle.
  step_randint base Hb. step_randint height Hh.
  step_randint tl_x Hx. step_randint tl_y Hy.
  do 3 eexists. split.
  - cbn. rewrite !advance_advance. reflexivity.
  - exists base, height, tl_x, tl_y. repeat split; lia.
Qed.

Lemma rejected_shift_acc (i : nat) (s : rng) q1 q2 q3 :
  accepted (advance (10 * i) (advance 10 s)) q1 q2 q3 ->
  accepted (advance (10 * S i) s) q1 q2 q3.
Proof.
  rewrite advance_advance.
  replace (10 * i + 10)%nat with (10 * S i)%nat by lia. exact id.
Qed.

Lemma rejected_shift (i : nat) (s : rng) :
  rejected (advance (10 * i) (advance 10 s)) -> rejected (advance (10 * S i) s).
Proof.
  rewrite advance_advance.
  replace (10 * i + 10)%nat with (10 * S i)%nat by lia. exact id.
Qed.

Lemma triangle_attempts_spec (fuel : nat) :
  forall (attempts : Z) (s : rng),
    0 <= attempts <= 50 ->
    (Z.to_nat (50 - attempts) <= fuel)%nat ->
    (exists n q1 q2 q3,
        Z.of_nat n < 50 - attempts
        /\ triangle_attempts fuel attempts s
           = Ok ([q1; q2; q3], advance (10 * S n) s)
        /\ accepted (advance (10 * n) s) q1 q2 q3
        /\ forall i, (i < n)%nat -> rejected (advance (10 * i) s))
    \/ (triangle_attempts fuel attempts s
        = Ok ([], advance (10 * Z.to_nat (50 - attempts)) s)
        /\ forall i, (i < Z.to_nat (50 - attempts))%nat ->
                     rejected (advance (10 * i) s)).
Proof.
  induction fuel as [| fuel IH]; intros attempts s Ha Hfuel.
  - right. assert (attempts = 50) by lia. subst attempts.
    split; [cbn; rewrite advance_0; reflexivity | intros i Hi; lia].
  - cbn [triangle_attempts].
    destruct (Z.ltb_spec attempts 50) as [Hlt | Hge].
    + destruct (sample_candidate_Ok s) as (q1 & q2 & q3 & E).
      rewrite (bind_Ok _ _ _ _ _ E).
      destruct (py.ltb min_area (get_triangle_area q1 q2 q3)) eqn:Harea.
      * left. exists O, q1, q2, q3.
        split; [lia |]. split; [reflexivity |].
        split; [| intros i Hi; lia].
        exists (advance 10 s). cbn [Nat.mul]. rewrite advance_0.
        split; [exact E | apply ltb_true; exact Harea].
      * assert (Hrej : rejected (advance (10 * 0) s)).
        { cbn [Nat.mul]. rewrite advance_0.
          exists q1, q2, q3, (advance 10 s).
          split; [exact E | apply ltb_false; exact Harea]. }
        destruct (IH (attempts + 1) (advance 10 s)) as
          [(n & r1 & r2 & r3 & Hn & Hrun & Hacc & Hprev) | (Hrun & Hprev)];
          [lia | lia | |].
        -- left. exists (S n), r1, r2, r3.
           split; [lia |].
           split.
           { rewrite Hrun, advance_advance.
             replace (10 * S n + 10)%nat with (10 * S (S n))%nat by lia.
             reflexivity. }
           split; [apply rejected_shift_acc; exact Hacc |].
           intros [| i] Hi; [exact Hrej | apply rejected_shift, Hprev; lia].
        -- right.
           split.
           { rewrite Hrun, advance_advance.
             replace (10 * Z.to_nat (50 - (attempts + 1)) + 10)%nat
               with (10 * Z.to_nat (50 - attempts))%nat by lia.
             reflexivity. }
           intros [| i] Hi; [exact Hrej | apply rejected_shift, Hprev; lia].
    + right. assert (attempts = 50) by lia. subst attempts.
      split; [cbn; rewrite advance_0; reflexivity | intros i Hi; lia].
Qed.

Lemma min_area_value : (min_area == 250)%Q.
Proof. reflexivity. Qed.

(** The run of [generate_triangle], in full. *)
Lemma generate_triangle_run (fuel : nat) (draw : image) (c : color)
    (s : rng) :
  (50 <= fuel)%nat ->
  exists q1 q2 q3 box k,
    generate_triangle fuel draw c s
    = Ok ((draw_polygon draw [q1; q2; q3] c, box), advance k s)
    /\ envelope [q1; q2; q3] = Ok box
    /\ (min_area == 250)%Q
    /\ ((exists n, (n < 50)%nat /\ k = (10 * S n)%nat
                   /\ accepted (advance (10 * n) s) q1 q2 q3
                   /\ forall i, (i < n)%nat -> rejected (advance (10 * i) s))
        \/ (k = 504%nat
            /\ (forall i, (i < 50)%nat -> rejected (advance (10 * i) s))
            /\ fallback_triangle (advance 500 s) = Ok ([q1; q2; q3], advance 504 s)
            /\ isosceles_in_window q1 q2 q3)).
Proof.
  intros Hfuel.
  unfold generate_triangle, triangle_points.
  destruct (triangle_attempts_spec fuel 0 s) as
    [(n & q1 & q2 & q3 & Hn & Hrun & Hacc & Hprev) | (Hrun & Hprev)];
    [lia | lia | |].
  - exists q1, q2, q3.
    destruct (envelope [q1; q2; q3]) as [box |] eqn:Henv; [| discriminate Henv].
    exists box, (10 * S n)%nat.
    split.
    { unfold mbind, M_bind. rewrite Hrun. cbv beta iota.
      unfold mret, M_ret, lift. rewrite Henv. reflexivity. }
    split; [reflexivity |]. split; [apply min_area_value |].
    left. exists n. split; [lia |]. split; [reflexivity |].
    split; assumption.
  - change (Z.to_nat (50 - 0)) with 50%nat in Hrun, Hprev.
    change (10 * 50)%nat with 500%nat in Hrun.
    destruct (fallback_triangle_Ok (advance 500 s)) as (q1 & q2 & q3 & Hfb & Hiso).
    rewrite advance_advance in Hfb. change (4 + 500)%nat with 504%nat in Hfb.
    exists q1, q2, q3.
    destruct (envelope [q1; q2; q3]) as [box |] eqn:Henv; [| discriminate Henv].
    exists box, 504%nat.
    split.
    { unfold mbind, M_bind. rewrite Hrun. cbv beta iota. rewrite Hfb.
      unfold lift. rewrite Henv. reflexivity. }
    split; [reflexivity |]. split; [apply min_area_value |].
    right. repeat split; assumption.
Qed.

(** C9: with fuel for the 50 passes of its loop, generate_triangle returns
    for every state of the random source, having drawn a polygon of three
    vertices and computed their envelope. Either one of at most 50
    candidates was accepted, its area exceeding MIN_SHAPE_SIZE^2 / 10 = 250
    and all earlier candidates having been rejected (10 draws a candidate),
    or all 50 candidates were rejected and the vertices are the isosceles
    triangle of a window sampled afterwards (4 more draws). *)
Theorem generate_triangle_terminates (fuel : nat) (draw : image) (c : color)
    (s : rng) :
  (50 <= fuel)%nat ->
  exists q1 q2 q3 box k,
    generate_triangle fuel draw c s
    = Ok ((draw_polygon draw [q1; q2; q3] c, box), advance k s)
    /\ envelope [q1; q2; q3] = Ok box
    /\ (min_area == 250)%Q
    /\ ((exists n, (n < 50)%nat /\ k = (10 * S n)%nat
                   /\ accepted (advance (10 * n) s) q1 q2 q3
                   /\ forall i, (i < n)%nat -> rejected (advance (10 * i) s))
        \/ (k = 504%nat
            /\ (forall i, (i < 50)%nat -> rejected (advance (10 * i) s))
            /\ fallback_triangle (advance 500 s) = Ok ([q1; q2; q3], advance 504 s)
            /\ isosceles_in_window q1 q2 q3)).
Proof. apply generate_triangle_run. Qed.

(** On the example stream. *)
Lemma generate_triangle_terminates_witness :
  exists q1 q2 q3 box k,
    generate_triangle 50 (Image_new 640 640 (200, 200, 200)) (255, 0, 0) demo_rng
    = Ok ((draw_polygon (Image_new 640 640 (200, 200, 200)) [q1; q2; q3]
             (255, 0, 0), box), advance k demo_rng)
    /\ envelope [q1; q2; q3] = Ok box
    /\ (min_area == 250)%Q
    /\ ((exists n, (n < 50)%nat /\ k = (10 * S n)%nat
                   /\ accepted (advance (10 * n) demo_rng) q1 q2 q3
                   /\ forall i, (i < n)%nat ->
                                rejected (advance (10 * i) demo_rng))
        \/ (k = 504%nat
            /\ (forall i, (i < 50)%nat -> rejected (advance (10 * i) demo_rng))
            /\ fallback_triangle (advance 500 demo_rng)
               = Ok ([q1; q2; q3], advance 504 demo_rng)
            /\ isosceles_in_window q1 q2 q3)).
Proof.
  apply (generate_triangle_terminates 50 (Image_new 640 640 (200, 200, 200))
           (255, 0, 0) demo_rng).
  lia.
Defined.

(** A run that exhausts the budget: on the constant stream every candidate
    is a single point; after 50 rejections and 504 draws the fallback yields
    the triangle (25,0), (0,50), (50,50). *)
Example generate_triangle_fallback_run :
  generate_triangle 50 (Image_new 640 640 (200, 200, 200)) (255, 0, 0)
    (mk_rng (fun _ => 0) 0)
  = Ok ((draw_polygon (Image_new 640 640 (200, 200, 200))
           [(25, 0); (0, 50); (50, 50)] (255, 0, 0), (0, 0, 50, 50)),
        mk_rng (fun _ => 0) 504).
Proof. vm_compute. reflexivity. Qed.

(** The loop needs its 50 passes on that stream: the budget of the model
    is the bound of the source, not a shortcut. *)
Example generate_triangle_needs_50 :
  generate_triangle 49 (Image_new 640 640 (200, 200, 200)) (255, 0, 0)
    (mk_rng (fun _ => 0) 0)
  = Raise FuelExhausted.
Proof. vm_compute. reflexivity. Qed.

End Triangle.

(** ** The text of a label *)

Section Formatting.

Lemma is_digit_digit (d : Z) : fmt.is_digit (fmt.digit d) = true.
Proof.
  unfold fmt.digit.
  pose proof (Z.mod_pos_bound d 10 eq_refl) as H.
  assert (C : d mod 10 = 0 \/ d mod 10 = 1 \/ d mod 10 = 2 \/ d mod 10 = 3
              \/ d mod 10 = 4 \/ d mod 10 = 5 \/ d mod 10 = 6 \/ d mod 10 = 7
              \/ d mod 10 = 8 \/ d mod 10 = 9) by lia.
  repeat (destruct C as [-> | C]; [reflexivity |]). rewrite C. reflexivity.
Qed.

Lemma append_cons (c : ascii) (a b : string) :
  String c a +:+ b = String c (a +:+ b).
Proof. reflexivity. Qed.

Lemma append_nil (b : string) : EmptyString +:+ b = b.
Proof. reflexivity. Qed.

Lemma all_digits_uint (d : Decimal.uint) :
  fmt.all_digits (NilEmpty.string_of_uint d) = true.
Proof. induction d; cbn; auto. Qed.

Lemma all_digits_dec (n : Z) : fmt.all_digits (fmt.dec n) = true.
Proof.
  unfold fmt.dec, NilZero.string_of_uint.
  destruct (N.to_uint (Z.to_N n)); try reflexivity; apply all_digits_uint.
Qed.

Lemma dec_nonempty (n : Z) : fmt.dec n <> EmptyString.
Proof.
  unfold fmt.dec, NilZero.string_of_uint.
  destruct (N.to_uint (Z.to_N n)); discriminate.
Qed.

Lemma all_digits_frac6 (m : Z) : fmt.all_digits (fmt.frac6 m) = true.
Proof. unfold fmt.frac6. cbn. rewrite !is_digit_digit. reflexivity. Qed.

Lemma length_frac6 (m : Z) : String.length (fmt.frac6 m) = 6%nat.
Proof. reflexivity. Qed.

Lemma is_digit_not_dot (c : ascii) : fmt.is_digit c = true -> Ascii.eqb c "." = false.
Proof.
  intros H. destruct (Ascii.eqb_spec c ".") as [-> | _]; [discriminate H | reflexivity].
Qed.

Lemma split_dot_digits (ip fp : string) :
  fmt.all_digits ip = true ->
  fmt.split_dot (ip +:+ String "." fp) = Some (ip, fp).
Proof.
  induction ip as [| c ip IH]; intros H; [reflexivity |].
  cbn in H. apply andb_prop in H as [Hc Hip].
  rewrite append_cons. cbn. rewrite (is_digit_not_dot c Hc), (IH Hip). reflexivity.
Qed.

Lemma strip_sign_digit (s : string) :
  fmt.all_digits s = true -> fmt.strip_sign s = s.
Proof.
  destruct s as [| c r]; [reflexivity |]. intros D.
  cbn in D. apply andb_prop in D as [Dc _].
  destruct (Ascii.eqb_spec c "-") as [-> | Hne]; [discriminate Dc |].
  destruct c as [[] [] [] [] [] [] [] []]; try reflexivity.
  contradiction Hne. reflexivity.
Qed.

Lemma strip_sign_dec_app (n : Z) (r : string) :
  fmt.strip_sign (fmt.dec n +:+ r) = fmt.dec n +:+ r.
Proof.
  pose proof (all_digits_dec n) as D. pose proof (dec_nonempty n) as N.
  pose proof (strip_sign_digit (fmt.dec n) D) as S.
  destruct (fmt.dec n) as [| c d]; [contradiction |].
  rewrite append_cons.
  unfold fmt.strip_sign in *.
  destruct c as [[] [] [] [] [] [] [] []]; try reflexivity.
  cbn in D. discriminate D.
Qed.

Lemma is_fixed6_unsigned (n m : Z) :
  fmt.is_fixed6 (fmt.dec n +:+ String "." (fmt.frac6 m)) = true.
Proof.
  unfold fmt.is_fixed6. rewrite strip_sign_dec_app.
  rewrite split_dot_digits by apply all_digits_dec.
  rewrite all_digits_dec, all_digits_frac6.
  destruct (String.eqb_spec (fmt.dec n) EmptyString) as [E | _];
    [destruct (dec_nonempty n E) | reflexivity].
Qed.

Lemma is_fixed6_fixed6 (x : Q) : fmt.is_fixed6 (fmt.fixed6 x) = true.
Proof.
  unfold fmt.fixed6. destruct (py.ltb x 0).
  - unfold fmt.is_fixed6. change (fmt.strip_sign (String "-" ?s)) with s.
    rewrite <- (strip_sign_dec_app _ (String "." _)). apply is_fixed6_unsigned.
  - apply is_fixed6_unsigned.
Qed.

Lemma is_int_int_str (n : Z) : fmt.is_int (fmt.int_str n) = true.
Proof.
  unfold fmt.is_int, fmt.int_str.
  destruct (n <? 0).
  - change (fmt.strip_sign (String "-" ?s)) with s.
    rewrite all_digits_dec.
    destruct (String.eqb_spec (fmt.dec (- n)) EmptyString) as [E | _];
      [destruct (dec_nonempty _ E) | reflexivity].
  - rewrite strip_sign_digit by apply all_digits_dec.
    rewrite all_digits_dec.
    destruct (String.eqb_spec (fmt.dec n) EmptyString) as [E | _];
      [destruct (dec_nonempty _ E) | reflexivity].
Qed.

(** Formatted numbers consist of digits, sign and point. *)
Lemma field_text_digits (s : string) :
  fmt.all_digits s = true -> field_text s = true.
Proof.
  induction s as [| c s IH]; [reflexivity |]. cbn. intros H.
  apply andb_prop in H as [Hc Hs]. unfold is_field_char.
  rewrite Hc, (IH Hs). reflexivity.
Qed.

Lemma field_text_app (a b : string) :
  field_text (a +:+ b) = field_text a && field_text b.
Proof.
  induction a as [| c a IH]; [reflexivity |].
  rewrite append_cons. cbn. rewrite IH. apply andb_assoc.
Qed.

Lemma field_text_fixed6 (x : Q) : field_text (fmt.fixed6 x) = true.
Proof.
  assert (B : forall n m, field_text (fmt.dec n +:+ String "." (fmt.frac6 m)) = true).
  { intros n m. rewrite field_text_app.
    rewrite (field_text_digits _ (all_digits_dec n)).
    change (field_text (String "." (fmt.frac6 m))) with (field_text (fmt.frac6 m)).
    apply field_text_digits, all_digits_frac6. }
  unfold fmt.fixed6. destruct (py.ltb x 0); [| apply B].
  change (field_text (String "-" ?s)) with (field_text s). apply B.
Qed.

Lemma field_text_int_str (n : Z) : field_text (fmt.int_str n) = true.
Proof.
  unfold fmt.int_str. destruct (n <? 0).
  - change (field_text (String "-" ?s)) with (field_text s).
    apply field_text_digits, all_digits_dec.
  - apply field_text_digits, all_digits_dec.
Qed.

Lemma append_assoc (a b c : string) : (a +:+ b) +:+ c = a +:+ (b +:+ c).
Proof.
  induction a as [| x a IH]; [reflexivity |].
  rewrite !append_cons, IH. reflexivity.
Qed.

Lemma field_char_not_space (c : ascii) :
  is_field_char c = true -> Ascii.eqb c " " = false.
Proof.
  intros H. destruct (Ascii.eqb_spec c " ") as [-> | _];
    [discriminate H | reflexivity].
Qed.

Lemma field_char_not_newline (c : ascii) :
  is_field_char c = true -> Ascii.eqb fmt.newline c = false.
Proof.
  intros H. destruct (Ascii.eqb_spec fmt.newline c) as [<- | _];
    [discriminate H | reflexivity].
Qed.

Lemma split_spaces_nonempty (s : string) : fmt.split_spaces s <> [].
Proof.
  induction s as [| c s IH]; [discriminate |].
  cbn. destruct (Ascii.eqb c " "); [discriminate |].
  destruct (fmt.split_spaces s); [contradiction | discriminate].
Qed.

(** Splitting at spaces gives back the fields that were joined. *)
Lemma split_spaces_joined (a rest : string) :
  field_text a = true ->
  fmt.split_spaces (a +:+ String " " rest) = a :: fmt.split_spaces rest.
Proof.
  induction a as [| c a IH]; intros H; [reflexivity |].
  cbn in H. apply andb_prop in H as [Hc Ha].
  rewrite append_cons. cbn.
  rewrite (field_char_not_space c Hc), (IH Ha). reflexivity.
Qed.

Lemma split_spaces_single (a : string) :
  field_text a = true -> fmt.split_spaces a = [a].
Proof.
  induction a as [| c a IH]; intros H; [reflexivity |].
  cbn in H. apply andb_prop in H as [Hc Ha].
  cbn. rewrite (field_char_not_space c Hc), (IH Ha). reflexivity.
Qed.

Lemma count_char_app (c : ascii) (a b : string) :
  fmt.count_char c (a +:+ b)
  = (fmt.count_char c a + fmt.count_char c b)%nat.
Proof.
  induction a as [| x a IH]; [reflexivity |].
  rewrite append_cons. cbn [fmt.count_char]. rewrite IH. lia.
Qed.

Lemma no_newline_in_field (a : string) :
  field_text a = true -> fmt.count_char fmt.newline a = O.
Proof.
  induction a as [| c a IH]; intros H; [reflexivity |].
  cbn in H. apply andb_prop in H as [Hc Ha].
  cbn [fmt.count_char]. rewrite (field_char_not_newline c Hc), (IH Ha). reflexivity.
Qed.

(** The text of five joined fields is one annotation, without line feed. *)
Lemma annotation_str_shape (class_id : Z) (x y w h : Q) :
  fmt.is_annotation (generate_yolo_dataset.annotation_str class_id (x, y, w, h)) = true
  /\ fmt.count_char fmt.newline
       (generate_yolo_dataset.annotation_str class_id (x, y, w, h)) = O.
Proof.
  unfold generate_yolo_dataset.annotation_str.
  rewrite !(append_cons " " EmptyString), !append_nil.
  split.
  - unfold fmt.is_annotation.
    rewrite (split_spaces_joined _ _ (field_text_int_str class_id)).
    rewrite (split_spaces_joined _ _ (field_text_fixed6 x)).
    rewrite (split_spaces_joined _ _ (field_text_fixed6 y)).
    rewrite (split_spaces_joined _ _ (field_text_fixed6 w)).
    rewrite (split_spaces_single _ (field_text_fixed6 h)).
    rewrite is_int_int_str, !is_fixed6_fixed6. reflexivity.
  - repeat (rewrite count_char_app; cbn [fmt.count_char]).
    rewrite (no_newline_in_field _ (field_text_int_str class_id)).
    rewrite !(no_newline_in_field _ (field_text_fixed6 _)).
    reflexivity.
Qed.

Lemma label_line_annotation (c : Z) (x y w h : Q) :
  generate_dataset.label_line (c, x, y, w, h)
  = generate_yolo_dataset.annotation_str c (x, y, w, h)
    +:+ String fmt.newline EmptyString.
Proof.
  unfold generate_dataset.label_line, generate_yolo_dataset.annotation_str.
  rewrite !append_assoc. reflexivity.
Qed.

Lemma label_line_terminated (c : Z) (x y w h : Q) :
  is_terminated_label (generate_dataset.label_line (c, x, y, w, h)).
Proof.
  exists (generate_yolo_dataset.annotation_str c (x, y, w, h)).
  split; [apply label_line_annotation | apply annotation_str_shape].
Qed.

Lemma ends_with_newline_app (a : string) :
  ends_with_newline (a +:+ String fmt.newline EmptyString) = true.
Proof.
  induction a as [| c a IH]; [reflexivity |].
  rewrite append_cons. cbn [ends_with_newline].
  destruct (a +:+ String fmt.newline EmptyString) eqn:E; [| exact IH].
  destruct a; discriminate E.
Qed.

Lemma no_newline_not_terminated (s : string) :
  fmt.count_char fmt.newline s = O -> ends_with_newline s = false.
Proof.
  induction s as [| c s IH]; [reflexivity |].
  cbn [fmt.count_char ends_with_newline].
  destruct (Ascii.eqb_spec fmt.newline c) as [<- | Hne]; [discriminate |].
  intros H. destruct s as [| c' s'].
  - destruct (Ascii.eqb_spec c fmt.newline) as [-> | _]; [contradiction | reflexivity].
  - apply IH. exact H.
Qed.

End Formatting.

(** ** Computations that return *)

Section Returns.

Lemma returns_ret {A} (a : A) (s : rng) (P : A -> rng -> Prop) :
  P a s -> returns (mret a) s P.
Proof. intros H. exists a, s. split; [reflexivity | exact H]. Qed.

Lemma returns_bind {A B} (m : M A) (f : A -> M B) (s : rng)
    (P : B -> rng -> Prop) :
  returns m s (fun a s' => returns (f a) s' P) -> returns (m ≫= f) s P.
Proof.
  intros (a & s' & E & b & s'' & E' & H).
  exists b, s''. split; [| exact H].
  rewrite (bind_Ok _ _ _ _ _ E). exact E'.
Qed.

Lemma returns_weaken {A} (m : M A) (s : rng) (P Q : A -> rng -> Prop) :
  (forall a s', P a s' -> Q a s') -> returns m s P -> returns m s Q.
Proof. intros H (a & s' & E & HP). exists a, s'. split; [exact E | auto]. Qed.

Lemma returns_lift {A} (r : result A) (a : A) (s : rng) (P : A -> rng -> Prop) :
  r = Ok a -> P a s -> returns (lift r) s P.
Proof. intros -> H. exists a, s. split; [reflexivity | exact H]. Qed.

Lemma returns_randbelow (n : Z) (s : rng) (P : Z -> rng -> Prop) :
  0 < n ->
  (forall v, 0 <= v < n -> P v (advance 1 s)) ->
  returns (random.randbelow n) s P.
Proof.
  intros Hn H. exists (stream s (pos s) mod n), (advance 1 s).
  split; [reflexivity |]. apply H. apply Z.mod_pos_bound. exact Hn.
Qed.

Lemma returns_randint (a b : Z) (s : rng) (P : Z -> rng -> Prop) :
  a <= b ->
  (forall v, a <= v <= b -> P v (advance 1 s)) ->
  returns (random.randint a b) s P.
Proof.
  intros Hab H. destruct (randint_Ok a b s Hab) as (v & E & Hv).
  exists v, (advance 1 s). split; [exact E | apply H; exact Hv].
Qed.

Lemma returns_random (s : rng) (P : Q -> rng -> Prop) :
  (forall u, P u (advance 1 s)) -> returns random.random s P.
Proof. intros H. eexists _, _. split; [reflexivity | apply H]. Qed.

Lemma returns_uniform (a b : Q) (s : rng) (P : Q -> rng -> Prop) :
  (forall u, P u (advance 1 s)) -> returns (random.uniform a b) s P.
Proof. intros H. eexists _, _. split; [reflexivity | apply H]. Qed.

Lemma returns_choice {A} (seq : list A) (s : rng) (P : A -> rng -> Prop) :
  seq <> [] ->
  (forall x, x ∈ seq -> P x (advance 1 s)) ->
  returns (random.choice seq) s P.
Proof.
  intros Hne H. unfold random.choice.
  destruct seq as [| x0 seq']; [contradiction |].
  set (seq := x0 :: seq') in *.
  apply returns_bind, returns_randbelow; [subst seq; cbn; lia |].
  intros v Hv.
  destruct (seq !! Z.to_nat v) as [x |] eqn:E.
  - apply returns_ret, H. apply list_elem_of_lookup. eauto.
  - apply lookup_ge_None in E. lia.
Qed.

Lemma returns_sample_pool {A} (k : nat) :
  forall (n : nat) (pool : list A) (s : rng) (P : list A -> rng -> Prop),
    (k <= n)%nat -> (n <= length pool)%nat ->
    (forall l s', length l = k -> P l s') ->
    returns (random.sample_pool k n pool) s P.
Proof.
  induction k as [| k IH]; intros n pool s P Hk Hn H.
  - apply returns_ret, H. reflexivity.
  - cbn [random.sample_pool].
    apply returns_bind, returns_randbelow; [lia |].
    intros v Hv.
    destruct (pool !! Z.to_nat v) as [xj |] eqn:Ej;
      [| apply lookup_ge_None in Ej; lia].
    destruct (pool !! (n - 1)%nat) as [xl |] eqn:El;
      [| apply lookup_ge_None in El; lia].
    apply returns_bind, IH; [lia | rewrite length_insert; lia |].
    intros l s' Hl. apply returns_ret, H. cbn. rewrite Hl. reflexivity.
Qed.

Lemma returns_sample {A} (population : list A) (s : rng)
    (P : list A -> rng -> Prop) :
  (forall l s', length l = length population -> P l s') ->
  returns (random.sample population (length population)) s P.
Proof.
  intros H. unfold random.sample.
  rewrite Nat.ltb_irrefl.
  apply returns_sample_pool; [lia | lia | exact H].
Qed.

End Returns.

(** ** The ring pipeline: what reaches the sink *)

Section RingPipeline.

Import generate_dataset.

Lemma returns_generate_random_color (s : rng) (P : color -> rng -> Prop) :
  (forall c s', P c s') -> returns generate_random_color s P.
Proof.
  intros H. unfold generate_random_color.
  apply returns_bind, returns_randint; [lia |]. intros b _.
  apply returns_bind, returns_randint; [lia |]. intros g _.
  apply returns_bind, returns_randint; [lia |]. intros r _.
  apply returns_ret, H.
Qed.

Lemma draw_rings_Ok (ks : list nat) (cx cy : Z) (actual_radii : list Z)
    (colors : list color) :
  colors <> [] ->
  forall img, exists img',
    draw_rings ks img cx cy actual_radii colors = Ok img'.
Proof.
  intros Hne. induction ks as [| k ks IH]; intros img; [eexists; reflexivity |].
  cbn [draw_rings].
  destruct (actual_radii !! k) as [radius |]; [| apply IH].
  destruct colors as [| c0 colors']; [contradiction |].
  set (colors := c0 :: colors') in *.
  assert (Hlen : (0 < length colors)%nat) by (subst colors; cbn; lia).
  destruct (Nat.eqb_spec (length colors) 0) as [E | _]; [lia |].
  destruct (colors !! (k mod length colors)%nat) as [c |] eqn:E; [apply IH |].
  apply lookup_ge_None in E.
  pose proof (Nat.mod_upper_bound k (length colors)). lia.
Qed.

Lemma returns_apply_perspective_transform (img : image) (r : Q) (s : rng)
    (P : image -> rng -> Prop) :
  (forall img' s', P img' s') ->
  returns (apply_perspective_transform img r) s P.
Proof.
  intros H. unfold apply_perspective_transform.
  destruct (shape img) as [rows cols].
  do 8 (apply returns_bind, returns_uniform; intros ?).
  apply returns_ret, H.
Qed.

Lemma returns_apply_blur_5 (img : image) (s : rng) (P : image -> rng -> Prop) :
  (forall img' s', P img' s') -> returns (apply_blur img 5) s P.
Proof.
  intros H. destruct (apply_blur_from_one img 5 s) as (k & E & _); [lia |].
  eexists _, _. split; [exact E | apply H].
Qed.

Lemma to_yolo_format_Ok (bbox : Z * Z * Z * Z) :
  exists c x y w h, to_yolo_format bbox IMG_WIDTH IMG_HEIGHT = Ok (c, x, y, w, h).
Proof.
  destruct bbox as [[[a b] c] d]. do 5 eexists. reflexivity.
Qed.

(** One pass of the generation loop returns, and it adds to the sink
    either nothing or a raster and the label of a record with positive
    normalized width and height, computed from the unclamped outer box of
    the sampled target. *)
Lemma iteration_returns (st : loop_state) (s : rng) :
  returns (iteration st) s (fun st' _ =>
    st' = st
    \/ exists p1 img p2 txt,
         st' = (fst st + 1, snd st ++ [(p1, ImageFile img); (p2, TextFile txt)])
         /\ ring_record_ok (TextFile txt)
         /\ is_terminated_label txt).
Proof.
  destruct st as [generated_count sink].
  unfold iteration.
  apply returns_bind, returns_generate_random_color. intros bg s1.
  apply returns_bind, returns_randint; [vm_compute; discriminate |].
  intros r_outer Hr.
  match type of Hr with
  | ?a <= _ <= ?b => change a with 64 in Hr; change b with 320 in Hr
  end.
  apply returns_bind, returns_randint; [unfold IMG_WIDTH; lia |].
  intros cx Hcx.
  apply returns_bind, returns_randint; [unfold IMG_HEIGHT; lia |].
  intros cy Hcy.
  match goal with
  | |- context [filter ?p ?l] => generalize (filter p l)
  end.
  intros actual_radii.
  destruct (Z.of_nat (length actual_radii) <? NUM_CIRCLES);
    [apply returns_ret; left; reflexivity |].
  apply returns_bind, returns_sample. intros colors s2 Hlen.
  destruct (draw_rings_Ok (seq 0 (Z.to_nat NUM_CIRCLES)) cx cy actual_radii
              colors) with (img := np_full IMG_HEIGHT IMG_WIDTH bg)
    as (img1 & Edraw); [intros ->; discriminate Hlen |].
  apply returns_bind. eapply returns_lift; [exact Edraw |].
  apply returns_bind, returns_random. intros u1.
  apply returns_bind.
  match goal with
  | |- returns _ _ ?K => assert (HK : forall i s', K i s')
  end.
  { intros img2 s3.
    apply returns_bind, returns_random. intros u2.
    apply returns_bind.
    match goal with
    | |- returns _ _ ?K => assert (HK : forall i s', K i s')
    end.
    { intros img3 s4.
      assert (Hbox : calculate_visible_bbox cx cy r_outer IMG_WIDTH IMG_HEIGHT
                     = (cx - r_outer, cy - r_outer, cx + r_outer, cy + r_outer))
        by (apply visible_bbox_inside; unfold IMG_WIDTH, IMG_HEIGHT in *; lia).
      rewrite Hbox.
      destruct (to_yolo_format_Ok
                  (cx - r_outer, cy - r_outer, cx + r_outer, cy + r_outer))
        as (c & x & y & w & h & E).
      apply returns_bind. eapply returns_lift; [exact E |].
      cbv beta iota.
      destruct (py.leb w 0 || py.leb h 0) eqn:Hchk;
        [apply returns_ret; left; reflexivity |].
      apply orb_false_elim in Hchk as [Hw Hh].
      apply leb_false in Hw, Hh.
      apply returns_ret. right. do 4 eexists.
      split; [reflexivity |]. split.
      - exists r_outer, cx, cy, c, x, y, w, h.
        split; [| repeat split; assumption].
        unfold sampled_target.
        change (Z.min IMG_WIDTH IMG_HEIGHT / 2) with 320.
        repeat split; lia.
      - apply label_line_terminated. }
    destruct (py.ltb u2 0.4);
      [apply returns_apply_blur_5 | apply returns_ret]; apply HK. }
  destruct (py.ltb u1 0.3);
    [apply returns_apply_perspective_transform | apply returns_ret]; apply HK.
Qed.

(** The files in a sink are those the ring generator may write. *)
Lemma generation_loop_returns (num_images : Z) (n : nat) :
  forall (st : loop_state) (s : rng),
    Forall (fun e => ring_record_ok (snd e)) (snd st) ->
    Forall is_terminated_label (ring_labels (snd st)) ->
    returns (generation_loop num_images n st) s (fun st' _ =>
      Forall (fun e => ring_record_ok (snd e)) (snd st')
      /\ Forall is_terminated_label (ring_labels (snd st'))).
Proof.
  induction n as [| n IH]; intros st s Hok Hfmt.
  - apply returns_ret. split; assumption.
  - cbn [generation_loop].
    destruct (num_images <=? fst st); [apply returns_ret; split; assumption |].
    apply returns_bind.
    eapply returns_weaken; [| apply iteration_returns].
    intros st' s' [-> | (p1 & img & p2 & txt & -> & Hrec & Htxt)].
    + apply IH; assumption.
    + apply IH; cbn [snd].
      * apply Forall_app. split; [exact Hok |].
        repeat constructor. exact Hrec.
      * unfold ring_labels. rewrite omap_app. apply Forall_app.
        split; [exact Hfmt |]. cbn. repeat constructor. exact Htxt.
Qed.

End RingPipeline.

(** ** The polygon pipeline: what reaches the sink *)

Section PolygonPipeline.

Import generate_yolo_dataset.

Lemma palettes_disjoint (bg sc : color) :
  bg ∈ BACKGROUND_COLORS -> sc ∈ SHAPE_COLORS -> color_eqb sc bg = false.
Proof.
  intros Hbg Hsc.
  assert (D : forallb (fun b => forallb (fun c => negb (color_eqb c b))
                                  SHAPE_COLORS) BACKGROUND_COLORS = true)
    by (vm_compute; reflexivity).
  rewrite forallb_forall in D.
  apply list_elem_of_In in Hbg, Hsc.
  specialize (D bg Hbg). rewrite forallb_forall in D.
  specialize (D sc Hsc). apply negb_true_iff in D. exact D.
Qed.

Lemma resample_color_done (fuel : nat) (bg sc : color) (cs : list color) :
  color_eqb sc bg = false -> resample_color fuel bg sc cs = mret sc.
Proof. intros H. destruct fuel; cbn; rewrite H; reflexivity. Qed.

(** With the palettes of the script the resampling loop never runs. *)
Lemma returns_get_random_color_pair (fuel : nat) (s : rng)
    (P : color * color -> rng -> Prop) :
  (forall p s', P p s') ->
  returns (get_random_color_pair fuel BACKGROUND_COLORS SHAPE_COLORS) s P.
Proof.
  intros H. unfold get_random_color_pair.
  apply returns_bind, returns_choice; [discriminate |]. intros bg Hbg.
  apply returns_bind, returns_choice; [discriminate |]. intros sc Hsc.
  rewrite (resample_color_done fuel bg sc _ (palettes_disjoint bg sc Hbg Hsc)).
  apply returns_bind, returns_ret, returns_ret, H.
Qed.


Lemma generate_rectangle_total : generator_total generate_rectangle.
Proof.
  intros img c s P H. unfold generate_rectangle.
  apply returns_bind, returns_randint; [unfold MIN_SHAPE_SIZE, MAX_SHAPE_SIZE; lia |].
  intros width Hw.
  apply returns_bind, returns_randint; [unfold MIN_SHAPE_SIZE, MAX_SHAPE_SIZE; lia |].
  intros height Hh.
  unfold MIN_SHAPE_SIZE, MAX_SHAPE_SIZE, IMAGE_WIDTH, IMAGE_HEIGHT in *.
  apply returns_bind, returns_randint; [lia |]. intros x1 _.
  apply returns_bind, returns_randint; [lia |]. intros y1 _.
  apply returns_ret, H.
Qed.

Lemma generate_square_total : generator_total generate_square.
Proof.
  intros img c s P H. unfold generate_square.
  apply returns_bind, returns_randint; [unfold MIN_SHAPE_SIZE, MAX_SHAPE_SIZE; lia |].
  intros side Hs.
  unfold MIN_SHAPE_SIZE, MAX_SHAPE_SIZE, IMAGE_WIDTH, IMAGE_HEIGHT in *.
  apply returns_bind, returns_randint; [lia |]. intros x1 _.
  apply returns_bind, returns_randint; [lia |]. intros y1 _.
  apply returns_ret, H.
Qed.

Lemma generate_circle_total : generator_total generate_circle.
Proof.
  intros img c s P H. unfold generate_circle.
  change (MIN_SHAPE_SIZE / 2) with 25. change (MAX_SHAPE_SIZE / 2) with 125.
  apply returns_bind, returns_randint; [lia |]. intros radius Hr.
  unfold IMAGE_WIDTH, IMAGE_HEIGHT in *.
  apply returns_bind, returns_randint; [lia |]. intros cx _.
  apply returns_bind, returns_randint; [lia |]. intros cy _.
  apply returns_ret, H.
Qed.

Lemma generate_triangle_total (fuel : nat) :
  (50 <= fuel)%nat -> generator_total (generate_triangle fuel).
Proof.
  intros Hfuel img c s P H.
  destruct (generate_triangle_run fuel img c s Hfuel)
    as (q1 & q2 & q3 & box & k & E & _).
  eexists _, _. split; [exact E | apply H].
Qed.

Lemma polygon_sink_ok_nil : polygon_sink_ok [].
Proof. split; constructor. Qed.

Lemma polygon_sink_ok_add (out : sink) (p1 p2 : string) (img : image) (txt : string) :
  polygon_sink_ok out -> polygon_record_ok (TextFile txt) -> is_unterminated_label txt ->
  polygon_sink_ok (out ++ [(p1, ImageFile img); (p2, TextFile txt)]).
Proof.
  intros [Hrec Hfmt] Hr Ht. split.
  - apply Forall_app. split; [exact Hrec |].
    constructor; [exact I |]. constructor; [exact Hr | constructor].
  - unfold polygon_labels. rewrite omap_app. apply Forall_app.
    split; [exact Hfmt |]. cbn. constructor; [exact Ht | constructor].
Qed.

Lemma calculate_yolo_annotation_Ok (t : tight) (class_id : Z) :
  exists txt,
    calculate_yolo_annotation (to_bbox t) class_id IMAGE_WIDTH IMAGE_HEIGHT
      BBOX_PADDING_PERCENTAGE = Ok txt
    /\ polygon_record_ok (TextFile txt)
    /\ is_unterminated_label txt.
Proof.
  destruct (yolo_fields_positive (to_bbox t) IMAGE_WIDTH IMAGE_HEIGHT
              BBOX_PADDING_PERCENTAGE) as (x & y & w & h & E & Hw & Hh);
    [unfold IMAGE_WIDTH; lia | unfold IMAGE_HEIGHT; lia |].
  exists (annotation_str class_id (x, y, w, h)).
  split; [unfold calculate_yolo_annotation; rewrite E; reflexivity |].
  split.
  - exists t, class_id, x, y, w, h. repeat split; assumption.
  - apply annotation_str_shape.
Qed.

Lemma sample_step_returns (fuel : nat) (shape_name : string) (class_id : Z)
    (images_dir labels_dir : string)
    (gen : image -> color -> M (image * tight)) (out : sink) (i : Z) (s : rng) :
  generator_total gen -> polygon_sink_ok out ->
  returns (sample_step fuel shape_name class_id images_dir labels_dir gen out i)
    s (fun out' _ => polygon_sink_ok out').
Proof.
  intros Hgen Hout. unfold sample_step.
  apply returns_bind, returns_get_random_color_pair. intros [bg sc] s1.
  apply returns_bind, Hgen. intros [img t] s2.
  destruct (calculate_yolo_annotation_Ok t class_id) as (txt & E & Hrec & Htxt).
  apply returns_bind. eapply returns_lift; [exact E |].
  apply returns_ret, polygon_sink_ok_add; assumption.
Qed.

Lemma for_each_returns {A} (body : sink -> A -> M sink) (Good : A -> Prop)
    (xs : list A) :
  (forall out x s, Good x -> polygon_sink_ok out ->
                   returns (body out x) s (fun out' _ => polygon_sink_ok out')) ->
  Forall Good xs ->
  forall out s, polygon_sink_ok out ->
                returns (for_each body xs out) s (fun out' _ => polygon_sink_ok out').
Proof.
  intros Hbody. induction xs as [| x xs IH]; intros Hxs out s Hout.
  - apply returns_ret. exact Hout.
  - apply Forall_cons in Hxs as [Hx Hxs]. cbn [for_each].
    apply returns_bind.
    eapply returns_weaken; [| apply Hbody; assumption].
    intros out' s' Hout'. apply IH; assumption.
Qed.

Lemma shape_generators_total (fuel : nat) (shape_name : string) (class_id : Z) :
  (50 <= fuel)%nat ->
  (shape_name, class_id) ∈ SHAPE_CLASSES ->
  exists gen, dict_get (shape_generators fuel) shape_name = Ok gen
              /\ generator_total gen.
Proof.
  intros Hfuel Hin. unfold SHAPE_CLASSES in Hin.
  repeat (apply elem_of_cons in Hin as [Hin | Hin];
          [injection Hin as -> ->; eexists; split; [reflexivity |] |]).
  - apply generate_rectangle_total.
  - apply generate_square_total.
  - apply generate_circle_total.
  - apply generate_triangle_total. exact Hfuel.
  - apply elem_of_nil in Hin. contradiction.
Qed.

Lemma shape_step_returns (fuel : nat) (n : Z) (base : string) (out : sink)
    (item : string * Z) (s : rng) :
  (50 <= fuel)%nat -> item ∈ SHAPE_CLASSES -> polygon_sink_ok out ->
  returns (shape_step fuel n base out item) s (fun out' _ => polygon_sink_ok out').
Proof.
  intros Hfuel Hin Hout. destruct item as [shape_name class_id].
  unfold shape_step.
  destruct (create_directories_for_shape base shape_name) as [images_dir labels_dir].
  destruct (shape_generators_total fuel shape_name class_id Hfuel Hin)
    as (gen & E & Hgen).
  apply returns_bind. eapply returns_lift; [exact E |].
  apply (for_each_returns _ (fun _ => True)).
  - intros out0 i s0 _ Hout0. apply sample_step_returns; assumption.
  - apply Forall_forall. trivial.
  - exact Hout.
Qed.

(** The polygon generator returns, and its sink holds rasters and labels of
    records with positive normalized width and height, each label one
    annotation line without terminator. *)
Lemma polygon_main_returns (fuel : nat) (n : Z) (s : rng) :
  (50 <= fuel)%nat ->
  returns (generate_yolo_dataset.main_with fuel n) s (fun out _ =>
    polygon_sink_ok out).
Proof.
  intros Hfuel. unfold generate_yolo_dataset.main_with.
  apply (for_each_returns _ (fun item => item ∈ SHAPE_CLASSES)).
  - intros out item s0 Hin Hout. apply shape_step_returns; assumption.
  - apply Forall_forall. trivial.
  - apply polygon_sink_ok_nil.
Qed.

End PolygonPipeline.

(** ** Records and label files of the two pipelines *)

Section Pipelines.

(** The ring generator returns with a sink that satisfies its invariant. *)
Lemma ring_main_returns (num_images : Z) (s : rng) :
  returns (generate_dataset.main_with num_images) s (fun st _ =>
    ring_sink_ok (snd st)).
Proof.
  unfold generate_dataset.main_with, ring_sink_ok.
  apply generation_loop_returns; constructor.
Qed.

(** C4: both generators return, and every annotation record they hand to
    the sink has width_norm > 0 and height_norm > 0. In the ring pipeline a
    record failing the test is dropped by the check before the write; in the
    polygon pipeline the clamp and repair leave a positive span on every
    canvas of at least one pixel each way, for every tight box and padding. *)
Theorem written_records_positive (fuel : nat) (num_images num_per_shape : Z)
    (s : rng) :
  (50 <= fuel)%nat ->
  returns (generate_dataset.main_with num_images) s (fun st _ =>
    Forall (fun e => ring_record_ok (snd e)) (snd st))
  /\ returns (generate_yolo_dataset.main_with fuel num_per_shape) s (fun out _ =>
       Forall (fun e => polygon_record_ok (snd e)) out)
  /\ (forall tb W H pad, 1 <= W -> 1 <= H ->
        exists x y w h,
          generate_yolo_dataset.yolo_fields tb W H pad = Ok (x, y, w, h)
          /\ (0 < w)%Q /\ (0 < h)%Q).
Proof.
  intros Hfuel. split; [| split].
  - eapply returns_weaken; [| apply ring_main_returns].
    intros st _ [H _]. exact H.
  - eapply returns_weaken; [| apply polygon_main_returns; exact Hfuel].
    intros out _ [H _]. exact H.
  - intros tb W H pad HW HH. apply yolo_fields_positive; assumption.
Qed.

(** Two ring images and one image a shape, on the example stream. *)
Lemma written_records_positive_witness :
  returns (generate_dataset.main_with 2) demo_rng (fun st _ =>
    Forall (fun e => ring_record_ok (snd e)) (snd st))
  /\ returns (generate_yolo_dataset.main_with 50 1) demo_rng (fun out _ =>
       Forall (fun e => polygon_record_ok (snd e)) out)
  /\ (forall tb W H pad, 1 <= W -> 1 <= H ->
        exists x y w h,
          generate_yolo_dataset.yolo_fields tb W H pad = Ok (x, y, w, h)
          /\ (0 < w)%Q /\ (0 < h)%Q).
Proof. apply (written_records_positive 50 2 1 demo_rng). lia. Defined.

(** C6, as the code has it: every label file holds exactly one line of the
    form "<class_id> <x_center> <y_center> <width> <height>", the four
    numbers with exactly six decimals, separated by single spaces. The ring
    generator ends the line with a line feed; the polygon generator writes
    the line without a terminator. *)
Theorem label_files_format (fuel : nat) (num_images num_per_shape : Z)
    (s : rng) :
  (50 <= fuel)%nat ->
  returns (generate_dataset.main_with num_images) s (fun st _ =>
    Forall is_terminated_label (ring_labels (snd st)))
  /\ returns (generate_yolo_dataset.main_with fuel num_per_shape) s (fun out _ =>
       Forall is_unterminated_label (polygon_labels out)).
Proof.
  intros Hfuel. split.
  - eapply returns_weaken; [| apply ring_main_returns].
    intros st _ [_ H]. exact H.
  - eapply returns_weaken; [| apply polygon_main_returns; exact Hfuel].
    intros out _ [_ H]. exact H.
Qed.

(** Two ring images and one image a shape, on the example stream. *)
Lemma label_files_format_witness :
  returns (generate_dataset.main_with 2) demo_rng (fun st _ =>
    Forall is_terminated_label (ring_labels (snd st)))
  /\ returns (generate_yolo_dataset.main_with 50 1) demo_rng (fun out _ =>
       Forall is_unterminated_label (polygon_labels out)).
Proof. apply (label_files_format 50 2 1 demo_rng). lia. Defined.

(** A label without line feed is not a newline-terminated label. *)
Lemma unterminated_not_terminated (txt : string) :
  is_unterminated_label txt -> ~ is_terminated_label txt.
Proof.
  intros [_ Hcount] (line & E & _).
  apply no_newline_not_terminated in Hcount.
  rewrite E, ends_with_newline_app in Hcount. discriminate Hcount.
Qed.

(** A run of the polygon generator, one image a shape. The height of the
    first label is the tie 0.1816875, rounded here to the even digit. *)
Example polygon_run :
  exists out s',
    generate_yolo_dataset.main_with 50 1 demo_rng = Ok (out, s')
    /\ map fst out
       = ["dataset_2d_shapes/images/Rectangle/rectangle_0001.png";
          "dataset_2d_shapes/labels/Rectangle/rectangle_0001.txt";
          "dataset_2d_shapes/images/Square/square_0001.png";
          "dataset_2d_shapes/labels/Square/square_0001.txt";
          "dataset_2d_shapes/images/Circle/circle_0001.png";
          "dataset_2d_shapes/labels/Circle/circle_0001.txt";
          "dataset_2d_shapes/images/Triangle/triangle_0001.png";
          "dataset_2d_shapes/labels/Triangle/triangle_0001.txt"]
    /\ polygon_labels out
       = ["0 0.703906 0.487500 0.397219 0.181688";
          "1 0.723438 0.417188 0.178125 0.178125";
          "2 0.768750 0.417188 0.235125 0.235125";
          "3 0.607812 0.567188 0.096188 0.163875"].
Proof.
  eexists _, _. split; [vm_compute; reflexivity |].
  split; vm_compute; reflexivity.
Qed.

(** A run of the ring generator for two images. *)
Example ring_run :
  exists st s',
    generate_dataset.main_with 2 demo_rng = Ok (st, s')
    /\ fst st = 2
    /\ map fst (snd st)
       = ["hotspot_dataset/images/train/hotspot_00000.png";
          "hotspot_dataset/labels/train/hotspot_00000.txt";
          "hotspot_dataset/images/train/hotspot_00001.png";
          "hotspot_dataset/labels/train/hotspot_00001.txt"]
    /\ ring_labels (snd st)
       = ["0 0.465625 0.604688 0.593750 0.593750" +:+ String fmt.newline "";
          "0 0.525000 0.515625 0.506250 0.506250" +:+ String fmt.newline ""].
Proof.
  eexists _, _. split; [vm_compute; reflexivity |].
  repeat split; vm_compute; reflexivity.
Qed.

(** The text [calculate_yolo_annotation] returns never ends with a line
    feed, and the script writes it as it is. *)
Lemma annotation_not_terminated (tb : generate_yolo_dataset.bbox)
    (class_id W H : Z) (pad : Q) (txt : string) :
  generate_yolo_dataset.calculate_yolo_annotation tb class_id W H pad = Ok txt ->
  ends_with_newline txt = false.
Proof.
  unfold generate_yolo_dataset.calculate_yolo_annotation.
  destruct (generate_yolo_dataset.yolo_fields tb W H pad)
    as [[[[x y] w] h] |]; [| discriminate].
  intros [= <-]. apply no_newline_not_terminated, annotation_str_shape.
Qed.

(** The polygon generator persists label files that are not
    newline-terminated: the label of its first rectangle on the example
    stream (tight box (339, 261)-(562, 363)) is the bare line
    "0 0.703906 0.487500 0.397219 0.181688", and so is the label of
    Scenario B. *)
Lemma polygon_label_not_newline_terminated :
  (exists out s' txt,
     generate_yolo_dataset.main_with 50 1 demo_rng = Ok (out, s')
     /\ out !! 1%nat
        = Some ("dataset_2d_shapes/labels/Rectangle/rectangle_0001.txt",
                generate_yolo_dataset.TextFile txt)
     /\ txt = "0 0.703906 0.487500 0.397219 0.181688"
     /\ ends_with_newline txt = false
     /\ ~ is_terminated_label txt)
  /\ (exists txt,
        generate_yolo_dataset.calculate_yolo_annotation scenario_B 0 640 640
          generate_yolo_dataset.BBOX_PADDING_PERCENTAGE = Ok txt
        /\ txt = "0 0.093750 0.133203 0.178125 0.266406"
        /\ ends_with_newline txt = false
        /\ ~ is_terminated_label txt).
Proof.
  split.
  - eexists _, _, _. split; [vm_compute; reflexivity |].
    split; [vm_compute; reflexivity |].
    split; [reflexivity |].
    split; [vm_compute; reflexivity |].
    apply unterminated_not_terminated. split; vm_compute; reflexivity.
  - eexists. split; [vm_compute; reflexivity |].
    split; [reflexivity |].
    split; [vm_compute; reflexivity |].
    apply unterminated_not_terminated. split; vm_compute; reflexivity.
Qed.

End Pipelines.

(** ** The partitioner: copying image and label pairs *)

Section CopyFiles.

Import split_dataset.

Variables dest_img_dir dest_lbl_dir source_lbl_dir : string.

Local Abbreviation step := (copy_step dest_img_dir dest_lbl_dir source_lbl_dir).
Local Abbreviation label img := (get_corresponding_label_file img source_lbl_dir).
Local Abbreviation targets x :=
  (copy_targets dest_img_dir dest_lbl_dir source_lbl_dir x).

Lemma path_exists_false (files : gmap string string) (p : string) :
  path_exists files p = false <-> files !! p = None.
Proof.
  unfold path_exists. rewrite bool_decide_eq_false.
  rewrite <- eq_None_not_Some. reflexivity.
Qed.

Lemma path_exists_true (files : gmap string string) (p : string) :
  path_exists files p = true <-> is_Some (files !! p).
Proof. unfold path_exists. apply bool_decide_eq_true. Qed.

(** An image whose label file does not exist is passed over: the store and
    the count are what they were. *)
Lemma copy_step_missing_label (st : gmap string string * Z) (img : string) :
  path_exists (fst st) (label img) = false -> step st img = st.
Proof.
  destruct st as [files n]. cbn [fst]. intros H.
  unfold copy_step. rewrite H. reflexivity.
Qed.

(** A pass adds one to the count exactly when the label exists and both
    copies succeed, one after the other; otherwise the count stays. *)
Lemma copy_step_counts_pairs (st : gmap string string * Z) (img : string) :
  (snd (step st img) = snd st + 1
   /\ path_exists (fst st) (label img) = true
   /\ exists files1,
        shutil_copy img dest_img_dir (fst st) = Ok files1
        /\ shutil_copy (label img) dest_lbl_dir files1 = Ok (fst (step st img)))
  \/ (snd (step st img) = snd st
      /\ (path_exists (fst st) (label img) = false
          \/ is_Ok (shutil_copy img dest_img_dir (fst st)) = false
          \/ exists files1,
               shutil_copy img dest_img_dir (fst st) = Ok files1
               /\ is_Ok (shutil_copy (label img) dest_lbl_dir files1) = false)).
Proof.
  destruct st as [files n]. cbn [fst snd]. unfold copy_step.
  destruct (path_exists files (label img)) eqn:Hl; cbn [negb];
    [| right; split; [reflexivity | left; reflexivity]].
  destruct (shutil_copy img dest_img_dir files) as [files1 |] eqn:E1;
    [| right; split; [reflexivity | right; left; reflexivity]].
  destruct (shutil_copy (label img) dest_lbl_dir files1) as [files2 |] eqn:E2.
  - left. cbn [fst snd]. split; [reflexivity |]. split; [reflexivity |].
    exists files1. split; [reflexivity | exact E2].
  - right. cbn [fst snd]. split; [reflexivity |]. right. right.
    exists files1. split; [reflexivity |]. rewrite E2. reflexivity.
Qed.

(** The count never decreases and grows by at most one a pass. *)
Lemma copy_step_count_bounds (st : gmap string string * Z) (img : string) :
  snd st <= snd (step st img) <= snd st + 1.
Proof.
  destruct st as [files n]. unfold copy_step.
  destruct (negb (path_exists files (label img))); [cbn; lia |].
  destruct (shutil_copy img dest_img_dir files) as [files1 |]; [| cbn; lia].
  destruct (shutil_copy (label img) dest_lbl_dir files1); cbn; lia.
Qed.

(** A pass writes at most its two targets. *)
Lemma copy_step_frame (st : gmap string string * Z) (x q : string) :
  q ∉ targets x -> fst (step st x) !! q = fst st !! q.
Proof.
  intros Hq. destruct st as [files n]. unfold copy_step.
  destruct (negb (path_exists files (label x))); [reflexivity |].
  assert (Hq1 : os_path.join dest_img_dir (os_path.basename x) <> q).
  { intros <-. apply Hq. unfold copy_targets. set_solver. }
  assert (Hq2 : os_path.join dest_lbl_dir (os_path.basename (label x)) <> q).
  { intros <-. apply Hq. unfold copy_targets. set_solver. }
  unfold shutil_copy.
  destruct (files !! x) as [data |]; [| reflexivity].
  destruct (String.eqb _ x); [reflexivity |].
  destruct (<[_ := data]> files !! label x) as [data' |] eqn:E;
    cbn [fst]; [| rewrite lookup_insert_ne by exact Hq1; reflexivity].
  destruct (String.eqb _ (label x)); cbn [fst].
  - rewrite lookup_insert_ne by exact Hq1. reflexivity.
  - rewrite lookup_insert_ne by exact Hq2.
    rewrite lookup_insert_ne by exact Hq1. reflexivity.
Qed.


(** A pass never removes a file. *)
Lemma copy_step_keeps (st : gmap string string * Z) (x q : string) :
  is_Some (fst st !! q) -> is_Some (fst (step st x) !! q).
Proof.
  intros Hq. destruct st as [files n]. cbn [fst] in Hq. unfold copy_step.
  destruct (negb (path_exists files (label x))); [exact Hq |].
  unfold shutil_copy.
  destruct (files !! x) as [data |]; [| exact Hq].
  destruct (String.eqb _ x); [exact Hq |].
  assert (H1 : is_Some (<[os_path.join dest_img_dir (os_path.basename x)
                            := data]> files !! q)).
  { rewrite lookup_insert. case_decide; [eexists; reflexivity | exact Hq]. }
  destruct (<[_ := data]> files !! label x) as [data' |]; [| exact H1].
  destruct (String.eqb _ (label x)); [exact H1 |].
  cbn [fst]. rewrite lookup_insert. case_decide; [eexists; reflexivity | exact H1].
Qed.

Variable file_list : list string.
Hypothesis Hsep : separated dest_img_dir dest_lbl_dir source_lbl_dir file_list.

Variable files0 : gmap string string.

Local Abbreviation agree files :=
  (agree_on_sources source_lbl_dir file_list files files0).

Lemma copy_step_agree (st : gmap string string * Z) (x : string) :
  x ∈ file_list -> agree (fst st) -> agree (fst (step st x)).
Proof.
  intros Hx Hag img q Himg Hq.
  rewrite copy_step_frame; [apply (Hag img q Himg Hq) |].
  intros Ht. exact (Hsep x img q q Hx Himg Ht Hq eq_refl).
Qed.

(** With destinations apart from the sources, a pass counts the image when
    and only when the image and its label are in the store, and then both
    copies are in the store afterwards. *)
Lemma copy_step_counted (st : gmap string string * Z) (x : string) :
  x ∈ file_list -> agree (fst st) ->
  snd (step st x)
  = snd st + (if copyable files0 source_lbl_dir x then 1 else 0)
  /\ (copyable files0 source_lbl_dir x = true ->
      Forall (fun t => is_Some (fst (step st x) !! t)) (targets x)).
Proof.
  intros Hx Hag. destruct st as [files n]. cbn [fst snd] in *.
  assert (Hlbl : files !! label x = files0 !! label x).
  { apply (Hag x); [exact Hx | unfold copy_sources; set_solver]. }
  assert (Himg : files !! x = files0 !! x).
  { apply (Hag x); [exact Hx | unfold copy_sources; set_solver]. }
  assert (S1 : os_path.join dest_img_dir (os_path.basename x) <> x).
  { apply (Hsep x x); [exact Hx | exact Hx | |];
      unfold copy_targets, copy_sources; set_solver. }
  assert (S2 : os_path.join dest_img_dir (os_path.basename x) <> label x).
  { apply (Hsep x x); [exact Hx | exact Hx | |];
      unfold copy_targets, copy_sources; set_solver. }
  assert (S3 : os_path.join dest_lbl_dir (os_path.basename (label x)) <> label x).
  { apply (Hsep x x); [exact Hx | exact Hx | |];
      unfold copy_targets, copy_sources; set_solver. }
  unfold copy_step, copyable, path_exists, shutil_copy.
  rewrite Hlbl, Himg.
  destruct (files0 !! label x) as [ldata |] eqn:El.
  2:{ rewrite bool_decide_eq_false_2 by (intros [? ?]; discriminate).
      cbn. split; [lia | discriminate]. }
  rewrite (bool_decide_eq_true_2 (is_Some (Some ldata))) by (eexists; reflexivity).
  cbn [negb andb].
  destruct (files0 !! x) as [data |] eqn:Ei.
  2:{ rewrite bool_decide_eq_false_2 by (intros [? ?]; discriminate).
      cbn. split; [lia | discriminate]. }
  rewrite (bool_decide_eq_true_2 (is_Some (Some data))) by (eexists; reflexivity).
  destruct (String.eqb_spec (os_path.join dest_img_dir (os_path.basename x)) x)
    as [E | _]; [contradiction |].
  rewrite lookup_insert_ne by exact S2. rewrite Hlbl.
  destruct (String.eqb_spec
              (os_path.join dest_lbl_dir (os_path.basename (label x))) (label x))
    as [E | _]; [contradiction |].
  cbn [fst snd]. split; [reflexivity |]. intros _.
  unfold copy_targets. repeat constructor.
  - rewrite lookup_insert. case_decide; [eexists; reflexivity |].
    rewrite lookup_insert_eq. eexists; reflexivity.
  - rewrite lookup_insert_eq. eexists; reflexivity.
Qed.

Lemma foldl_copy_step_counted (l : list string) :
  forall st : gmap string string * Z,
    (forall x, x ∈ l -> x ∈ file_list) -> agree (fst st) ->
    agree (fst (foldl step st l))
    /\ snd (foldl step st l)
       = snd st + Z.of_nat (length (List.filter (copyable files0 source_lbl_dir) l))
    /\ (forall x, x ∈ l -> copyable files0 source_lbl_dir x = true ->
          Forall (fun t => is_Some (fst (foldl step st l) !! t)) (targets x)).
Proof.
  induction l as [| x l IH]; intros st Hsub Hag.
  - cbn. split; [exact Hag |]. split; [lia |].
    intros x Hx. apply elem_of_nil in Hx. contradiction.
  - assert (Hx : x ∈ file_list) by (apply Hsub; left).
    destruct (copy_step_counted st x Hx Hag) as [Hc Hpresent].
    pose proof (copy_step_agree st x Hx Hag) as Hag'.
    destruct (IH (step st x)) as (IH1 & IH2 & IH3);
      [intros y Hy; apply Hsub; right; exact Hy | exact Hag' |].
    cbn [foldl]. split; [exact IH1 |]. split.
    + rewrite IH2, Hc. cbn [List.filter].
      destruct (copyable files0 source_lbl_dir x); cbn [length]; lia.
    + intros y Hy Hcopy. apply elem_of_cons in Hy as [-> | Hy]; [| apply IH3; assumption].
      specialize (Hpresent Hcopy).
      eapply Forall_impl; [exact Hpresent |].
      intros t Ht. clear -Ht. revert Ht. generalize (step st x). intros st' Ht.
      induction l as [| z l IHl] in st', Ht |- *; [exact Ht |].
      cbn [foldl]. apply IHl. apply copy_step_keeps. exact Ht.
Qed.


(** The whole loop, from the store [files0]. *)
Lemma copy_files_counted :
  snd (copy_files file_list dest_img_dir dest_lbl_dir source_lbl_dir files0)
  = Z.of_nat (length (List.filter (copyable files0 source_lbl_dir) file_list))
  /\ agree (fst (copy_files file_list dest_img_dir dest_lbl_dir source_lbl_dir files0))
  /\ (forall x, x ∈ file_list -> copyable files0 source_lbl_dir x = true ->
        Forall (fun t => is_Some
                  (fst (copy_files file_list dest_img_dir dest_lbl_dir
                          source_lbl_dir files0) !! t)) (targets x)).
Proof.
  unfold copy_files.
  destruct (foldl_copy_step_counted file_list (files0, 0)) as (H1 & H2 & H3).
  - trivial.
  - intros img q _ _. reflexivity.
  - split; [rewrite H2; cbn; lia |]. split; assumption.
Qed.

(** Leaving out an image whose label is not in the store changes nothing. *)
Lemma copy_files_without (l1 l2 : list string) (img : string) :
  file_list = l1 ++ img :: l2 ->
  path_exists files0 (label img) = false ->
  copy_files file_list dest_img_dir dest_lbl_dir source_lbl_dir files0
  = copy_files (l1 ++ l2) dest_img_dir dest_lbl_dir source_lbl_dir files0.
Proof.
  intros E Hmiss. unfold copy_files. rewrite E, !foldl_app. cbn [foldl].
  destruct (foldl_copy_step_counted l1 (files0, 0)) as (Hag & _).
  - intros x Hx. rewrite E. apply elem_of_app. left. exact Hx.
  - intros i q _ _. reflexivity.
  - rewrite copy_step_missing_label; [reflexivity |].
    apply path_exists_false. apply path_exists_false in Hmiss.
    rewrite <- Hmiss. apply (Hag img).
    + rewrite E. apply elem_of_app. right. left.
    + unfold copy_sources. right. left.
Qed.

End CopyFiles.

Section CopyFilesSkips.

Import split_dataset.

(** C8: copy_files passes over an image whose derived label path
    (the label directory joined with the image's base name and ".txt") does
    not exist: that pass leaves the store and the count as they were, and
    the loop goes on; a failed copy is caught as well. A pass adds one to
    the count exactly when both copies succeeded. With destinations apart
    from the sources, the returned count is the number of listed images
    whose image and label are both in the store, the run is the same as
    without an image that has no label, and the copies of every counted
    image are in the store at the end. *)
Theorem copy_files_skips_missing_labels
    (dest_img_dir dest_lbl_dir source_lbl_dir : string)
    (file_list : list string) (files : gmap string string) :
  separated dest_img_dir dest_lbl_dir source_lbl_dir file_list ->
  let step := copy_step dest_img_dir dest_lbl_dir source_lbl_dir in
  let label img := get_corresponding_label_file img source_lbl_dir in
  let result :=
    copy_files file_list dest_img_dir dest_lbl_dir source_lbl_dir files in
  (forall st img,
      path_exists (fst st) (label img) = false -> step st img = st)
  /\ (forall st img,
        snd (step st img) = snd st + 1
        /\ path_exists (fst st) (label img) = true
        /\ (exists files1,
              shutil_copy img dest_img_dir (fst st) = Ok files1
              /\ shutil_copy (label img) dest_lbl_dir files1
                 = Ok (fst (step st img)))
        \/ snd (step st img) = snd st)
  /\ snd result
     = Z.of_nat (length (List.filter (copyable files source_lbl_dir) file_list))
  /\ (forall l1 img l2,
        file_list = l1 ++ img :: l2 ->
        path_exists files (label img) = false ->
        result
        = copy_files (l1 ++ l2) dest_img_dir dest_lbl_dir source_lbl_dir files)
  /\ (forall img, img ∈ file_list ->
        copyable files source_lbl_dir img = true ->
        Forall (fun t => is_Some (fst result !! t))
          (copy_targets dest_img_dir dest_lbl_dir source_lbl_dir img)).
Proof.
  intros Hsep step label result.
  destruct (copy_files_counted dest_img_dir dest_lbl_dir source_lbl_dir
              file_list Hsep files) as (Hcount & _ & Hpresent).
  split; [apply copy_step_missing_label |].
  split.
  { intros st img.
    destruct (copy_step_counts_pairs dest_img_dir dest_lbl_dir source_lbl_dir
                st img) as [H | [H _]]; [left; exact H | right; exact H]. }
  split; [exact Hcount |].
  split; [| exact Hpresent].
  intros l1 img l2. apply copy_files_without. exact Hsep.
Qed.

End CopyFilesSkips.

(** ** Paths of the partitioner *)

Section Paths.

Lemma after_last_sep_None_head (c : ascii) (r : string) :
  os_path.after_last_sep (String c r) = None -> c <> os_path.sep.
Proof.
  cbn. destruct (os_path.after_last_sep r); [discriminate |].
  destruct (Ascii.eqb_spec c os_path.sep); [discriminate | auto].
Qed.

Lemma after_last_sep_Some (p t : string) :
  os_path.after_last_sep p = Some t -> os_path.after_last_sep t = None.
Proof.
  induction p as [| c p IH]; [discriminate |].
  cbn. destruct (os_path.after_last_sep p) as [t' |] eqn:E.
  - intros [= <-]. apply IH. reflexivity.
  - destruct (Ascii.eqb c os_path.sep); [| discriminate].
    intros [= <-]. exact E.
Qed.

(** A base name has no separator. *)
Lemma basename_no_sep (p : string) :
  os_path.after_last_sep (os_path.basename p) = None.
Proof.
  unfold os_path.basename.
  destruct (os_path.after_last_sep p) as [t |] eqn:E; cbn.
  - apply (after_last_sep_Some p t E).
  - exact E.
Qed.

Lemma after_last_sep_app (a name : string) :
  os_path.after_last_sep name = None ->
  os_path.after_last_sep (a +:+ String os_path.sep name) = Some name.
Proof.
  intros H. induction a as [| c a IH].
  - rewrite append_nil. cbn. rewrite H. reflexivity.
  - rewrite append_cons. cbn [os_path.after_last_sep]. rewrite IH. reflexivity.
Qed.

(** Joining a directory that is not empty and does not end with a
    separator, and a name that does not start with one. *)
Lemma join_dir (d b : string) :
  d <> EmptyString -> os_path.ends_with_sep d = false ->
  (forall r, b <> String os_path.sep r) ->
  os_path.join d b = d +:+ String os_path.sep b.
Proof.
  intros Hd He Hb. unfold os_path.join. rewrite He.
  destruct (String.eqb_spec d EmptyString) as [E | _]; [contradiction |].
  cbn [orb].
  destruct b as [| c r]; [reflexivity |].
  destruct (Ascii.eqb_spec c os_path.sep) as [-> | Hc];
    [destruct (Hb r eq_refl) |].
  destruct c as [[] [] [] [] [] [] [] []]; try reflexivity.
  contradiction Hc. reflexivity.
Qed.

Lemma no_sep_no_leading_sep (b : string) :
  os_path.after_last_sep b = None -> forall r, b <> String os_path.sep r.
Proof.
  intros H r ->. apply after_last_sep_None_head in H. contradiction.
Qed.

Lemma head_char_app (c : ascii) (a b : string) :
  head_char (String c a +:+ b) = Some c.
Proof. reflexivity. Qed.

(** A path joined to a directory starts as the directory does, or is the
    absolute second argument. *)
Lemma head_char_join (c : ascii) (d b : string) :
  head_char (os_path.join (String c d) b) = Some c
  \/ head_char (os_path.join (String c d) b) = Some os_path.sep.
Proof.
  unfold os_path.join.
  destruct b as [| x r].
  - left. destruct (_ || _); reflexivity.
  - destruct (Ascii.eqb_spec x os_path.sep) as [-> | Hx].
    + right. reflexivity.
    + left.
      assert (E : match String x r with
                  | String "/" _ => String x r
                  | _ => if String.eqb (String c d) EmptyString
                            || os_path.ends_with_sep (String c d)
                         then String c d +:+ String x r
                         else String c d +:+ String os_path.sep (String x r)
                  end
                  = if String.eqb (String c d) EmptyString
                       || os_path.ends_with_sep (String c d)
                    then String c d +:+ String x r
                    else String c d +:+ String os_path.sep (String x r)).
      { destruct x as [[] [] [] [] [] [] [] []]; try reflexivity.
        contradiction Hx. reflexivity. }
      rewrite E. destruct (_ || _); reflexivity.
Qed.

End Paths.

Section MainPaths.

Import split_dataset.

(** In the directories of [main], everything written starts with "y",
    and nothing read does. *)
Lemma main_target_head (dest x : string) (c : ascii) (d : string) :
  dest = String c d -> os_path.ends_with_sep dest = false ->
  head_char (os_path.join dest (os_path.basename x)) = Some c.
Proof.
  intros -> He.
  rewrite join_dir; [reflexivity | discriminate | exact He |].
  apply no_sep_no_leading_sep, basename_no_sep.
Qed.

Lemma label_head (img : string) :
  head_char (get_corresponding_label_file img SOURCE_LABELS_DIR) <> Some "y"%char.
Proof.
  unfold get_corresponding_label_file.
  change SOURCE_LABELS_DIR with (String "h" "otspot_dataset/labels/train").
  destruct (head_char_join "h" "otspot_dataset/labels/train"
              (fst (os_path.splitext (os_path.basename img)) +:+ ".txt"))
    as [-> | ->]; discriminate.
Qed.

Lemma in_source_dir_head (p : string) :
  in_source_dir p -> head_char p = Some "h"%char.
Proof. intros (name & -> & _). reflexivity. Qed.

Lemma main_separated (dest_img dest_lbl : string) (d1 d2 : string)
    (file_list : list string) :
  dest_img = String "y" d1 -> os_path.ends_with_sep dest_img = false ->
  dest_lbl = String "y" d2 -> os_path.ends_with_sep dest_lbl = false ->
  Forall in_source_dir file_list ->
  separated dest_img dest_lbl SOURCE_LABELS_DIR file_list.
Proof.
  intros E1 S1 E2 S2 Hall x img t q Hx Himg Ht Hq Heq.
  assert (Hth : head_char t = Some "y"%char).
  { unfold copy_targets in Ht.
    apply elem_of_cons in Ht as [-> | Ht];
      [apply (main_target_head _ _ _ _ E1 S1) |].
    apply elem_of_cons in Ht as [-> | Ht];
      [apply (main_target_head _ _ _ _ E2 S2) |].
    apply elem_of_nil in Ht. contradiction. }
  rewrite Heq in Hth.
  unfold copy_sources in Hq.
  apply elem_of_cons in Hq as [-> | Hq].
  - rewrite Forall_forall in Hall.
    rewrite (in_source_dir_head img (Hall img Himg)) in Hth. discriminate Hth.
  - apply elem_of_cons in Hq as [-> | Hq];
      [exact (label_head img Hth) | apply elem_of_nil in Hq; contradiction].
Qed.

Lemma string_strip_prefix_Some (pre p name : string) :
  string_strip_prefix pre p = Some name -> p = pre +:+ name.
Proof.
  revert p. induction pre as [| a pre IH]; intros p E.
  - cbn in E. injection E as ->. reflexivity.
  - destruct p as [| b p]; [discriminate E |].
    cbn in E. destruct (Ascii.eqb_spec a b) as [-> | _]; [| discriminate E].
    rewrite append_cons, (IH p E). reflexivity.
Qed.

Lemma in_source_dirb_correct (p : string) :
  in_source_dirb p = true -> in_source_dir p.
Proof.
  unfold in_source_dirb, in_source_dir.
  destruct (string_strip_prefix _ p) as [name |] eqn:E; [| discriminate].
  destruct (os_path.after_last_sep name) eqn:En; [discriminate |].
  intros _. exists name. split; [| exact En].
  apply string_strip_prefix_Some in E. rewrite E, append_assoc. reflexivity.
Qed.

Lemma demo_listing_in_source_dir (n : Z) :
  forallb in_source_dirb (demo_listing n) = true ->
  Forall in_source_dir (demo_listing n).
Proof.
  intros H. rewrite forallb_forall in H. apply Forall_forall.
  intros p Hp. apply in_source_dirb_correct, H, list_elem_of_In, Hp.
Qed.

End MainPaths.

(** ** The partitioner: the split and its rerun *)

Section Partition.

Import split_dataset.

Lemma swap_Permutation {A} (i j : nat) (x : list A) : random.swap i j x ≡ₚ x.
Proof.
  unfold random.swap.
  destruct (x !! i) as [xi |] eqn:Ei; [| reflexivity].
  destruct (x !! j) as [xj |] eqn:Ej; [| reflexivity].
  apply Permutation_insert_swap; assumption.
Qed.

Lemma returns_shuffle_from {A} (i : nat) :
  forall (x : list A) (s : rng) (P : list A -> rng -> Prop),
    (forall l s', l ≡ₚ x -> P l s') ->
    returns (random.shuffle_from i x) s P.
Proof.
  induction i as [| i IH]; intros x s P H.
  - apply returns_ret, H. reflexivity.
  - cbn [random.shuffle_from].
    apply returns_bind, returns_randbelow; [lia |]. intros j _.
    apply IH. intros l s' Hl. apply H.
    rewrite Hl. apply swap_Permutation.
Qed.

(** The shuffle returns a permutation of its argument. *)
Lemma returns_shuffle {A} (x : list A) (s : rng) (P : list A -> rng -> Prop) :
  (forall l s', l ≡ₚ x -> P l s') -> returns (random.shuffle x) s P.
Proof. apply returns_shuffle_from. Qed.

(** Seeding makes what follows independent of the state before. *)
Lemma partition_reseeds (mt : Z -> nat -> Z) (ratio : Q) (seed : Z)
    (image_files : list string) (s s0 : rng) :
  partition mt ratio seed image_files s = partition mt ratio seed image_files s0.
Proof. reflexivity. Qed.

(** The split: a permutation of the listing, cut at [int(len * ratio)]. *)
Lemma partition_returns (mt : Z -> nat -> Z) (ratio : Q) (seed : Z)
    (image_files : list string) (s : rng) :
  returns (partition mt ratio seed image_files) s (fun tv _ =>
    fst tv ++ snd tv ≡ₚ image_files
    /\ length (fst tv)
       = Nat.min (Z.to_nat (py.int (inject_Z (Z.of_nat (length image_files))
                                    * ratio)%Q))
           (length image_files)).
Proof.
  unfold partition.
  apply returns_bind. eexists tt, _. split; [reflexivity |].
  apply returns_bind, returns_shuffle. intros l s' Hl.
  apply returns_ret. cbn [fst snd].
  split; [rewrite take_drop; exact Hl |].
  rewrite length_take, (Permutation_length Hl). reflexivity.
Qed.


Lemma copyable_agree (all : list string) (files files0 : gmap string string)
    (x : string) :
  agree_on_sources SOURCE_LABELS_DIR all files files0 -> x ∈ all ->
  copyable files SOURCE_LABELS_DIR x = copyable files0 SOURCE_LABELS_DIR x.
Proof.
  intros Hag Hx. unfold copyable, path_exists.
  rewrite (Hag x x Hx), (Hag x (get_corresponding_label_file x SOURCE_LABELS_DIR) Hx);
    [reflexivity | |]; unfold copy_sources.
  - right. left.
  - left.
Qed.

Lemma filter_copyable_agree (all l : list string)
    (files files0 : gmap string string) :
  agree_on_sources SOURCE_LABELS_DIR all files files0 ->
  (forall x, x ∈ l -> x ∈ all) ->
  List.filter (copyable files SOURCE_LABELS_DIR) l
  = List.filter (copyable files0 SOURCE_LABELS_DIR) l.
Proof.
  intros Hag. induction l as [| x l IH]; intros Hsub; [reflexivity |].
  cbn [List.filter].
  rewrite (copyable_agree all files files0 x Hag) by (apply Hsub; left).
  rewrite IH by (intros y Hy; apply Hsub; right; exact Hy).
  reflexivity.
Qed.

(** A run of [copy_files] on part of the listing, into a directory of the
    output tree. *)
Lemma copy_files_part (dest_img dest_lbl d1 d2 : string)
    (all l : list string) (files files0 : gmap string string) :
  dest_img = String "y" d1 -> os_path.ends_with_sep dest_img = false ->
  dest_lbl = String "y" d2 -> os_path.ends_with_sep dest_lbl = false ->
  Forall in_source_dir all ->
  (forall x, x ∈ l -> x ∈ all) ->
  agree_on_sources SOURCE_LABELS_DIR all files files0 ->
  agree_on_sources SOURCE_LABELS_DIR all
    (fst (copy_files l dest_img dest_lbl SOURCE_LABELS_DIR files)) files0
  /\ snd (copy_files l dest_img dest_lbl SOURCE_LABELS_DIR files)
     = Z.of_nat (length (List.filter (copyable files0 SOURCE_LABELS_DIR) l)).
Proof.
  intros E1 S1 E2 S2 Hall Hsub Hag.
  pose proof (main_separated dest_img dest_lbl d1 d2 all E1 S1 E2 S2 Hall) as Hsep.
  destruct (foldl_copy_step_counted dest_img dest_lbl SOURCE_LABELS_DIR all
              Hsep files0 l (files, 0) Hsub Hag) as (H1 & H2 & _).
  unfold copy_files. split; [exact H1 |]. rewrite H2. cbn. lia.
Qed.

(** A run of [main] on a listing of the source directory: the report gives
    the split and, for each part, the number of its images that have both
    files in the store the run started from; nothing the run reads has
    changed at its end. *)
Lemma main_report (mt : Z -> nat -> Z) (image_files : list string)
    (files files0 : gmap string string) (s : rng) :
  image_files <> [] ->
  Forall in_source_dir image_files ->
  agree_on_sources SOURCE_LABELS_DIR image_files files files0 ->
  exists train val s1 files1,
    partition mt TRAIN_RATIO RANDOM_SEED image_files s = Ok ((train, val), s1)
    /\ main mt image_files files s
       = Ok ((files1,
              Some (mk_report train val
                      (Z.of_nat (length (List.filter
                                           (copyable files0 SOURCE_LABELS_DIR) train)))
                      (Z.of_nat (length (List.filter
                                           (copyable files0 SOURCE_LABELS_DIR) val))))),
             s1)
    /\ agree_on_sources SOURCE_LABELS_DIR image_files files1 files0.
Proof.
  intros Hne Hall Hag.
  destruct (partition_returns mt TRAIN_RATIO RANDOM_SEED image_files s)
    as ([train val] & s1 & E & Hperm & _).
  cbn [fst snd] in Hperm.
  assert (Htrain : forall x, x ∈ train -> x ∈ image_files).
  { intros x Hx. rewrite <- Hperm. apply elem_of_app. left. exact Hx. }
  assert (Hval : forall x, x ∈ val -> x ∈ image_files).
  { intros x Hx. rewrite <- Hperm. apply elem_of_app. right. exact Hx. }
  destruct (copy_files_part
              (os_path.join (os_path.join OUTPUT_DATA_DIR "images") "train")
              (os_path.join (os_path.join OUTPUT_DATA_DIR "labels") "train")
              _ _ image_files train files files0
              eq_refl eq_refl eq_refl eq_refl Hall Htrain Hag) as [Hag1 Hc1].
  destruct (copy_files_part
              (os_path.join (os_path.join OUTPUT_DATA_DIR "images") "val")
              (os_path.join (os_path.join OUTPUT_DATA_DIR "labels") "val")
              _ _ image_files val _ files0
              eq_refl eq_refl eq_refl eq_refl Hall Hval Hag1) as [Hag2 Hc2].
  exists train, val, s1.
  unfold main. destruct image_files as [| f0 rest]; [contradiction |].
  rewrite (bind_Ok _ _ _ _ _ E). cbv beta iota.
  destruct (copy_files train _ _ SOURCE_LABELS_DIR files) as [files_a c1].
  cbn [fst snd] in *.
  destruct (copy_files val _ _ SOURCE_LABELS_DIR files_a) as [files_b c2].
  cbn [fst snd] in *. subst c1 c2.
  exists files_b. split; [exact E |].
  split; [reflexivity | exact Hag2].
Qed.


(** C7: on a listing of 1000 images of the source directory, with the
    ratio 0.8 and the seed 42 of the script, main returns with exactly 800
    train and 200 val images, together a permutation of the listing; a
    second run on the same listing, in the store the first run left and from
    any state of the random source, returns the same report: the same train
    and val lists and the same two copy counts. *)
Theorem partition_scenario_C (mt : Z -> nat -> Z) (image_files : list string)
    (files : gmap string string) (s : rng) :
  length image_files = 1000%nat ->
  Forall in_source_dir image_files ->
  exists files1 rep s1,
    main mt image_files files s = Ok ((files1, Some rep), s1)
    /\ length (train_files rep) = 800%nat
    /\ length (val_files rep) = 200%nat
    /\ train_files rep ++ val_files rep ≡ₚ image_files
    /\ (forall s', exists files2 s2,
          main mt image_files files1 s' = Ok ((files2, Some rep), s2)).
Proof.
  intros Hlen Hall.
  assert (Hne : image_files <> []) by (intros ->; discriminate Hlen).
  destruct (main_report mt image_files files files s Hne Hall)
    as (train & val & s1 & files1 & E & Emain & Hag);
    [intros img q _ _; reflexivity |].
  destruct (partition_returns mt TRAIN_RATIO RANDOM_SEED image_files s)
    as ([train' val'] & s1' & E' & Hperm & Htake).
  rewrite E in E'. injection E' as <- <- <-.
  cbn [fst snd] in Hperm, Htake.
  rewrite Hlen in Htake.
  change (Nat.min _ 1000) with 800%nat in Htake.
  eexists files1, _, s1. split; [exact Emain |].
  cbn [train_files val_files].
  split; [exact Htake |].
  split.
  { apply Permutation_length in Hperm.
    rewrite length_app, Hlen, Htake in Hperm. lia. }
  split; [exact Hperm |].
  intros s'.
  destruct (main_report mt image_files files1 files s' Hne Hall Hag)
    as (train2 & val2 & s2 & files2 & E2 & Emain2 & _).
  rewrite (partition_reseeds mt TRAIN_RATIO RANDOM_SEED image_files s' s) in E2.
  rewrite E in E2. injection E2 as <- <- <-.
  exists files2, s1. exact Emain2.
Qed.

(** On the listing hotspot_00000.png ... hotspot_00999.png. *)
Lemma partition_scenario_C_witness :
  exists files1 rep s1,
    main demo_mt (demo_listing 1000) demo_store demo_rng
    = Ok ((files1, Some rep), s1)
    /\ length (train_files rep) = 800%nat
    /\ length (val_files rep) = 200%nat
    /\ train_files rep ++ val_files rep ≡ₚ demo_listing 1000
    /\ (forall s', exists files2 s2,
          main demo_mt (demo_listing 1000) files1 s'
          = Ok ((files2, Some rep), s2)).
Proof.
  apply (partition_scenario_C demo_mt (demo_listing 1000) demo_store demo_rng).
  - vm_compute. reflexivity.
  - apply demo_listing_in_source_dir. vm_compute. reflexivity.
Defined.

(** A run on a listing of five images of which two have both files in the
    store, one has no label and two do not exist: four go to train, one to
    val; one pair is copied in each part, the others are passed over. *)
Example main_run :
  let run :=
    run_value (main demo_mt (demo_listing 5) demo_store demo_rng) in
  let lookup_in_store (p : string) := run ≫= (fun r => fst r !! p) in
  snd <$> run
  = Some (Some (mk_report
                  ["hotspot_dataset/images/train/hotspot_00000.png";
                   "hotspot_dataset/images/train/hotspot_00004.png";
                   "hotspot_dataset/images/train/hotspot_00003.png";
                   "hotspot_dataset/images/train/hotspot_00001.png"]
                  ["hotspot_dataset/images/train/hotspot_00002.png"]
                  1 1))
  /\ lookup_in_store "yolo_hotspot_data/images/train/hotspot_00000.png"
     = Some "image 0"
  /\ lookup_in_store "yolo_hotspot_data/labels/train/hotspot_00000.txt"
     = Some "label 0"
  /\ lookup_in_store "yolo_hotspot_data/images/train/hotspot_00001.png" = None
  /\ lookup_in_store "yolo_hotspot_data/images/val/hotspot_00002.png"
     = Some "image 2"
  /\ lookup_in_store "yolo_hotspot_data/labels/val/hotspot_00002.txt"
     = Some "label 2".
Proof. repeat split; vm_compute; reflexivity. Qed.

End Partition.

Section CopyFilesRun.

Import split_dataset.

(** Three listed images into the train directories, the second without
    label. *)
Lemma copy_files_skips_missing_labels_witness :
  let dest_img_dir := "yolo_hotspot_data/images/train" in
  let dest_lbl_dir := "yolo_hotspot_data/labels/train" in
  let step := copy_step dest_img_dir dest_lbl_dir SOURCE_LABELS_DIR in
  let label img := get_corresponding_label_file img SOURCE_LABELS_DIR in
  let result :=
    copy_files (demo_listing 3) dest_img_dir dest_lbl_dir SOURCE_LABELS_DIR
      demo_store in
  (forall st img,
      path_exists (fst st) (label img) = false -> step st img = st)
  /\ (forall st img,
        snd (step st img) = snd st + 1
        /\ path_exists (fst st) (label img) = true
        /\ (exists files1,
              shutil_copy img dest_img_dir (fst st) = Ok files1
              /\ shutil_copy (label img) dest_lbl_dir files1
                 = Ok (fst (step st img)))
        \/ snd (step st img) = snd st)
  /\ snd result
     = Z.of_nat (length (List.filter (copyable demo_store SOURCE_LABELS_DIR)
                           (demo_listing 3)))
  /\ (forall l1 img l2,
        demo_listing 3 = l1 ++ img :: l2 ->
        path_exists demo_store (label img) = false ->
        result
        = copy_files (l1 ++ l2) dest_img_dir dest_lbl_dir SOURCE_LABELS_DIR
            demo_store)
  /\ (forall img, img ∈ demo_listing 3 ->
        copyable demo_store SOURCE_LABELS_DIR img = true ->
        Forall (fun t => is_Some (fst result !! t))
          (copy_targets dest_img_dir dest_lbl_dir SOURCE_LABELS_DIR img)).
Proof.
  apply (copy_files_skips_missing_labels "yolo_hotspot_data/images/train"
           "yolo_hotspot_data/labels/train" SOURCE_LABELS_DIR
           (demo_listing 3) demo_store).
  apply (main_separated "yolo_hotspot_data/images/train"
           "yolo_hotspot_data/labels/train" "olo_hotspot_data/images/train"
           "olo_hotspot_data/labels/train" (demo_listing 3)
           eq_refl eq_refl eq_refl eq_refl).
  apply demo_listing_in_source_dir. vm_compute. reflexivity.
Defined.

(** The label path of an image, and a run of [copy_files] over three
    images of which the second has no label: two pairs are copied, and the
    image without label is not. *)
Example label_path_of_image :
  get_corresponding_label_file "hotspot_dataset/images/train/hotspot_00001.png"
    SOURCE_LABELS_DIR
  = "hotspot_dataset/labels/train/hotspot_00001.txt".
Proof. reflexivity. Qed.

Example copy_files_run :
  let result :=
    copy_files (demo_listing 3) "yolo_hotspot_data/images/train"
      "yolo_hotspot_data/labels/train" SOURCE_LABELS_DIR demo_store in
  snd result = 2
  /\ fst result !! "yolo_hotspot_data/images/train/hotspot_00000.png"
     = Some "image 0"
  /\ fst result !! "yolo_hotspot_data/labels/train/hotspot_00000.txt"
     = Some "label 0"
  /\ fst result !! "yolo_hotspot_data/images/train/hotspot_00001.png" = None
  /\ fst result !! "yolo_hotspot_data/labels/train/hotspot_00001.txt" = None
  /\ fst result !! "yolo_hotspot_data/images/train/hotspot_00002.png"
     = Some "image 2".
Proof. repeat split; vm_compute; reflexivity. Qed.

End CopyFilesRun.

(** ** The six decimals of a label *)

Section SixDecimals.

Import generate_yolo_dataset.
Open Scope Q_scope.

Lemma round_half_even_close (x : Q) :
  0 <= x -> Qabs (inject_Z (fmt.round_half_even x) - x) <= 1 # 2.
Proof.
  intros Hx. destruct x as [n d].
  unfold fmt.round_half_even. cbn [Qnum Qden].
  assert (Hn : (0 <= n)%Z).
  { unfold Qle in Hx. cbn in Hx. lia. }
  pose proof (Z.div_mod n (Zpos d) ltac:(lia)) as Hdm.
  pose proof (Z.mod_pos_bound n (Zpos d) ltac:(lia)) as Hr.
  set (q := (n / Zpos d)%Z) in *. set (r := (n mod Zpos d)%Z) in *.
  apply Qabs_Qle_condition.
  assert (K : forall z : Z,
             (2 * Z.abs (z * Zpos d - n) <= Zpos d)%Z ->
             - (1 # 2) <= inject_Z z - (n # d) <= 1 # 2).
  { intros z Hz. unfold Qle, Qminus, Qplus, Qopp, inject_Z. cbn.
    rewrite ?Pos2Z.inj_mul. lia. }
  destruct (Z.ltb_spec (2 * r) (Zpos d)); [apply K; lia |].
  destruct (Z.ltb_spec (Zpos d) (2 * r)); [apply K; lia |].
  destruct (Z.even q); apply K; lia.
Qed.

Lemma rounded6_close (x : Q) : Qabs (rounded6 x - x) <= 1 # 2000000.
Proof.
  unfold rounded6.
  assert (Ha : 0 <= Qabs x * 1000000).
  { pose proof (Qabs_nonneg x). lra. }
  pose proof (round_half_even_close _ Ha) as H.
  apply Qabs_Qle_condition in H. apply Qabs_Qle_condition.
  revert H. generalize (inject_Z (fmt.round_half_even (Qabs x * 1000000))).
  intros m H.
  assert (Hm : m / 1000000 == m * (1 # 1000000)) by field.
  destruct (py.ltb x 0) eqn:E.
  - apply ltb_true in E.
    assert (Hab : Qabs x == - x) by (apply Qabs_neg; lra).
    rewrite Hab in H. rewrite Hm. lra.
  - apply ltb_false in E.
    assert (Hab : Qabs x == x) by (apply Qabs_pos; lra).
    rewrite Hab in H. rewrite Hm. lra.
Qed.

(** Fields that are each within 1/2000000 of the exact ones denormalize
    within 3/4 of a millionth of the canvas size. *)
Lemma denormalize_edge_close (c w c' w' W : Q) :
  Qabs (c' - c) <= 1 # 2000000 -> Qabs (w' - w) <= 1 # 2000000 ->
  0 < W -> W <= 1000000 ->
  Qabs ((c' - w' / 2) * W - (c - w / 2) * W) < 1
  /\ Qabs ((c' + w' / 2) * W - (c + w / 2) * W) < 1.
Proof.
  intros Hc Hw HW0 HW1.
  apply Qabs_Qle_condition in Hc, Hw.
  set (dc := c' - c) in *. set (dw := w' - w) in *.
  assert (E1 : (c' - w' / 2) * W - (c - w / 2) * W == (dc - dw / 2) * W)
    by (subst dc dw; field).
  assert (E2 : (c' + w' / 2) * W - (c + w / 2) * W == (dc + dw / 2) * W)
    by (subst dc dw; field).
  rewrite E1, E2. clear E1 E2. clearbody dc dw.
  assert (Hdw : dw / 2 == dw * (1 # 2)) by field.
  rewrite Hdw.
  assert (B : forall e, - (3 # 4000000) <= e <= 3 # 4000000 -> Qabs (e * W) < 1).
  { intros e [He1 He2]. apply Qabs_Qlt_condition. split; nra. }
  split; apply B; lra.
Qed.

(** X26: the numbers a label holds round-trip too, on canvases up to a
    million pixels a side: denormalizing the four fields rounded to six
    decimals, as the label text gives them, yields the box that was
    normalized within one pixel on every edge. *)
Lemma six_decimals_round_trip (final : bbox) (W H : Z) :
  (0 < W <= 1000000)%Z -> (0 < H <= 1000000)%Z ->
  exists fields,
    normalized final W H = Ok fields
    /\ within_one_pixel (denormalize (rounded_fields fields) W H) final.
Proof.
  intros [HW0 HW1] [HH0 HH1].
  destruct (normalized_round_trip final W H HW0 HH0) as (fields & E & B).
  exists fields. split; [exact E |].
  destruct fields as [[[x y] w] h], final as [[[a b] c] d].
  cbn [denormalize bbox_eq rounded_fields within_one_pixel] in *.
  destruct B as (B1 & B2 & B3 & B4).
  assert (QW0 : 0 < inject_Z W) by (apply inject_Z_pos; exact HW0).
  assert (QH0 : 0 < inject_Z H) by (apply inject_Z_pos; exact HH0).
  assert (QW1 : inject_Z W <= 1000000) by (rewrite Zle_Qle in HW1; exact HW1).
  assert (QH1 : inject_Z H <= 1000000) by (rewrite Zle_Qle in HH1; exact HH1).
  destruct (denormalize_edge_close x w (rounded6 x) (rounded6 w) (inject_Z W)
              (rounded6_close x) (rounded6_close w) QW0 QW1) as [X1 X2].
  destruct (denormalize_edge_close y h (rounded6 y) (rounded6 h) (inject_Z H)
              (rounded6_close y) (rounded6_close h) QH0 QH1) as [Y1 Y2].
  rewrite B1 in X1. rewrite B3 in X2. rewrite B2 in Y1. rewrite B4 in Y2.
  repeat split; assumption.
Qed.

(** The box of Scenario B on the canvas of the scripts. *)
Lemma six_decimals_round_trip_witness :
  exists fields,
    normalized (final_bbox scenario_B 640 640 0.07) 640 640 = Ok fields
    /\ within_one_pixel (denormalize (rounded_fields fields) 640 640)
         (final_bbox scenario_B 640 640 0.07).
Proof.
  apply (six_decimals_round_trip (final_bbox scenario_B 640 640 0.07) 640 640);
    lia.
Defined.

(** On a canvas four million pixels wide six decimals are too few: the
    box (1, 1)-(2, 2) is read back as the origin. *)
Example six_decimals_on_huge_canvas :
  exists fields,
    normalized (1, 1, 2, 2) 4000000 4000000 = Ok fields
    /\ bbox_eq (denormalize (rounded_fields fields) 4000000 4000000)
         (0, 0, 0, 0)
    /\ ~ within_one_pixel (denormalize (rounded_fields fields) 4000000 4000000)
           (1, 1, 2, 2).
Proof.
  eexists. split; [vm_compute; reflexivity |].
  split; [vm_compute; repeat split |].
  intros H. vm_compute in H. destruct H as (_ & _ & H & _). discriminate H.
Qed.

(** The text and the number it denotes, on the fields of Scenario B. *)
Example fixed6_and_rounded6 :
  fmt.fixed6 (17050 # 128000) = "0.133203"%string
  /\ rounded6 (17050 # 128000) == 0.133203.
Proof. split; vm_compute; reflexivity. Qed.

End SixDecimals.

(** ** Scenario B in binary64 *)

Section ScenarioBFloat.

Import PrimFloat.

(** In binary64 the pads are not exactly 7 and 10.5 and the enlarged box is
    not exactly (3, -0.5, 117, 170.5); yet y_min is negative, as in the
    exact computation, and is clamped to 0, and the normalized fields are
    the doubles nearest to (0.09375, 0.133203125, 0.178125, 0.26640625),
    not those of the specification. *)
Example scenario_B_binary64 :
  (let '(_, enlarged_y_min, _, _) :=
     binary64.enlarged_bbox (10, 10, 110, 160)%float
       binary64.BBOX_PADDING_PERCENTAGE in
   ltb enlarged_y_min 0) = true
  /\ binary64.yolo_fields (10, 10, 110, 160)%float 640 640
       binary64.BBOX_PADDING_PERCENTAGE
     = binary64.scenario_B_fields
  /\ binary64.yolo_fields (10, 10, 110, 160)%float 640 640
       binary64.BBOX_PADDING_PERCENTAGE
     <> binary64.scenario_B_specified.
Proof.
  split; [vm_compute; reflexivity |].
  split; [vm_compute; reflexivity |].
  vm_compute. intros H. discriminate H.
Qed.

End ScenarioBFloat.

(** ** The shapes of the polygon generator *)

Section ShapeBoxes.

Import generate_yolo_dataset.

(** X1: generate_rectangle always returns after four draws; the rectangle
    it draws has the corners of the box it returns, sides between
    MIN_SHAPE_SIZE and MAX_SHAPE_SIZE, and lies on the canvas. *)
Theorem generate_rectangle_box (draw : image) (shape_color : color) (s : rng) :
  exists x1 y1 x2 y2,
    generate_rectangle draw shape_color s
    = Ok ((draw_rectangle draw (x1, y1) (x2, y2) shape_color, (x1, y1, x2, y2)),
          advance 4 s)
    /\ 0 <= x1 /\ x2 <= IMAGE_WIDTH /\ 0 <= y1 /\ y2 <= IMAGE_HEIGHT
    /\ MIN_SHAPE_SIZE <= x2 - x1 <= MAX_SHAPE_SIZE
    /\ MIN_SHAPE_SIZE <= y2 - y1 <= MAX_SHAPE_SIZE.
Proof.
  unfold generate_rectangle.
  step_randint width Hw. step_randint height Hh.
  step_randint x1 Hx. step_randint y1 Hy.
  exists x1, y1, (x1 + width), (y1 + height).
  split; [cbn; rewrite !advance_advance; reflexivity |].
  unfold MIN_SHAPE_SIZE, MAX_SHAPE_SIZE, IMAGE_WIDTH, IMAGE_HEIGHT in *. lia.
Qed.

(** X2: generate_square always returns after three draws; the box it
    draws and returns is a square with a side between MIN_SHAPE_SIZE and
    MAX_SHAPE_SIZE, on the canvas. *)
Theorem generate_square_box (draw : image) (shape_color : color) (s : rng) :
  exists x1 y1 side,
    generate_square draw shape_color s
    = Ok ((draw_rectangle draw (x1, y1) (x1 + side, y1 + side) shape_color,
           (x1, y1, x1 + side, y1 + side)), advance 3 s)
    /\ MIN_SHAPE_SIZE <= side <= MAX_SHAPE_SIZE
    /\ 0 <= x1 /\ x1 + side <= IMAGE_WIDTH
    /\ 0 <= y1 /\ y1 + side <= IMAGE_HEIGHT.
Proof.
  unfold generate_square.
  step_randint side Hs. step_randint x1 Hx. step_randint y1 Hy.
  exists x1, y1, side.
  split; [cbn; rewrite !advance_advance; reflexivity |].
  unfold MIN_SHAPE_SIZE, MAX_SHAPE_SIZE, IMAGE_WIDTH, IMAGE_HEIGHT in *. lia.
Qed.

(** X3: generate_circle always returns after three draws; the ellipse it
    draws is inscribed in the box it returns, the square of side 2 * radius
    around the center, with 25 <= radius <= 125, on the canvas. *)
Theorem generate_circle_box (draw : image) (shape_color : color) (s : rng) :
  exists cx cy radius,
    generate_circle draw shape_color s
    = Ok ((draw_ellipse draw (cx - radius, cy - radius)
             (cx + radius, cy + radius) shape_color,
           (cx - radius, cy - radius, cx + radius, cy + radius)), advance 3 s)
    /\ 25 <= radius <= 125
    /\ 0 <= cx - radius /\ cx + radius <= IMAGE_WIDTH
    /\ 0 <= cy - radius /\ cy + radius <= IMAGE_HEIGHT.
Proof.
  unfold generate_circle.
  change (MIN_SHAPE_SIZE / 2) with 25. change (MAX_SHAPE_SIZE / 2) with 125.
  step_randint radius Hr. step_randint cx Hx. step_randint cy Hy.
  exists cx, cy, radius.
  split; [cbn; rewrite !advance_advance; reflexivity |].
  unfold IMAGE_WIDTH, IMAGE_HEIGHT in *. lia.
Qed.

End ShapeBoxes.

Section TriangleShape.

Import generate_yolo_dataset.

Lemma random_vertex_in_window (ox oy w h : Z) (s : rng) :
  0 <= w -> 0 <= h ->
  exists x y, random_vertex ox oy w h s = Ok ((x, y), advance 2 s)
              /\ ox <= x <= ox + w /\ oy <= y <= oy + h.
Proof.
  intros Hw Hh. unfold random_vertex.
  step_randint x Hx. step_randint y Hy.
  exists x, y. split; [cbn; rewrite advance_advance; reflexivity | lia].
Qed.

Lemma sample_candidate_inside (s : rng) (q1 q2 q3 : point) (s' : rng) :
  sample_candidate s = Ok ((q1, q2, q3), s') ->
  Forall inside_canvas [q1; q2; q3].
Proof.
  unfold sample_candidate.
  step_randint w Hw. step_randint h Hh. step_randint ox Hox. step_randint oy Hoy.
  unfold MIN_SHAPE_SIZE, MAX_SHAPE_SIZE, IMAGE_WIDTH, IMAGE_HEIGHT in *.
  destruct (random_vertex_in_window ox oy w h
              (advance 1 (advance 1 (advance 1 (advance 1 s)))))
    as (x1 & y1 & E1 & Hx1 & Hy1); [lia | lia |].
  rewrite (bind_Ok _ _ _ _ _ E1).
  destruct (random_vertex_in_window ox oy w h
              (advance 2 (advance 1 (advance 1 (advance 1 (advance 1 s))))))
    as (x2 & y2 & E2 & Hx2 & Hy2); [lia | lia |].
  rewrite (bind_Ok _ _ _ _ _ E2).
  match goal with
  | |- context [(random_vertex ox oy w h ≫= _) ?st] =>
      destruct (random_vertex_in_window ox oy w h st)
        as (x3 & y3 & E3 & Hx3 & Hy3); [lia | lia |];
      rewrite (bind_Ok _ _ _ _ _ E3)
  end.
  intros [= <- <- <- _].
  unfold inside_canvas, IMAGE_WIDTH, IMAGE_HEIGHT.
  repeat (constructor; [cbn [fst snd]; lia |]). constructor.
Qed.

Lemma envelope_is_envelope (q1 q2 q3 : point) (box : tight) :
  envelope [q1; q2; q3] = Ok box -> is_envelope box [q1; q2; q3].
Proof.
  destruct q1 as [x1 y1], q2 as [x2 y2], q3 as [x3 y3].
  cbn. intros [= <-]. cbn [is_envelope].
  split; [repeat (constructor; [cbn [fst snd]; lia |]); constructor |].
  rewrite !Exists_cons. cbn [fst snd].
  repeat split; lia.
Qed.

Lemma isosceles_area (base height tl_x tl_y : Z) :
  0 <= base -> 0 <= height ->
  get_triangle_area (tl_x + base / 2, tl_y) (tl_x, tl_y + height)
    (tl_x + base, tl_y + height)
  = (0.5 * inject_Z (base * height))%Q.
Proof.
  intros Hb Hh. unfold get_triangle_area. cbn [fst snd].
  do 2 f_equal.
  replace ((tl_x + base / 2) * (tl_y + height - (tl_y + height))
           + tl_x * (tl_y + height - tl_y)
           + (tl_x + base) * (tl_y - (tl_y + height)))
    with (- (base * height)) by ring.
  rewrite Z.abs_opp. apply Z.abs_eq. nia.
Qed.

(** The triangle [generate_triangle] draws, whichever way it was found. *)
Lemma generate_triangle_shape_run (fuel : nat) (draw : image) (c : color)
    (s : rng) :
  (50 <= fuel)%nat ->
  exists q1 q2 q3 box s',
    generate_triangle fuel draw c s
    = Ok ((draw_polygon draw [q1; q2; q3] c, box), s')
    /\ Forall inside_canvas [q1; q2; q3]
    /\ is_envelope box [q1; q2; q3]
    /\ (min_area < get_triangle_area q1 q2 q3)%Q.
Proof.
  intros Hfuel.
  destruct (generate_triangle_run fuel draw c s Hfuel)
    as (q1 & q2 & q3 & box & k & E & Henv & _ & Hcase).
  exists q1, q2, q3, box, (advance k s).
  split; [exact E |].
  split; [| split; [apply envelope_is_envelope; exact Henv |]].
  - destruct Hcase as [(n & _ & _ & (s' & Hs & _) & _) | (_ & _ & _ & Hiso)].
    + apply (sample_candidate_inside _ _ _ _ _ Hs).
    + destruct Hiso as (b & h & tx & ty & Hb & Hh & Hx & Hy & -> & -> & ->).
      unfold MIN_SHAPE_SIZE, MAX_SHAPE_SIZE, IMAGE_WIDTH, IMAGE_HEIGHT in *.
      assert (0 <= b / 2 <= b)
        by (split; [apply Z.div_pos; lia | apply Z.div_le_upper_bound; lia]).
      unfold inside_canvas, IMAGE_WIDTH, IMAGE_HEIGHT.
      repeat (constructor; [cbn [fst snd]; lia |]). constructor.
  - destruct Hcase as [(n & _ & _ & (s' & _ & Ha) & _) | (_ & _ & _ & Hiso)].
    + exact Ha.
    + destruct Hiso as (b & h & tx & ty & Hb & Hh & Hx & Hy & -> & -> & ->).
      unfold MIN_SHAPE_SIZE, MAX_SHAPE_SIZE in *.
      rewrite isosceles_area by lia.
      assert (Hbh : 2500 <= b * h) by nia.
      rewrite Zle_Qle in Hbh. rewrite min_area_value.
      change (inject_Z 2500) with 2500%Q in Hbh. lra.
Qed.

(** X4: with fuel for its 50 passes, generate_triangle draws a triangle
    whose three vertices are on the canvas and whose area exceeds
    MIN_SHAPE_SIZE^2 / 10, also when it falls back to the isosceles
    triangle; the box it returns is the exact envelope of the vertices. *)
Theorem generate_triangle_shape (fuel : nat) (draw : image) (c : color)
    (s : rng) :
  (50 <= fuel)%nat ->
  exists q1 q2 q3 box s',
    generate_triangle fuel draw c s
    = Ok ((draw_polygon draw [q1; q2; q3] c, box), s')
    /\ Forall inside_canvas [q1; q2; q3]
    /\ is_envelope box [q1; q2; q3]
    /\ (min_area < get_triangle_area q1 q2 q3)%Q.
Proof. apply generate_triangle_shape_run. Qed.

(** On the constant stream, where the fallback is taken. *)
Lemma generate_triangle_shape_witness :
  exists q1 q2 q3 box s',
    generate_triangle 50 (Image_new 640 640 (200, 200, 200)) (255, 0, 0)
      (mk_rng (fun _ => 0) 0)
    = Ok ((draw_polygon (Image_new 640 640 (200, 200, 200)) [q1; q2; q3]
             (255, 0, 0), box), s')
    /\ Forall inside_canvas [q1; q2; q3]
    /\ is_envelope box [q1; q2; q3]
    /\ (min_area < get_triangle_area q1 q2 q3)%Q.
Proof.
  apply (generate_triangle_shape 50 (Image_new 640 640 (200, 200, 200))
           (255, 0, 0) (mk_rng (fun _ => 0) 0)).
  lia.
Defined.

End TriangleShape.

Section TriangleArea.

Import generate_yolo_dataset.

Lemma area_cross (p1 p2 p3 : point) :
  get_triangle_area p1 p2 p3 = (0.5 * inject_Z (Z.abs (cross p1 p2 p3)))%Q.
Proof.
  unfold get_triangle_area, cross. do 3 f_equal. ring.
Qed.

(** X5: the area get_triangle_area computes does not depend on the order
    of the vertices nor on where the triangle lies, is never negative, and
    is zero exactly when the vertices are collinear. *)
Theorem get_triangle_area_geometry (p1 p2 p3 d : point) :
  get_triangle_area p2 p1 p3 = get_triangle_area p1 p2 p3
  /\ get_triangle_area p2 p3 p1 = get_triangle_area p1 p2 p3
  /\ get_triangle_area (translate d p1) (translate d p2) (translate d p3)
     = get_triangle_area p1 p2 p3
  /\ (0 <= get_triangle_area p1 p2 p3)%Q
  /\ ((get_triangle_area p1 p2 p3 == 0)%Q <-> cross p1 p2 p3 = 0).
Proof.
  rewrite !area_cross.
  assert (E1 : cross p2 p1 p3 = - cross p1 p2 p3) by (unfold cross; ring).
  assert (E2 : cross p2 p3 p1 = cross p1 p2 p3) by (unfold cross; ring).
  assert (E3 : cross (translate d p1) (translate d p2) (translate d p3)
               = cross p1 p2 p3)
    by (unfold cross, translate; cbn [fst snd]; ring).
  rewrite E1, E2, E3, Z.abs_opp.
  split; [reflexivity |]. split; [reflexivity |]. split; [reflexivity |].
  pose proof (Z.abs_nonneg (cross p1 p2 p3)) as Hn.
  assert (Hq : (0 <= inject_Z (Z.abs (cross p1 p2 p3)))%Q)
    by (rewrite Zle_Qle in Hn; exact Hn).
  split; [revert Hq; generalize (inject_Z (Z.abs (cross p1 p2 p3))); intros; lra |].
  split.
  - intros H0.
    assert (Hz : (inject_Z (Z.abs (cross p1 p2 p3)) == inject_Z 0)%Q).
    { change (inject_Z 0) with 0%Q. revert H0 Hq.
      generalize (inject_Z (Z.abs (cross p1 p2 p3))). intros. clear -H0 Hq. lra. }
    unfold Qeq in Hz. cbn in Hz. lia.
  - intros ->. reflexivity.
Qed.

End TriangleArea.

(** ** The color pair of the polygon generator *)

Section ColorPair.

Import generate_yolo_dataset.

Lemma choice_Ok {A} (seq : list A) (s s' : rng) (x : A) :
  random.choice seq s = Ok (x, s') -> x ∈ seq.
Proof.
  intros E. destruct seq as [| x0 seq']; [discriminate E |].
  destruct (returns_choice (x0 :: seq') s (fun y _ => y ∈ x0 :: seq'))
    as (y & s'' & E' & Hy); [discriminate | auto |].
  rewrite E in E'. injection E' as -> _. exact Hy.
Qed.

Lemma resample_color_Ok (fuel : nat) :
  forall (bg sc : color) (scs : list color) (s s' : rng) (r : color),
    sc ∈ scs ->
    resample_color fuel bg sc scs s = Ok (r, s') ->
    r ∈ scs /\ r <> bg.
Proof.
  induction fuel as [| fuel IH]; intros bg sc scs s s' r Hsc E;
    cbn [resample_color] in E; unfold color_eqb in E;
    destruct (bool_decide_reflect (sc = bg)) as [Heq | Hne].
  - discriminate E.
  - injection E as <- _. split; assumption.
  - unfold mbind, M_bind in E.
    destruct (random.choice scs s) as [[sc' s1] |] eqn:Ec; [| discriminate E].
    apply (IH bg sc' scs s1 s' r); [apply (choice_Ok _ _ _ _ Ec) | exact E].
  - injection E as <- _. split; assumption.
Qed.

(** X6: whenever get_random_color_pair returns, the background color is
    one of bg_colors, the shape color is one of shape_colors, and the two
    differ. *)
Theorem get_random_color_pair_distinct (fuel : nat)
    (bg_colors shape_colors : list color) (s s' : rng)
    (bg_color shape_color : color) :
  get_random_color_pair fuel bg_colors shape_colors s
  = Ok ((bg_color, shape_color), s') ->
  bg_color ∈ bg_colors /\ shape_color ∈ shape_colors
  /\ shape_color <> bg_color.
Proof.
  unfold get_random_color_pair, mbind, M_bind. intros E.
  destruct (random.choice bg_colors s) as [[bg s1] |] eqn:E1; [| discriminate E].
  destruct (random.choice shape_colors s1) as [[sc s2] |] eqn:E2;
    [| discriminate E].
  destruct (resample_color fuel bg sc shape_colors s2) as [[sc' s3] |] eqn:E3;
    [| discriminate E].
  injection E as <- <- _.
  split; [apply (choice_Ok _ _ _ _ E1) |].
  apply (resample_color_Ok fuel bg sc shape_colors s2 s3 sc');
    [apply (choice_Ok _ _ _ _ E2) | exact E3].
Qed.

(** With the palettes of the script, on the example stream. *)
Lemma get_random_color_pair_distinct_witness :
  (255, 182, 193) ∈ BACKGROUND_COLORS /\ (255, 0, 0) ∈ SHAPE_COLORS
  /\ (255, 0, 0) <> ((255, 182, 193) : color).
Proof.
  apply (get_random_color_pair_distinct 0 BACKGROUND_COLORS SHAPE_COLORS
           demo_rng (advance 2 demo_rng)).
  vm_compute. reflexivity.
Defined.

Lemma resample_color_stuck (fuel : nat) :
  forall (c : color) (scs : list color) (s : rng),
    scs <> [] -> (forall x, x ∈ scs -> x = c) ->
    resample_color fuel c c scs s = Raise FuelExhausted.
Proof.
  induction fuel as [| fuel IH]; intros c scs s Hne Hall;
    cbn [resample_color]; unfold color_eqb;
    rewrite bool_decide_eq_true_2 by reflexivity; [reflexivity |].
  destruct (returns_choice scs s (fun y _ => y = c)) as (y & s1 & E & ->);
    [exact Hne | intros x Hx; apply Hall; exact Hx |].
  rewrite (bind_Ok _ _ _ _ _ E). apply IH; assumption.
Qed.

(** X7: when every background color and every shape color is the same
    color, the resampling loop of get_random_color_pair never ends: no
    amount of fuel lets it return. *)
Theorem get_random_color_pair_never_ends (fuel : nat) (c : color)
    (bg_colors shape_colors : list color) (s : rng) :
  bg_colors <> [] -> shape_colors <> [] ->
  (forall x, x ∈ bg_colors -> x = c) ->
  (forall x, x ∈ shape_colors -> x = c) ->
  get_random_color_pair fuel bg_colors shape_colors s = Raise FuelExhausted.
Proof.
  intros Hb Hs Hbc Hsc. unfold get_random_color_pair.
  destruct (returns_choice bg_colors s (fun y _ => y = c)) as (y & s1 & E & ->);
    [exact Hb | intros x Hx; apply Hbc; exact Hx |].
  rewrite (bind_Ok _ _ _ _ _ E).
  destruct (returns_choice shape_colors s1 (fun y _ => y = c))
    as (y & s2 & E' & ->);
    [exact Hs | intros x Hx; apply Hsc; exact Hx |].
  rewrite (bind_Ok _ _ _ _ _ E').
  unfold mbind, M_bind.
  rewrite (resample_color_stuck fuel c shape_colors s2 Hs Hsc). reflexivity.
Qed.

(** Black on black, with a thousand passes. *)
Lemma get_random_color_pair_never_ends_witness :
  get_random_color_pair 1000 [(0, 0, 0)] [(0, 0, 0); (0, 0, 0)] demo_rng
  = Raise FuelExhausted.
Proof.
  apply (get_random_color_pair_never_ends 1000 (0, 0, 0));
    try discriminate;
    intros x Hx; repeat (apply elem_of_cons in Hx as [-> | Hx]; [reflexivity |]);
    apply elem_of_nil in Hx; contradiction.
Defined.

End ColorPair.

(** ** The annotators on every input *)

Section AnnotatorRange.

Import generate_yolo_dataset.
Open Scope Q_scope.

Lemma inject_Z_le (a b : Z) : (a <= b)%Z -> inject_Z a <= inject_Z b.
Proof. intros E. rewrite <- Zle_Qle. exact E. Qed.

Lemma inject_Z_lt (a b : Z) : (a < b)%Z -> inject_Z a < inject_Z b.
Proof. intros E. rewrite <- Zlt_Qlt. exact E. Qed.

Lemma repair_span_inside (lo hi : Q) (limit : Z) :
  (1 <= limit)%Z -> 0 <= lo -> hi <= inject_Z limit ->
  0 <= fst (repair_span lo hi limit)
  /\ fst (repair_span lo hi limit) < snd (repair_span lo hi limit)
  /\ snd (repair_span lo hi limit) <= inject_Z limit.
Proof.
  intros HW Hlo Hhi.
  destruct (Qlt_le_dec lo hi) as [Hlt | Hge].
  - rewrite repair_span_keeps by exact Hlt. cbn [fst snd]. lra.
  - apply repair_span_bounds; assumption.
Qed.

Lemma final_bbox_inside (tb : bbox) (W H : Z) (pad : Q) :
  (1 <= W)%Z -> (1 <= H)%Z -> box_on_canvas (final_bbox tb W H pad) W H.
Proof.
  intros HW HH.
  destruct (final_edges tb W H pad) as (Fx1 & Fx2 & Fy1 & Fy2).
  destruct (clamped_min_nonneg (enlarged_bbox tb pad) W H) as [Nx Ny].
  destruct (clamped_edges (enlarged_bbox tb pad) W H) as (_ & _ & Cx & Cy).
  set (cl := clamped_bbox (enlarged_bbox tb pad) W H) in *.
  assert (Ux : x_max_of cl <= inject_Z W) by (rewrite Cx; apply min_upper).
  assert (Uy : y_max_of cl <= inject_Z H) by (rewrite Cy; apply min_upper).
  destruct (repair_span_inside _ _ W HW Nx Ux) as (X1 & X2 & X3).
  destruct (repair_span_inside _ _ H HH Ny Uy) as (Y1 & Y2 & Y3).
  unfold box_on_canvas. rewrite Fx1, Fx2, Fy1, Fy2. repeat split; assumption.
Qed.

Lemma normalized_in_unit_square (f : bbox) (W H : Z) :
  box_on_canvas f W H ->
  exists fields, normalized f W H = Ok fields /\ in_unit_square fields.
Proof.
  destruct f as [[[a b] c] d].
  unfold box_on_canvas, x_min_of, y_min_of, x_max_of, y_max_of. cbn [fst snd].
  intros (A1 & A2 & A3 & B1 & B2 & B3).
  assert (QW : 0 < inject_Z W) by lra.
  assert (QH : 0 < inject_Z H) by lra.
  assert (HW : (0 < W)%Z) by (rewrite Zlt_Qlt; exact QW).
  assert (HH : (0 < H)%Z) by (rewrite Zlt_Qlt; exact QH).
  unfold normalized.
  rewrite !(truediv_inject_pos _ W HW), !(truediv_inject_pos _ H HH).
  eexists. split; [reflexivity |].
  revert A3 B3 QW QH. generalize (inject_Z W) (inject_Z H). intros w h A3 B3 QW QH.
  cbn [in_unit_square].
  assert (E1 : (a + c) / 2 / w - (c - a) / w / 2 == a / w) by (field; lra).
  assert (E2 : (a + c) / 2 / w + (c - a) / w / 2 == c / w) by (field; lra).
  assert (E3 : (b + d) / 2 / h - (d - b) / h / 2 == b / h) by (field; lra).
  assert (E4 : (b + d) / 2 / h + (d - b) / h / 2 == d / h) by (field; lra).
  rewrite E1, E2, E3, E4.
  repeat split;
    first [ apply Qlt_shift_div_l; [assumption | lra]
          | apply Qle_shift_div_r; [assumption | lra]
          | apply Qle_shift_div_l; [assumption | lra] ].
Qed.

(** X8: on a canvas of at least one pixel each way, for every tight box
    and every padding, the box the polygon annotator normalizes lies on the
    canvas with positive width and height, and the normalized annotation
    describes a box inside the unit square: 0 < width_norm <= 1,
    0 < height_norm <= 1, and center minus and plus half the size stay in
    [0, 1]. *)
Theorem annotation_in_unit_square (tb : bbox) (W H : Z) (pad : Q) :
  (1 <= W)%Z -> (1 <= H)%Z ->
  box_on_canvas (final_bbox tb W H pad) W H
  /\ exists fields,
       yolo_fields tb W H pad = Ok fields /\ in_unit_square fields.
Proof.
  intros HW HH.
  pose proof (final_bbox_inside tb W H pad HW HH) as Hin.
  split; [exact Hin |]. apply normalized_in_unit_square. exact Hin.
Qed.

(** A box far outside a 3 x 2 canvas, with a negative padding. *)
Lemma annotation_in_unit_square_witness :
  box_on_canvas (final_bbox (-50, 7, -20, 9) 3 2 (-0.6)) 3 2
  /\ exists fields,
       yolo_fields (-50, 7, -20, 9) 3 2 (-0.6) = Ok fields
       /\ in_unit_square fields.
Proof. apply (annotation_in_unit_square (-50, 7, -20, 9) 3 2 (-0.6)); lia. Defined.


Lemma final_bbox_no_repair (x1 y1 x2 y2 W H : Z) (pad : Q) :
  (0 <= x1 < x2)%Z -> (x2 <= W)%Z -> (0 <= y1 < y2)%Z -> (y2 <= H)%Z ->
  0 <= pad ->
  let f := final_bbox (to_bbox (x1, y1, x2, y2)) W H pad in
  let dx := (inject_Z x2 - inject_Z x1) * pad in
  let dy := (inject_Z y2 - inject_Z y1) * pad in
  x_min_of f = py.max 0 (inject_Z x1 - dx)
  /\ y_min_of f = py.max 0 (inject_Z y1 - dy)
  /\ x_max_of f = py.min (inject_Z W) (inject_Z x2 + dx)
  /\ y_max_of f = py.min (inject_Z H) (inject_Z y2 + dy).
Proof.
  intros Hx HxW Hy HyH Hpad f dx dy.
  destruct (final_edges (to_bbox (x1, y1, x2, y2)) W H pad)
    as (Fx1 & Fx2 & Fy1 & Fy2).
  fold f in Fx1, Fx2, Fy1, Fy2.
  destruct (clamped_edges (enlarged_bbox (to_bbox (x1, y1, x2, y2)) pad) W H)
    as (Cx1 & Cy1 & Cx2 & Cy2).
  rewrite Cx1, Cx2 in Fx1, Fx2. rewrite Cy1, Cy2 in Fy1, Fy2.
  change (x_min_of (enlarged_bbox (to_bbox (x1, y1, x2, y2)) pad))
    with (inject_Z x1 - dx) in *.
  change (x_max_of (enlarged_bbox (to_bbox (x1, y1, x2, y2)) pad))
    with (inject_Z x2 + dx) in *.
  change (y_min_of (enlarged_bbox (to_bbox (x1, y1, x2, y2)) pad))
    with (inject_Z y1 - dy) in *.
  change (y_max_of (enlarged_bbox (to_bbox (x1, y1, x2, y2)) pad))
    with (inject_Z y2 + dy) in *.
  assert (Qx1 : 0 <= inject_Z x1) by (apply (inject_Z_le 0); lia).
  assert (Qx : inject_Z x1 < inject_Z x2) by (apply inject_Z_lt; lia).
  assert (QxW : inject_Z x2 <= inject_Z W) by (apply inject_Z_le; lia).
  assert (Qy1 : 0 <= inject_Z y1) by (apply (inject_Z_le 0); lia).
  assert (Qy : inject_Z y1 < inject_Z y2) by (apply inject_Z_lt; lia).
  assert (QyH : inject_Z y2 <= inject_Z H) by (apply inject_Z_le; lia).
  assert (Dx : 0 <= dx) by (subst dx; apply Qmult_le_0_compat; lra).
  assert (Dy : 0 <= dy) by (subst dy; apply Qmult_le_0_compat; lra).
  assert (Lx : py.max 0 (inject_Z x1 - dx) < py.min (inject_Z W) (inject_Z x2 + dx)).
  { unfold py.max, py.min.
    destruct (Qlt_le_dec 0 (inject_Z x1 - dx)),
             (Qlt_le_dec (inject_Z x2 + dx) (inject_Z W)); lra. }
  assert (Ly : py.max 0 (inject_Z y1 - dy) < py.min (inject_Z H) (inject_Z y2 + dy)).
  { unfold py.max, py.min.
    destruct (Qlt_le_dec 0 (inject_Z y1 - dy)),
             (Qlt_le_dec (inject_Z y2 + dy) (inject_Z H)); lra. }
  rewrite (repair_span_keeps _ _ W Lx) in Fx1, Fx2.
  rewrite (repair_span_keeps _ _ H Ly) in Fy1, Fy2.
  repeat split; assumption.
Qed.

(** X9: for a shape whose tight box has integer corners, positive width
    and height and lies on the canvas, and a padding that is not negative,
    the box the polygon annotator normalizes encloses the tight box, stays
    on the canvas, and no edge is moved outward by more than the padding
    times the size of the tight box along that axis. *)
Theorem padded_box_encloses_shape (x1 y1 x2 y2 W H : Z) (pad : Q) :
  (0 <= x1 < x2)%Z -> (x2 <= W)%Z -> (0 <= y1 < y2)%Z -> (y2 <= H)%Z ->
  0 <= pad ->
  let f := final_bbox (to_bbox (x1, y1, x2, y2)) W H pad in
  (0 <= x_min_of f /\ x_min_of f <= inject_Z x1
   /\ inject_Z x2 <= x_max_of f /\ x_max_of f <= inject_Z W)
  /\ (0 <= y_min_of f /\ y_min_of f <= inject_Z y1
      /\ inject_Z y2 <= y_max_of f /\ y_max_of f <= inject_Z H)
  /\ inject_Z x1 - x_min_of f <= inject_Z (x2 - x1) * pad
  /\ x_max_of f - inject_Z x2 <= inject_Z (x2 - x1) * pad
  /\ inject_Z y1 - y_min_of f <= inject_Z (y2 - y1) * pad
  /\ y_max_of f - inject_Z y2 <= inject_Z (y2 - y1) * pad.
Proof.
  intros Hx HxW Hy HyH Hpad f.
  destruct (final_bbox_no_repair x1 y1 x2 y2 W H pad Hx HxW Hy HyH Hpad)
    as (E1 & E2 & E3 & E4).
  fold f in E1, E2, E3, E4. rewrite E1, E2, E3, E4.
  assert (Qx1 : 0 <= inject_Z x1) by (apply (inject_Z_le 0); lia).
  assert (Qx : inject_Z x1 < inject_Z x2) by (apply inject_Z_lt; lia).
  assert (QxW : inject_Z x2 <= inject_Z W) by (apply inject_Z_le; lia).
  assert (Qy1 : 0 <= inject_Z y1) by (apply (inject_Z_le 0); lia).
  assert (Qy : inject_Z y1 < inject_Z y2) by (apply inject_Z_lt; lia).
  assert (QyH : inject_Z y2 <= inject_Z H) by (apply inject_Z_le; lia).
  unfold Z.sub. rewrite !inject_Z_plus, !inject_Z_opp.
  set (dx := (inject_Z x2 - inject_Z x1) * pad).
  set (dy := (inject_Z y2 - inject_Z y1) * pad).
  assert (Dx : 0 <= dx) by (subst dx; apply Qmult_le_0_compat; lra).
  assert (Dy : 0 <= dy) by (subst dy; apply Qmult_le_0_compat; lra).
  assert (Ex : (inject_Z x2 + - inject_Z x1) * pad == dx) by (subst dx; ring).
  assert (Ey : (inject_Z y2 + - inject_Z y1) * pad == dy) by (subst dy; ring).
  rewrite Ex, Ey. clearbody dx dy.
  unfold py.max, py.min.
  destruct (Qlt_le_dec 0 (inject_Z x1 - dx)),
           (Qlt_le_dec (inject_Z x2 + dx) (inject_Z W)),
           (Qlt_le_dec 0 (inject_Z y1 - dy)),
           (Qlt_le_dec (inject_Z y2 + dy) (inject_Z H));
    repeat split; lra.
Qed.

(** A 100 x 150 box near the top edge, with the padding of the script. *)
Lemma padded_box_encloses_shape_witness :
  let f := final_bbox (to_bbox (10, 10, 110, 160)%Z) 640 640 0.07 in
  (0 <= x_min_of f /\ x_min_of f <= inject_Z 10
   /\ inject_Z 110 <= x_max_of f /\ x_max_of f <= inject_Z 640)
  /\ (0 <= y_min_of f /\ y_min_of f <= inject_Z 10
      /\ inject_Z 160 <= y_max_of f /\ y_max_of f <= inject_Z 640)
  /\ inject_Z 10 - x_min_of f <= inject_Z (110 - 10) * 0.07
  /\ x_max_of f - inject_Z 110 <= inject_Z (110 - 10) * 0.07
  /\ inject_Z 10 - y_min_of f <= inject_Z (160 - 10) * 0.07
  /\ y_max_of f - inject_Z 160 <= inject_Z (160 - 10) * 0.07.
Proof.
  apply (padded_box_encloses_shape 10 10 110 160 640 640 0.07);
    first [lia | discriminate].
Defined.

(** X10: with a padding of zero, on a box with integer corners, positive
    width and height that lies on the canvas, the annotator of the polygon
    generator and the one of the ring generator compute the same four
    fields (as exact numbers). *)
Theorem annotators_agree_without_padding (x1 y1 x2 y2 W H : Z) :
  (0 <= x1 < x2)%Z -> (x2 <= W)%Z -> (0 <= y1 < y2)%Z -> (y2 <= H)%Z ->
  exists fields c x y w h,
    yolo_fields (to_bbox (x1, y1, x2, y2)) W H 0 = Ok fields
    /\ generate_dataset.to_yolo_format (x1, y1, x2, y2) W H = Ok (c, x, y, w, h)
    /\ bbox_eq fields (x, y, w, h).
Proof.
  intros Hx HxW Hy HyH.
  assert (Hpad : 0 <= 0) by lra.
  pose proof (final_bbox_no_repair x1 y1 x2 y2 W H 0 Hx HxW Hy HyH Hpad)
    as (E1 & E2 & E3 & E4).
  assert (HW : (0 < W)%Z) by lia. assert (HH : (0 < H)%Z) by lia.
  assert (Qx1 : 0 <= inject_Z x1) by (apply (inject_Z_le 0); lia).
  assert (QxW : inject_Z x2 <= inject_Z W) by (apply inject_Z_le; lia).
  assert (Qy1 : 0 <= inject_Z y1) by (apply (inject_Z_le 0); lia).
  assert (QyH : inject_Z y2 <= inject_Z H) by (apply inject_Z_le; lia).
  unfold yolo_fields.
  destruct (final_bbox (to_bbox (x1, y1, x2, y2)) W H 0) as [[[a b] c] d].
  unfold x_min_of, y_min_of, x_max_of, y_max_of in E1, E2, E3, E4.
  cbn [fst snd] in E1, E2, E3, E4. subst a b c d.
  unfold normalized, generate_dataset.to_yolo_format.
  rewrite !(truediv_inject_pos _ W HW), !(truediv_inject_pos _ H HH).
  do 6 eexists. split; [reflexivity |]. split; [reflexivity |].
  apply inject_Z_pos in HW, HH.
  assert (A1 : py.max 0 (inject_Z x1 - (inject_Z x2 - inject_Z x1) * 0)
               == inject_Z x1) by (etransitivity; [apply max_id; lra | ring]).
  assert (A2 : py.max 0 (inject_Z y1 - (inject_Z y2 - inject_Z y1) * 0)
               == inject_Z y1) by (etransitivity; [apply max_id; lra | ring]).
  assert (A3 : py.min (inject_Z W) (inject_Z x2 + (inject_Z x2 - inject_Z x1) * 0)
               == inject_Z x2) by (etransitivity; [apply min_id; lra | ring]).
  assert (A4 : py.min (inject_Z H) (inject_Z y2 + (inject_Z y2 - inject_Z y1) * 0)
               == inject_Z y2) by (etransitivity; [apply min_id; lra | ring]).
  cbn [bbox_eq]. rewrite A1, A2, A3, A4.
  unfold Z.sub. rewrite !inject_Z_plus, !inject_Z_opp.
  repeat split; field; lra.
Qed.

(** The outer box of Scenario A on the canvas of the scripts. *)
Lemma annotators_agree_without_padding_witness :
  exists fields c x y w h,
    yolo_fields (to_bbox (120, 120, 520, 520)%Z) 640 640 0 = Ok fields
    /\ generate_dataset.to_yolo_format (120, 120, 520, 520)%Z 640 640
       = Ok (c, x, y, w, h)
    /\ bbox_eq fields (x, y, w, h).
Proof.
  apply (annotators_agree_without_padding 120 120 520 520 640 640); lia.
Defined.

(** X11: both annotators divide by the width and the height of the
    canvas: they raise ZeroDivisionError when one of the two is zero,
    whatever the box, and return when neither is. *)
Theorem annotators_on_empty_canvas (tb : bbox) (t : tight) (class_id W H : Z)
    (pad : Q) :
  ((W = 0 \/ H = 0)%Z ->
     calculate_yolo_annotation tb class_id W H pad = Raise ZeroDivisionError
     /\ generate_dataset.to_yolo_format t W H = Raise ZeroDivisionError)
  /\ (W <> 0%Z -> H <> 0%Z ->
        is_Ok (calculate_yolo_annotation tb class_id W H pad) = true
        /\ is_Ok (generate_dataset.to_yolo_format t W H) = true).
Proof.
  assert (T0 : forall a, py.truediv a (inject_Z 0) = Raise ZeroDivisionError)
    by reflexivity.
  assert (T1 : forall a n, n <> 0%Z -> py.truediv a (inject_Z n) = Ok (a / inject_Z n)).
  { intros a n Hn. apply truediv_ok. intros E.
    apply Hn. unfold Qeq in E. cbn in E. lia. }
  unfold calculate_yolo_annotation, yolo_fields.
  destruct (final_bbox tb W H pad) as [[[a b] c] d].
  destruct t as [[[x1 y1] x2] y2].
  unfold normalized, generate_dataset.to_yolo_format.
  split.
  - intros [-> | ->].
    + rewrite !T0. split; reflexivity.
    + rewrite !T0.
      destruct (Z.eq_dec W 0%Z) as [-> | HW]; [rewrite !T0; split; reflexivity |].
      rewrite !(T1 _ W HW). split; reflexivity.
  - intros HW HH. rewrite !(T1 _ W HW), !(T1 _ H HH). split; reflexivity.
Qed.

End AnnotatorRange.

(** ** The ring annotator *)

Section RingAnnotator.

Import generate_dataset.

(** X12: for all integers, the box calculate_visible_bbox returns is the
    intersection of the outer box of the target with the canvas: a pixel
    position lies in it exactly when it lies in both. *)
Theorem visible_bbox_is_intersection (cx cy r_outer img_w img_h x y : Z) :
  let '(x_min, y_min, x_max, y_max) :=
    calculate_visible_bbox cx cy r_outer img_w img_h in
  (x_min <= x <= x_max /\ y_min <= y <= y_max)
  <-> (cx - r_outer <= x <= cx + r_outer /\ cy - r_outer <= y <= cy + r_outer
       /\ 0 <= x <= img_w /\ 0 <= y <= img_h).
Proof. unfold calculate_visible_bbox. lia. Qed.

(** X13: on a canvas of positive width and height the ring annotator
    returns the class id 0 and four fields; the normalized width is
    positive exactly when x_min < x_max, the normalized height exactly when
    y_min < y_max, and for a box that lies on the canvas the annotated box
    lies in the unit square. *)
Theorem to_yolo_format_fields (x1 y1 x2 y2 W H : Z) :
  0 < W -> 0 < H ->
  exists x y w h,
    to_yolo_format (x1, y1, x2, y2) W H = Ok (0, x, y, w, h)
    /\ ((0 < w)%Q <-> x1 < x2) /\ ((0 < h)%Q <-> y1 < y2)
    /\ (0 <= x1 -> x1 <= x2 -> x2 <= W ->
        (0 <= x - w / 2 /\ x + w / 2 <= 1 /\ w <= 1)%Q)
    /\ (0 <= y1 -> y1 <= y2 -> y2 <= H ->
        (0 <= y - h / 2 /\ y + h / 2 <= 1 /\ h <= 1)%Q).
Proof.
  intros HW HH. unfold to_yolo_format.
  rewrite (truediv_inject_pos _ W HW), (truediv_inject_pos _ H HH).
  do 4 eexists. split; [reflexivity |].
  apply inject_Z_pos in HW, HH.
  unfold Z.sub. rewrite !inject_Z_plus, !inject_Z_opp.
  rewrite (Zlt_Qlt x1 x2), (Zlt_Qlt y1 y2).
  rewrite (Zle_Qle 0 x1), (Zle_Qle x1 x2), (Zle_Qle x2 W).
  rewrite (Zle_Qle 0 y1), (Zle_Qle y1 y2), (Zle_Qle y2 H).
  change (inject_Z 0) with 0%Q.
  revert HW HH.
  generalize (inject_Z x1) (inject_Z y1) (inject_Z x2) (inject_Z y2)
             (inject_Z W) (inject_Z H).
  intros a b c d w h HW HH.
  assert (Iw : (0 < 1 / w)%Q) by (apply Qlt_shift_div_l; lra).
  assert (Ih : (0 < 1 / h)%Q) by (apply Qlt_shift_div_l; lra).
  assert (Ew : (w * (1 / w) == 1)%Q) by (field; lra).
  assert (Eh : (h * (1 / h) == 1)%Q) by (field; lra).
  revert Iw Ih Ew Eh. generalize (1 / w)%Q (1 / h)%Q. intros iw ih Iw Ih Ew Eh.
  assert (P1 : forall t i : Q, (0 < i -> 0 <= t -> 0 <= t * i)%Q)
    by (intros; apply Qmult_le_0_compat; lra).
  assert (P2 : forall t i : Q, (0 < i -> 0 < t -> 0 < t * i)%Q)
    by (intros; apply Qmult_lt_0_compat; lra).
  assert (P3 : forall t i : Q, (0 < i -> 0 < t * i -> 0 < t)%Q).
  { intros t i Hi Ht. destruct (Qlt_le_dec 0 t) as [Hp | Hn]; [exact Hp |].
    pose proof (P1 (- t)%Q i Hi). lra. }
  split; [split; intros Hs; [apply P3 in Hs; lra | apply P2; lra] |].
  split; [split; intros Hs; [apply P3 in Hs; lra | apply P2; lra] |].
  split.
  - intros A1 A2 A3.
    pose proof (P1 a iw Iw A1).
    assert (0 <= (w - c) * iw)%Q by (apply P1; lra).
    assert (0 <= (c - a) * iw)%Q by (apply P1; lra).
    assert (E1 : ((a + c) / 2 * iw - (c + - a) * iw / 2 == a * iw)%Q) by field.
    assert (E2 : ((a + c) / 2 * iw + (c + - a) * iw / 2 == c * iw)%Q) by field.
    rewrite E1, E2. repeat split; lra.
  - intros B1 B2 B3.
    pose proof (P1 b ih Ih B1).
    assert (0 <= (h - d) * ih)%Q by (apply P1; lra).
    assert (0 <= (d - b) * ih)%Q by (apply P1; lra).
    assert (E1 : ((b + d) / 2 * ih - (d + - b) * ih / 2 == b * ih)%Q) by field.
    assert (E2 : ((b + d) / 2 * ih + (d + - b) * ih / 2 == d * ih)%Q) by field.
    rewrite E1, E2. repeat split; lra.
Qed.

(** The outer box of Scenario A. *)
Lemma to_yolo_format_fields_witness :
  exists x y w h,
    to_yolo_format (120, 120, 520, 520) 640 640 = Ok (0, x, y, w, h)
    /\ ((0 < w)%Q <-> 120 < 520) /\ ((0 < h)%Q <-> 120 < 520)
    /\ (0 <= 120 -> 120 <= 520 -> 520 <= 640 ->
        (0 <= x - w / 2 /\ x + w / 2 <= 1 /\ w <= 1)%Q)
    /\ (0 <= 120 -> 120 <= 520 -> 520 <= 640 ->
        (0 <= y - h / 2 /\ y + h / 2 <= 1 /\ h <= 1)%Q).
Proof. apply (to_yolo_format_fields 120 120 520 520 640 640); lia. Defined.

End RingAnnotator.

(** ** The augmentations of the ring generator *)

Section Augmentation.

Import generate_dataset.

Lemma random_Ok (s : rng) :
  exists u, random.random s = Ok (u, advance 1 s) /\ (0 <= u < 1)%Q.
Proof.
  exists (Qmake (stream s (pos s) mod 2 ^ 53) (2 ^ 53)).
  split; [reflexivity |].
  pose proof (Z.mod_pos_bound (stream s (pos s)) (2 ^ 53) eq_refl) as Hm.
  unfold Qle, Qlt. cbn [Qnum Qden].
  change (Z.pos (2 ^ 53)) with (2 ^ 53).
  lia.
Qed.

Lemma uniform_Ok (a b : Q) (s : rng) :
  (a <= b)%Q ->
  exists v, random.uniform a b s = Ok (v, advance 1 s) /\ (a <= v <= b)%Q.
Proof.
  intros Hab. destruct (random_Ok s) as (u & E & Hu).
  exists (a + (b - a) * u)%Q. split.
  - unfold random.uniform. rewrite (bind_Ok _ _ _ _ _ E). reflexivity.
  - assert (0 <= (b - a) * u)%Q by (apply Qmult_le_0_compat; lra).
    assert (0 <= (b - a) * (1 - u))%Q by (apply Qmult_le_0_compat; lra).
    split; lra.
Qed.

Lemma np_clip_inside (v lo hi : Q) : (lo <= v)%Q -> (v <= hi)%Q -> np_clip v lo hi = v.
Proof.
  intros H1 H2. unfold np_clip, py.max, py.min.
  destruct (Qlt_le_dec v lo) as [H | _]; [lra |].
  destruct (Qlt_le_dec hi v) as [H | _]; [lra | reflexivity].
Qed.

(** Runs one [uniform] of a chain: names the value and its range. *)
Ltac step_uniform v Hv :=
  match goal with
  | |- context [(random.uniform ?a ?b ≫= ?f) ?s] =>
      let E := fresh "E" in
      destruct (uniform_Ok a b s) as (v & E & Hv);
      [ lra | rewrite (bind_Ok _ f s _ v E); clear E ]
  end.

(** X14: on an image of at least one row and one column, with a shift
    ratio between 0 and 0.2, apply_perspective_transform draws eight numbers
    and warps the four corners of the image to the corners displaced by
    (dx_i, dy_i) with |dx_i| <= cols * ratio and |dy_i| <= rows * ratio: the
    clip to [-0.2 cols, 1.2 cols] x [-0.2 rows, 1.2 rows] changes none of
    them. *)
Theorem perspective_transform_corners (img : image) (max_shift_ratio : Q)
    (s : rng) :
  (0 <= max_shift_ratio)%Q -> (max_shift_ratio <= 0.2)%Q ->
  1 <= fst (shape img) -> 1 <= snd (shape img) ->
  let rows := inject_Z (fst (shape img)) in
  let cols := inject_Z (snd (shape img)) in
  exists dx1 dy1 dx2 dy2 dx3 dy3 dx4 dy4,
    apply_perspective_transform img max_shift_ratio s
    = Ok (cv2_warpPerspective img
            [(0, 0); (cols - 1, 0); (0, rows - 1); (cols - 1, rows - 1)]%Q
            [(dx1, dy1); (cols - 1 + dx2, dy2);
             (dx3, rows - 1 + dy3); (cols - 1 + dx4, rows - 1 + dy4)]%Q,
          advance 8 s)
    /\ Forall (fun d => - (cols * max_shift_ratio) <= d <= cols * max_shift_ratio)%Q
         [dx1; dx2; dx3; dx4]
    /\ Forall (fun d => - (rows * max_shift_ratio) <= d <= rows * max_shift_ratio)%Q
         [dy1; dy2; dy3; dy4].
Proof.
  intros Hr0 Hr1 Hrows Hcols. unfold apply_perspective_transform.
  destruct (shape img) as [rows cols]. cbn [fst snd] in *.
  apply inject_Z_ge1 in Hrows, Hcols.
  revert Hrows Hcols. generalize (inject_Z rows) (inject_Z cols).
  intros r c Hr Hc. cbv zeta.
  assert (Mx : (0 <= c * max_shift_ratio)%Q) by (apply Qmult_le_0_compat; lra).
  assert (My : (0 <= r * max_shift_ratio)%Q) by (apply Qmult_le_0_compat; lra).
  assert (Bx : (c * max_shift_ratio <= c * 0.2)%Q).
  { assert (0 <= c * (0.2 - max_shift_ratio))%Q
      by (apply Qmult_le_0_compat; lra). lra. }
  assert (By : (r * max_shift_ratio <= r * 0.2)%Q).
  { assert (0 <= r * (0.2 - max_shift_ratio))%Q
      by (apply Qmult_le_0_compat; lra). lra. }
  revert Mx My Bx By.
  generalize (c * max_shift_ratio)%Q (r * max_shift_ratio)%Q.
  intros mx my Mx My Bx By.
  step_uniform dx1 H1. step_uniform dy1 H2. step_uniform dx2 H3.
  step_uniform dy2 H4. step_uniform dx3 H5. step_uniform dy3 H6.
  step_uniform dx4 H7. step_uniform dy4 H8.
  exists dx1, dy1, dx2, dy2, dx3, dy3, dx4, dy4.
  split.
  - cbn [map fst snd]. rewrite !np_clip_inside by lra.
    rewrite !advance_advance. reflexivity.
  - split; repeat (constructor; [lra |]); constructor.
Qed.

(** The canvas of the script, with the ratio main passes. *)
Lemma perspective_transform_corners_witness :
  let img := np_full 640 640 (1, 2, 3) in
  let rows := inject_Z (fst (shape img)) in
  let cols := inject_Z (snd (shape img)) in
  exists dx1 dy1 dx2 dy2 dx3 dy3 dx4 dy4,
    apply_perspective_transform img 0.08 demo_rng
    = Ok (cv2_warpPerspective img
            [(0, 0); (cols - 1, 0); (0, rows - 1); (cols - 1, rows - 1)]%Q
            [(dx1, dy1); (cols - 1 + dx2, dy2);
             (dx3, rows - 1 + dy3); (cols - 1 + dx4, rows - 1 + dy4)]%Q,
          advance 8 demo_rng)
    /\ Forall (fun d => - (cols * 0.08) <= d <= cols * 0.08)%Q
         [dx1; dx2; dx3; dx4]
    /\ Forall (fun d => - (rows * 0.08) <= d <= rows * 0.08)%Q
         [dy1; dy2; dy3; dy4].
Proof.
  apply (perspective_transform_corners (np_full 640 640 (1, 2, 3)) 0.08 demo_rng);
    first [discriminate | cbn; lia].
Defined.

(** X15: from a maximal kernel size of 1 on, apply_blur draws one number
    and blurs the image it was given with a square kernel whose size is
    odd and lies between 1 and the maximum. *)
Theorem apply_blur_kernel (img : image) (max_kernel_size : Z) (s : rng) :
  1 <= max_kernel_size ->
  exists kernel_val,
    apply_blur img max_kernel_size s
    = Ok (cv2_GaussianBlur img kernel_val, advance 1 s)
    /\ 1 <= kernel_val <= max_kernel_size
    /\ Z.odd kernel_val = true.
Proof. intros H. exact (apply_blur_from_one img max_kernel_size s H). Qed.

(** The call of main: a maximal kernel size of 5. *)
Lemma apply_blur_kernel_witness :
  exists kernel_val,
    apply_blur (np_full 640 640 (1, 2, 3)) 5 demo_rng
    = Ok (cv2_GaussianBlur (np_full 640 640 (1, 2, 3)) kernel_val,
          advance 1 demo_rng)
    /\ 1 <= kernel_val <= 5
    /\ Z.odd kernel_val = true.
Proof. apply (apply_blur_kernel (np_full 640 640 (1, 2, 3)) 5 demo_rng). lia. Defined.

(** X16: generate_random_color returns for every state of the random
    source, after three draws, a color whose three channels lie in
    [0, 255]. *)
Theorem generate_random_color_channels (s : rng) :
  exists b g r,
    generate_random_color s = Ok ((b, g, r), advance 3 s)
    /\ 0 <= b <= 255 /\ 0 <= g <= 255 /\ 0 <= r <= 255.
Proof.
  unfold generate_random_color.
  step_randint b Hb. step_randint g Hg. step_randint r Hr.
  exists b, g, r. split; [| lia].
  cbn. rewrite !advance_advance. reflexivity.
Qed.

End Augmentation.

(** ** The ring generator: every pass writes a sample *)

Section RingMain.

Import generate_dataset.

Lemma swap_out_Permutation {A} (pool : list A) (j n : nat) (xj xl : A) :
  (j < n)%nat -> pool !! j = Some xj -> pool !! (n - 1)%nat = Some xl ->
  xj :: take (n - 1) (<[j := xl]> pool) ≡ₚ take n pool.
Proof.
  intros Hj Ej El.
  replace n with (S (n - 1)) at 2 by lia.
  rewrite (take_S_r _ _ _ El), take_insert.
  destruct (decide (j < n - 1)%nat) as [Hlt | Hge].
  - set (t := take (n - 1) pool).
    assert (Et : t !! j = Some xj) by (subst t; rewrite lookup_take_lt; auto).
    rewrite insert_take_drop by (apply lookup_lt_is_Some; eauto).
    rewrite <- (Permutation_cons_append t xl).
    rewrite <- (Permutation_middle (take j t) (drop (S j) t) xl).
    rewrite (perm_swap xl xj). apply perm_skip.
    rewrite Permutation_middle, (take_drop_middle t j xj Et). reflexivity.
  - assert (j = (n - 1)%nat) by lia. subst j.
    rewrite El in Ej. injection Ej as <-.
    apply Permutation_cons_append.
Qed.

Lemma returns_sample_pool_perm {A} (k : nat) :
  forall (n : nat) (pool : list A) (s : rng) (P : list A -> rng -> Prop),
    (k <= n)%nat -> (n <= length pool)%nat ->
    (forall l rest s', l ++ rest ≡ₚ take n pool -> length l = k -> P l s') ->
    returns (random.sample_pool k n pool) s P.
Proof.
  induction k as [| k IH]; intros n pool s P Hk Hn H.
  - apply returns_ret. apply (H [] (take n pool)); reflexivity.
  - cbn [random.sample_pool].
    apply returns_bind, returns_randbelow; [lia |].
    intros v Hv.
    destruct (pool !! Z.to_nat v) as [xj |] eqn:Ej;
      [| apply lookup_ge_None in Ej; lia].
    destruct (pool !! (n - 1)%nat) as [xl |] eqn:El;
      [| apply lookup_ge_None in El; lia].
    apply returns_bind, IH; [lia | rewrite length_insert; lia |].
    intros l rest s' Hperm Hl. apply returns_ret.
    apply (H (xj :: l) rest); [| cbn; rewrite Hl; reflexivity].
    cbn [app]. rewrite Hperm.
    apply swap_out_Permutation; [lia | exact Ej | exact El].
Qed.

(** A sample of the whole population is a permutation of it. *)
Lemma returns_sample_perm {A} (population : list A) (s : rng)
    (P : list A -> rng -> Prop) :
  (forall l s', l ≡ₚ population -> P l s') ->
  returns (random.sample population (length population)) s P.
Proof.
  intros H. unfold random.sample. rewrite Nat.ltb_irrefl.
  apply returns_sample_pool_perm; [lia | lia |].
  intros l rest s' Hperm Hl. apply H.
  rewrite firstn_all in Hperm.
  assert (Hr : rest = []).
  { apply Permutation_length in Hperm. rewrite length_app in Hperm.
    destruct rest; [reflexivity | cbn in Hperm; lia]. }
  subst rest. rewrite app_nil_r in Hperm. exact Hperm.
Qed.

Lemma int_bounds (x : Q) :
  (0 <= x)%Q -> (inject_Z (py.int x) <= x /\ x < inject_Z (py.int x) + 1)%Q.
Proof.
  intros Hx. unfold py.int.
  destruct (Qle_bool 0 x) eqn:E.
  - split; [apply Qfloor_le |].
    pose proof (Qlt_floor x) as Hf. rewrite inject_Z_plus in Hf. exact Hf.
  - apply Qle_bool_iff in Hx. congruence.
Qed.

(** The radii of the five disks of a target of outer radius at least 5:
    none is filtered out, the first is the outer radius, and they
    decrease. *)
Lemma actual_radii_five (r_outer : Z) :
  5 <= r_outer ->
  exists r2 r3 r4 r5,
    filter (fun r => 0 < r)
      (map (fun factor => py.int (factor * inject_Z r_outer)%Q) RADII_FACTORS)
    = [r_outer; r2; r3; r4; r5]
    /\ 0 < r5 < r4 /\ r4 < r3 < r2 /\ r2 < r_outer.
Proof.
  intros Hr.
  assert (HR : (5 <= inject_Z r_outer)%Q) by (rewrite (Zle_Qle 5) in Hr; exact Hr).
  cbn [map RADII_FACTORS].
  destruct (int_bounds (1 * inject_Z r_outer)) as [A1 B1]; [lra |].
  destruct (int_bounds (0.8 * inject_Z r_outer)) as [A2 B2]; [lra |].
  destruct (int_bounds (0.6 * inject_Z r_outer)) as [A3 B3]; [lra |].
  destruct (int_bounds (0.4 * inject_Z r_outer)) as [A4 B4]; [lra |].
  destruct (int_bounds (0.2 * inject_Z r_outer)) as [A5 B5]; [lra |].
  revert A1 B1 A2 B2 A3 B3 A4 B4 A5 B5.
  generalize (py.int (1 * inject_Z r_outer)) (py.int (0.8 * inject_Z r_outer))
             (py.int (0.6 * inject_Z r_outer)) (py.int (0.4 * inject_Z r_outer))
             (py.int (0.2 * inject_Z r_outer)).
  intros k1 k2 k3 k4 k5 A1 B1 A2 B2 A3 B3 A4 B4 A5 B5.
  assert (E1 : k1 = r_outer).
  { assert (L1 : (inject_Z k1 <= inject_Z r_outer)%Q) by lra.
    assert (L2 : (inject_Z r_outer < inject_Z (k1 + 1))%Q)
      by (rewrite inject_Z_plus; change (inject_Z 1) with 1%Q; lra).
    rewrite <- Zle_Qle in L1. rewrite <- Zlt_Qlt in L2. lia. }
  assert (D12 : k2 < k1).
  { rewrite Zlt_Qlt. revert HR A1 B1 A2 B2.
    generalize (inject_Z k1) (inject_Z k2) (inject_Z r_outer). intros; lra. }
  assert (D23 : k3 < k2).
  { rewrite Zlt_Qlt. revert HR A3 B3 A2 B2.
    generalize (inject_Z k3) (inject_Z k2) (inject_Z r_outer). intros; lra. }
  assert (D34 : k4 < k3).
  { rewrite Zlt_Qlt. revert HR A3 B3 A4 B4.
    generalize (inject_Z k3) (inject_Z k4) (inject_Z r_outer). intros; lra. }
  assert (D45 : k5 < k4).
  { rewrite Zlt_Qlt. revert HR A5 B5 A4 B4.
    generalize (inject_Z k5) (inject_Z k4) (inject_Z r_outer). intros; lra. }
  assert (D5 : 0 < k5).
  { assert (L : (inject_Z 0 < inject_Z (k5 + 1))%Q).
    { rewrite inject_Z_plus. change (inject_Z 1) with 1%Q.
      change (inject_Z 0) with 0%Q. lra. }
    rewrite <- Zlt_Qlt in L.
    assert (L' : (inject_Z 1 <= 0.2 * inject_Z r_outer)%Q)
      by (change (inject_Z 1) with 1%Q; lra).
    destruct (Z.eq_dec k5 0) as [-> | Hne]; [| lia].
    change (inject_Z 0) with 0%Q in B5. lra. }
  subst k1. exists k2, k3, k4, k5.
  split; [| lia].
  rewrite !filter_cons_True by lia. reflexivity.
Qed.

Lemma returns_perspective_keeps (img : image) (r : Q) (s : rng)
    (P : image -> rng -> Prop) :
  (forall img' s', circles img' = circles img -> shape img' = shape img ->
                   P img' s') ->
  returns (apply_perspective_transform img r) s P.
Proof.
  intros H. unfold apply_perspective_transform.
  destruct (shape img) as [rows cols] eqn:Es.
  do 8 (apply returns_bind, returns_uniform; intros ?).
  apply returns_ret, H; [reflexivity | exact Es].
Qed.

Lemma returns_blur_keeps (img : image) (max_kernel_size : Z) (s : rng)
    (P : image -> rng -> Prop) :
  1 <= max_kernel_size ->
  (forall img' s', circles img' = circles img -> shape img' = shape img ->
                   P img' s') ->
  returns (apply_blur img max_kernel_size) s P.
Proof.
  intros Hk H.
  destruct (apply_blur_from_one img max_kernel_size s Hk) as (k & E & _).
  eexists _, _. split; [exact E | apply H; reflexivity].
Qed.

Lemma to_yolo_format_outer_box (cx cy r : Z) :
  0 < r ->
  exists x y w h,
    to_yolo_format (cx - r, cy - r, cx + r, cy + r) IMG_WIDTH IMG_HEIGHT
    = Ok (CLASS_ID, x, y, w, h)
    /\ (0 < w)%Q /\ (0 < h)%Q.
Proof.
  intros Hr. do 4 eexists. split; [reflexivity |].
  cbv beta.
  assert (Hd : (0 < inject_Z (cx + r - (cx - r)))%Q)
    by (apply inject_Z_pos; lia).
  assert (Hd' : (0 < inject_Z (cy + r - (cy - r)))%Q)
    by (apply inject_Z_pos; lia).
  split; (apply Qmult_lt_0_compat; [assumption | reflexivity]).
Qed.

Lemma draw_five (img : image) (cx cy r1 r2 r3 r4 r5 : Z) (colors : list color) :
  length colors = 5%nat ->
  exists img',
    draw_rings (seq 0 (Z.to_nat NUM_CIRCLES)) img cx cy [r1; r2; r3; r4; r5] colors
    = Ok img'
    /\ circles img'
       = circles img
         ++ zip_with (fun r col => ((cx, cy), r, col)) [r1; r2; r3; r4; r5] colors
    /\ shape img' = shape img.
Proof.
  intros Hlen.
  destruct colors as [| c1 [| c2 [| c3 [| c4 [| c5 [| c6 colors]]]]]];
    try discriminate Hlen.
  eexists. split; [reflexivity |]. split; [| reflexivity].
  cbn [circles zip_with]. rewrite <- !app_assoc. reflexivity.
Qed.

(** One pass of the generation loop, started with [generated_count = g],
    writes the sample numbered [g]. *)
Lemma iteration_writes (g : Z) (out : list (string * file)) (s : rng) :
  returns (iteration (g, out)) s (fun st' _ =>
    exists p, st' = (g + 1, out ++ ring_entry g p) /\ ring_pair_ok p).
Proof.
  unfold iteration.
  apply returns_bind, returns_generate_random_color. intros bg s1.
  apply returns_bind, returns_randint; [vm_compute; discriminate |].
  intros r_outer Hr.
  match type of Hr with
  | ?a <= _ <= ?b => change a with 64 in Hr; change b with 320 in Hr
  end.
  apply returns_bind, returns_randint; [unfold IMG_WIDTH; lia |].
  intros cx Hcx.
  apply returns_bind, returns_randint; [unfold IMG_HEIGHT; lia |].
  intros cy Hcy.
  destruct (actual_radii_five r_outer) as (r2 & r3 & r4 & r5 & Erad & Hrad);
    [lia |].
  cbv zeta. rewrite Erad.
  change (Z.of_nat (length [r_outer; r2; r3; r4; r5]) <? NUM_CIRCLES) with false.
  cbv iota.
  apply returns_bind, returns_sample_perm. intros colors s2 Hperm.
  destruct (draw_five (np_full IMG_HEIGHT IMG_WIDTH bg) cx cy
              r_outer r2 r3 r4 r5 colors)
    as (rings & Edraw & Hcirc & Hshape);
    [apply Permutation_length in Hperm; exact Hperm |].
  apply returns_bind. eapply returns_lift; [exact Edraw |].
  apply returns_bind, returns_random. intros u1.
  apply returns_bind.
  match goal with
  | |- returns _ _ ?K =>
      assert (HK : forall i s', circles i = circles rings ->
                                shape i = shape rings -> K i s')
  end.
  { intros img2 s3 Hc2 Hs2.
    apply returns_bind, returns_random. intros u2.
    apply returns_bind.
    match goal with
    | |- returns _ _ ?K =>
        assert (HK : forall i s', circles i = circles rings ->
                                  shape i = shape rings -> K i s')
    end.
    { intros img3 s4 Hc3 Hs3.
      assert (Hbox : calculate_visible_bbox cx cy r_outer IMG_WIDTH IMG_HEIGHT
                     = (cx - r_outer, cy - r_outer, cx + r_outer, cy + r_outer))
        by (apply visible_bbox_inside; unfold IMG_WIDTH, IMG_HEIGHT in *; lia).
      rewrite Hbox.
      destruct (to_yolo_format_outer_box cx cy r_outer)
        as (x & y & w & h & E & Hw & Hh); [lia |].
      apply returns_bind. eapply returns_lift; [exact E |].
      cbv beta iota.
      apply leb_false in Hw, Hh. rewrite Hw, Hh. cbn [orb].
      apply returns_ret. exists (img3, label_line (CLASS_ID, x, y, w, h)).
      split; [reflexivity |].
      exists cx, cy, r_outer, r2, r3, r4, r5, colors, CLASS_ID, x, y, w, h.
      cbn [fst snd]. rewrite Hc3, Hs3, Hcirc, Hshape.
      repeat split; try assumption; try lia. }
    destruct (py.ltb u2 0.4).
    - apply returns_blur_keeps; [lia |]. intros i s' Hc Hs.
      apply HK; congruence.
    - apply returns_ret, HK; assumption. }
  destruct (py.ltb u1 0.3).
  - apply returns_perspective_keeps. intros i s' Hc Hs. apply HK; assumption.
  - apply returns_ret, HK; reflexivity.
Qed.

Lemma ring_sink_cons (g : Z) (p : image * string) (pairs : list (image * string)) :
  ring_sink g (p :: pairs) = ring_entry g p ++ ring_sink (g + 1) pairs.
Proof.
  unfold ring_sink. rewrite imap_cons. cbn [concat].
  rewrite Z.add_0_r. f_equal. f_equal. apply imap_ext.
  intros i x _. cbn. f_equal. lia.
Qed.

Lemma generation_loop_writes (k : nat) :
  forall (fuel : nat) (g : Z) (out : list (string * file)) (s : rng),
    (k <= fuel)%nat ->
    returns (generation_loop (g + Z.of_nat k) fuel (g, out)) s (fun st' _ =>
      fst st' = g + Z.of_nat k
      /\ exists pairs,
           length pairs = k
           /\ snd st' = out ++ ring_sink g pairs
           /\ Forall ring_pair_ok pairs).
Proof.
  induction k as [| k IH]; intros fuel g out s Hfuel.
  - assert (Hend : forall st' : loop_state, st' = (g, out) ->
              fst st' = g + Z.of_nat 0
              /\ exists pairs, length pairs = 0%nat
                               /\ snd st' = out ++ ring_sink g pairs
                               /\ Forall ring_pair_ok pairs).
    { intros st' ->. split; [cbn; lia |].
      exists []. cbn. rewrite app_nil_r. repeat split. constructor. }
    destruct fuel as [| fuel]; cbn [generation_loop].
    + apply returns_ret, Hend. reflexivity.
    + cbn [fst]. destruct (Z.leb_spec (g + Z.of_nat 0) g) as [_ | Hlt]; [| lia].
      apply returns_ret, Hend. reflexivity.
  - destruct fuel as [| fuel]; [lia |]. cbn [generation_loop fst].
    destruct (Z.leb_spec (g + Z.of_nat (S k)) g) as [Hle | _]; [lia |].
    apply returns_bind.
    eapply returns_weaken; [| apply iteration_writes].
    intros st' s' (p & -> & Hp).
    replace (g + Z.of_nat (S k)) with (g + 1 + Z.of_nat k) by lia.
    eapply returns_weaken; [| apply IH; lia].
    intros st'' s'' (Hcount & pairs & Hlen & Hsink & Hok).
    split; [exact Hcount |].
    exists (p :: pairs). split; [cbn; rewrite Hlen; reflexivity |].
    split; [| constructor; assumption].
    rewrite Hsink, ring_sink_cons, app_assoc. reflexivity.
Qed.

Lemma main_with_writes (num_images : Z) (s : rng) :
  0 <= num_images ->
  returns (main_with num_images) s (fun st _ =>
    fst st = num_images
    /\ exists pairs,
         length pairs = Z.to_nat num_images
         /\ snd st = ring_sink 0 pairs
         /\ Forall ring_pair_ok pairs).
Proof.
  intros Hn. unfold main_with.
  pose proof (generation_loop_writes (Z.to_nat num_images)
                (Z.to_nat (num_images * 2)) 0 [] s) as H.
  rewrite Z2Nat.id, Z.add_0_l in H by exact Hn.
  eapply returns_weaken; [| apply H; lia].
  intros st s' (Hc & pairs & Hl & Hs & Hok).
  split; [exact Hc |]. exists pairs. repeat split; assumption.
Qed.

(** X17: asked for a number of images that is not negative, main returns
    with generated_count equal to that number: with the constants of the
    script no pass of the loop is skipped, and the sample numbered i is
    written as images/train/hotspot_{i:05d}.png and
    labels/train/hotspot_{i:05d}.txt, image first, in the order of i. *)
Theorem ring_main_writes_every_sample (num_images : Z) (s : rng) :
  0 <= num_images ->
  returns (main_with num_images) s (fun st _ =>
    fst st = num_images
    /\ exists pairs,
         length pairs = Z.to_nat num_images /\ snd st = ring_sink 0 pairs).
Proof.
  intros Hn. eapply returns_weaken; [| apply main_with_writes; exact Hn].
  intros st s' (Hc & pairs & Hl & Hs & _).
  split; [exact Hc |]. exists pairs. split; assumption.
Qed.

(** Three images from the stream of the examples. *)
Lemma ring_main_writes_every_sample_witness :
  returns (main_with 3) demo_rng (fun st _ =>
    fst st = 3
    /\ exists pairs,
         length pairs = Z.to_nat 3 /\ snd st = ring_sink 0 pairs).
Proof. apply (ring_main_writes_every_sample 3 demo_rng). lia. Defined.

(** X18: every raster main writes has the size of the canvas and shows
    five concentric disks drawn from the outer radius inward, with
    decreasing positive radii, in the five colors of the palette in some
    order, the outer radius between 64 and 320 and the largest disk inside
    the canvas; the label written with it is
    the line of the record of the box of the largest disk, as it was drawn:
    the augmentations applied to the raster afterwards leave the label as
    it is. *)
Theorem ring_main_pairs (num_images : Z) (s : rng) :
  0 <= num_images ->
  returns (main_with num_images) s (fun st _ =>
    exists pairs, snd st = ring_sink 0 pairs /\ Forall ring_pair_ok pairs).
Proof.
  intros Hn. eapply returns_weaken; [| apply main_with_writes; exact Hn].
  intros st s' (_ & pairs & _ & Hs & Hok).
  exists pairs. split; assumption.
Qed.

(** Three images from the stream of the examples. *)
Lemma ring_main_pairs_witness :
  returns (main_with 3) demo_rng (fun st _ =>
    exists pairs, snd st = ring_sink 0 pairs /\ Forall ring_pair_ok pairs).
Proof. apply (ring_main_pairs 3 demo_rng). lia. Defined.

End RingMain.

(** ** The polygon generator: what each shape leaves in the sink *)

Section PolygonMain.

Import generate_yolo_dataset.

Lemma for_each_collect {A B} (body : sink -> A -> M sink) (Good : A -> Prop)
    (R : A -> B -> Prop) (entry : A -> B -> sink) (xs : list A) :
  (forall out x s, Good x ->
     returns (body out x) s (fun out' _ =>
       exists b, out' = out ++ entry x b /\ R x b)) ->
  Forall Good xs ->
  forall out s,
    returns (for_each body xs out) s (fun out' _ =>
      exists bs, Forall2 R xs bs /\ out' = out ++ concat (zip_with entry xs bs)).
Proof.
  intros Hbody. induction xs as [| x xs IH]; intros Hxs out s.
  - apply returns_ret. exists []. split; [constructor | cbn; rewrite app_nil_r; reflexivity].
  - apply Forall_cons in Hxs as [Hx Hxs]. cbn [for_each].
    apply returns_bind.
    eapply returns_weaken; [| apply Hbody; exact Hx].
    intros out' s' (b & -> & Hb).
    eapply returns_weaken; [| apply IH; exact Hxs].
    intros out'' s'' (bs & Hbs & ->).
    exists (b :: bs). split; [constructor; assumption |].
    cbn [zip_with concat]. rewrite app_assoc. reflexivity.
Qed.

Lemma returns_color_pair_members (fuel : nat) (s : rng)
    (P : color * color -> rng -> Prop) :
  (forall bg sc s', bg ∈ BACKGROUND_COLORS -> sc ∈ SHAPE_COLORS -> P (bg, sc) s') ->
  returns (get_random_color_pair fuel BACKGROUND_COLORS SHAPE_COLORS) s P.
Proof.
  intros H. unfold get_random_color_pair.
  apply returns_bind, returns_choice; [discriminate |]. intros bg Hbg.
  apply returns_bind, returns_choice; [discriminate |]. intros sc Hsc.
  rewrite (resample_color_done fuel bg sc _ (palettes_disjoint bg sc Hbg Hsc)).
  apply returns_bind, returns_ret, returns_ret, H; assumption.
Qed.

Lemma generate_rectangle_draws : generator_draws 0 generate_rectangle.
Proof.
  intros img c s. unfold generate_rectangle.
  apply returns_bind, returns_randint; [unfold MIN_SHAPE_SIZE, MAX_SHAPE_SIZE; lia |].
  intros width Hw.
  apply returns_bind, returns_randint; [unfold MIN_SHAPE_SIZE, MAX_SHAPE_SIZE; lia |].
  intros height Hh.
  unfold MIN_SHAPE_SIZE, MAX_SHAPE_SIZE, IMAGE_WIDTH, IMAGE_HEIGHT in *.
  apply returns_bind, returns_randint; [lia |]. intros x1 Hx.
  apply returns_bind, returns_randint; [lia |]. intros y1 Hy.
  apply returns_ret. cbn.
  unfold IMAGE_WIDTH, IMAGE_HEIGHT. repeat split; lia.
Qed.

Lemma generate_square_draws : generator_draws 1 generate_square.
Proof.
  intros img c s. unfold generate_square.
  apply returns_bind, returns_randint; [unfold MIN_SHAPE_SIZE, MAX_SHAPE_SIZE; lia |].
  intros side Hs.
  unfold MIN_SHAPE_SIZE, MAX_SHAPE_SIZE, IMAGE_WIDTH, IMAGE_HEIGHT in *.
  apply returns_bind, returns_randint; [lia |]. intros x1 Hx.
  apply returns_bind, returns_randint; [lia |]. intros y1 Hy.
  apply returns_ret. cbn.
  unfold IMAGE_WIDTH, IMAGE_HEIGHT. repeat split; lia.
Qed.

Lemma generate_circle_draws : generator_draws 2 generate_circle.
Proof.
  intros img c s. unfold generate_circle.
  change (MIN_SHAPE_SIZE / 2) with 25. change (MAX_SHAPE_SIZE / 2) with 125.
  apply returns_bind, returns_randint; [lia |]. intros radius Hr.
  unfold IMAGE_WIDTH, IMAGE_HEIGHT in *.
  apply returns_bind, returns_randint; [lia |]. intros cx Hx.
  apply returns_bind, returns_randint; [lia |]. intros cy Hy.
  apply returns_ret. cbn.
  unfold IMAGE_WIDTH, IMAGE_HEIGHT. repeat split; lia.
Qed.

(** A triangle of positive area has an envelope of positive width and
    height. *)
Lemma envelope_not_flat (q1 q2 q3 : point) (box : tight) :
  is_envelope box [q1; q2; q3] ->
  Forall inside_canvas [q1; q2; q3] ->
  (0 < get_triangle_area q1 q2 q3)%Q ->
  tight_on_canvas box.
Proof.
  destruct box as [[[xl yl] xh] yh].
  destruct q1 as [a1 b1], q2 as [a2 b2], q3 as [a3 b3].
  unfold is_envelope, inside_canvas.
  rewrite !Forall_cons, !Exists_cons, !Exists_nil. cbn [fst snd].
  intros ((R1 & R2 & R3 & _) & Ex1 & Ey1 & Ex2 & Ey2) (C1 & C2 & C3 & _) Harea.
  assert (Hflat : forall a b c d e f : Z,
             a = b -> b = c ->
             ~ (0 < get_triangle_area (a, d) (b, e) (c, f))%Q).
  { intros a b c d e f -> ->. unfold get_triangle_area. cbn [fst snd].
    replace (c * (e - f) + c * (f - d) + c * (d - e)) with 0 by ring.
    intros H. vm_compute in H. discriminate H. }
  assert (Hflat' : forall a b c d e f : Z,
             d = e -> e = f ->
             ~ (0 < get_triangle_area (a, d) (b, e) (c, f))%Q).
  { intros a b c d e f -> ->. unfold get_triangle_area. cbn [fst snd].
    replace (a * (f - f) + b * (f - f) + c * (f - f)) with 0 by ring.
    intros H. vm_compute in H. discriminate H. }
  assert (Hx : xl < xh).
  { destruct (Z_lt_le_dec xl xh) as [H | H]; [exact H |].
    exfalso. apply (Hflat a1 a2 a3 b1 b2 b3); [lia | lia | exact Harea]. }
  assert (Hy : yl < yh).
  { destruct (Z_lt_le_dec yl yh) as [H | H]; [exact H |].
    exfalso. apply (Hflat' a1 a2 a3 b1 b2 b3); [lia | lia | exact Harea]. }
  unfold tight_on_canvas. lia.
Qed.

Lemma generate_triangle_draws (fuel : nat) :
  (50 <= fuel)%nat -> generator_draws 3 (generate_triangle fuel).
Proof.
  intros Hfuel img c s.
  destruct (generate_triangle_shape_run fuel img c s Hfuel)
    as (q1 & q2 & q3 & box & s' & E & Hin & Henv & Harea).
  eexists _, _. split; [exact E |]. cbn [fst snd drawn_on depicts].
  split; [repeat split; exact Henv |].
  split; [split; reflexivity |].
  apply (envelope_not_flat q1 q2 q3); [exact Henv | exact Hin |].
  rewrite min_area_value in Harea. lra.
Qed.

Lemma shape_generators_draw (fuel : nat) (shape_name : string) (class_id : Z) :
  (50 <= fuel)%nat ->
  (shape_name, class_id) ∈ SHAPE_CLASSES ->
  exists gen, dict_get (shape_generators fuel) shape_name = Ok gen
              /\ generator_draws class_id gen.
Proof.
  intros Hfuel Hin. unfold SHAPE_CLASSES in Hin.
  repeat (apply elem_of_cons in Hin as [Hin | Hin];
          [injection Hin as -> ->; eexists; split; [reflexivity |] |]).
  - apply generate_rectangle_draws.
  - apply generate_square_draws.
  - apply generate_circle_draws.
  - apply generate_triangle_draws. exact Hfuel.
  - apply elem_of_nil in Hin. contradiction.
Qed.

Lemma sample_step_writes (fuel : nat) (shape_name : string) (class_id : Z)
    (images_dir labels_dir : string)
    (gen : image -> color -> M (image * tight)) (out : sink) (i : Z) (s : rng) :
  generator_draws class_id gen ->
  returns (sample_step fuel shape_name class_id images_dir labels_dir gen out i)
    s (fun out' _ =>
         exists p, out' = out ++ polygon_entry images_dir labels_dir shape_name i p
                   /\ polygon_pair_ok class_id p).
Proof.
  intros Hgen. unfold sample_step.
  apply returns_bind, returns_color_pair_members. intros bg sc s1 Hbg Hsc.
  apply returns_bind.
  eapply returns_weaken; [| apply Hgen].
  intros [img t] s2 (Hdrawn & Hdep & Hbox). cbn [fst snd] in *.
  destruct (calculate_yolo_annotation_Ok t class_id) as (txt & E & _ & _).
  apply returns_bind. eapply returns_lift; [exact E |].
  apply returns_ret. exists (img, txt). split; [reflexivity |].
  exists bg, sc, t. cbn [fst snd]. repeat split; assumption.
Qed.

Lemma Forall2_const_r {A B} (P : B -> Prop) (xs : list A) (bs : list B) :
  Forall2 (fun _ b => P b) xs bs -> length bs = length xs /\ Forall P bs.
Proof.
  induction 1 as [| x b xs bs Hb _ [IH1 IH2]]; [split; [reflexivity | constructor] |].
  split; [cbn; rewrite IH1; reflexivity | constructor; assumption].
Qed.

Lemma range_length (n : Z) : length (range n) = Z.to_nat n.
Proof. unfold range. rewrite length_map, length_seq. reflexivity. Qed.

Lemma shape_step_writes (fuel : nat) (n : Z) (out : sink) (item : string * Z)
    (s : rng) :
  (50 <= fuel)%nat -> item ∈ SHAPE_CLASSES ->
  returns (shape_step fuel n "dataset_2d_shapes" out item) s (fun out' _ =>
    exists g, out' = out ++ polygon_group n item g
              /\ length g = Z.to_nat n
              /\ Forall (polygon_pair_ok (snd item)) g).
Proof.
  intros Hfuel Hin. destruct item as [shape_name class_id].
  unfold shape_step, polygon_group. cbn [fst snd].
  destruct (create_directories_for_shape "dataset_2d_shapes" shape_name)
    as [images_dir labels_dir].
  destruct (shape_generators_draw fuel shape_name class_id Hfuel Hin)
    as (gen & E & Hgen).
  apply returns_bind. eapply returns_lift; [exact E |].
  eapply returns_weaken;
    [| apply (for_each_collect _ (fun _ => True)
                (fun _ p => polygon_pair_ok class_id p)
                (polygon_entry images_dir labels_dir shape_name))].
  - intros out' s' (g & Hg & ->).
    apply Forall2_const_r in Hg as [Hlen Hok].
    exists g. split; [reflexivity |].
    split; [rewrite Hlen; apply range_length | exact Hok].
  - intros out0 i s0 _. apply sample_step_writes. exact Hgen.
  - apply Forall_forall. trivial.
Qed.

Lemma polygon_main_writes (fuel : nat) (n : Z) (s : rng) :
  (50 <= fuel)%nat ->
  returns (main_with fuel n) s (fun out _ =>
    exists groups,
      Forall2 (fun item g => length g = Z.to_nat n
                             /\ Forall (polygon_pair_ok (snd item)) g)
        SHAPE_CLASSES groups
      /\ out = polygon_sink n groups).
Proof.
  intros Hfuel. unfold main_with, polygon_sink.
  eapply returns_weaken;
    [| apply (for_each_collect _ (fun item => item ∈ SHAPE_CLASSES)
                (fun item g => length g = Z.to_nat n
                               /\ Forall (polygon_pair_ok (snd item)) g)
                (polygon_group n))].
  - intros out s' (groups & Hg & ->). exists groups. split; [exact Hg | reflexivity].
  - intros out item s0 Hin.
    eapply returns_weaken; [| apply shape_step_writes; assumption].
    intros out' s' (g & -> & Hlen & Hok). exists g. repeat split; assumption.
  - apply Forall_forall. trivial.
Qed.

(** X19: with fuel for the 50 attempts of the triangle generator, the
    script returns, and it has written, for the shapes in the order
    Rectangle, Square, Circle, Triangle, one group of files each; the group
    of a shape holds its samples i = 0 .. n-1 in this order, each as
    images/<Shape>/<shape>_{i+1:04d}.png followed by
    labels/<Shape>/<shape>_{i+1:04d}.txt. *)
Theorem polygon_main_writes_every_sample (fuel : nat) (n : Z) (s : rng) :
  (50 <= fuel)%nat ->
  returns (main_with fuel n) s (fun out _ =>
    exists groups,
      Forall2 (fun _ g => length g = Z.to_nat n) SHAPE_CLASSES groups
      /\ out = polygon_sink n groups).
Proof.
  intros Hfuel. eapply returns_weaken; [| apply polygon_main_writes; exact Hfuel].
  intros out s' (groups & Hg & ->). exists groups. split; [| reflexivity].
  eapply Forall2_impl; [exact Hg |]. intros item g [Hl _]. exact Hl.
Qed.

(** Two samples a shape on the stream of the examples. *)
Lemma polygon_main_writes_every_sample_witness :
  returns (main_with 50 2) demo_rng (fun out _ =>
    exists groups,
      Forall2 (fun _ g => length g = Z.to_nat 2) SHAPE_CLASSES groups
      /\ out = polygon_sink 2 groups).
Proof. apply (polygon_main_writes_every_sample 50 2 demo_rng). lia. Defined.

(** X20: every image the script writes is a canvas in one of the
    background colors with one shape on it in one of the shape colors, of
    the class of its group: a rectangle for class 0, a square for 1, a circle
    for 2, a triangle for 3; the extent of the shape lies on the canvas with
    positive width and height, and the label written with the image is the
    annotation of that extent with the class id of the group. *)
Theorem polygon_main_pairs (fuel : nat) (n : Z) (s : rng) :
  (50 <= fuel)%nat ->
  returns (main_with fuel n) s (fun out _ =>
    exists groups,
      out = polygon_sink n groups
      /\ Forall2 (fun item g => Forall (polygon_pair_ok (snd item)) g)
           SHAPE_CLASSES groups).
Proof.
  intros Hfuel. eapply returns_weaken; [| apply polygon_main_writes; exact Hfuel].
  intros out s' (groups & Hg & ->). exists groups. split; [reflexivity |].
  eapply Forall2_impl; [exact Hg |]. intros item g [_ Hok]. exact Hok.
Qed.

(** Two samples a shape on the stream of the examples. *)
Lemma polygon_main_pairs_witness :
  returns (main_with 50 2) demo_rng (fun out _ =>
    exists groups,
      out = polygon_sink 2 groups
      /\ Forall2 (fun item g => Forall (polygon_pair_ok (snd item)) g)
           SHAPE_CLASSES groups).
Proof. apply (polygon_main_pairs 50 2 demo_rng). lia. Defined.

End PolygonMain.

(** ** The split for every listing *)

Section PartitionSizes.

Import split_dataset.

Lemma split_index_value (n : nat) :
  py.int (inject_Z (Z.of_nat n) * TRAIN_RATIO)%Q = Z.of_nat n * 4 / 5.
Proof.
  unfold py.int, TRAIN_RATIO.
  assert (Hle : Qle_bool 0 (inject_Z (Z.of_nat n) * 0.8) = true).
  { apply Qle_bool_iff. apply Qmult_le_0_compat; [| discriminate].
    change 0%Q with (inject_Z 0). rewrite <- Zle_Qle. lia. }
  rewrite Hle. unfold Qfloor, Qmult, inject_Z. cbn [Qnum Qden].
  change (Z.pos (1 * 10)) with (5 * 2).
  replace (Z.of_nat n * 8) with (Z.of_nat n * 4 * 2) by ring.
  apply Z.div_mul_cancel_r; lia.
Qed.

(** X21: for every listing, the split of main returns two lists that
    together are a permutation of the listing; the training list has
    floor(4 n / 5) of the n files; the validation list is not empty unless
    the listing is; and the split is the same from every state of the
    random source, because the source is seeded just before. *)
Theorem partition_sizes (mt : Z -> nat -> Z) (seed : Z)
    (image_files : list string) (s : rng) :
  exists train val s',
    partition mt TRAIN_RATIO seed image_files s = Ok ((train, val), s')
    /\ train ++ val ≡ₚ image_files
    /\ Z.of_nat (length train) = Z.of_nat (length image_files) * 4 / 5
    /\ (image_files <> [] -> val <> [])
    /\ (forall s0,
          partition mt TRAIN_RATIO seed image_files s0 = Ok ((train, val), s')).
Proof.
  destruct (partition_returns mt TRAIN_RATIO seed image_files s)
    as ([train val] & s' & E & Hperm & Htake).
  cbn [fst snd] in Hperm, Htake.
  exists train, val, s'. split; [exact E |]. split; [exact Hperm |].
  rewrite split_index_value in Htake.
  set (n := length image_files) in *.
  assert (Hq : 0 <= Z.of_nat n * 4 / 5 <= Z.of_nat n).
  { split; [apply Z.div_pos; lia |].
    apply Z.div_le_upper_bound; lia. }
  assert (Hlen : Z.of_nat (length train) = Z.of_nat n * 4 / 5) by lia.
  split; [exact Hlen |]. split.
  - intros Hne ->. rewrite app_nil_r in Hperm.
    apply Permutation_length in Hperm. fold n in Hperm.
    assert (Hn : (0 < n)%nat).
    { subst n. destruct image_files; [contradiction | cbn; lia]. }
    rewrite Hperm in Hlen.
    assert (Z.of_nat n * 4 / 5 < Z.of_nat n)
      by (apply Z.div_lt_upper_bound; lia).
    lia.
  - intros s0.
    rewrite (partition_reseeds mt TRAIN_RATIO seed image_files s0 s). exact E.
Qed.

End PartitionSizes.

(** ** The label that goes with an image *)

Section LabelFile.

Import split_dataset.

Lemma no_sep_after_last_sep (s : string) :
  fmt.count_char os_path.sep s = O -> os_path.after_last_sep s = None.
Proof.
  induction s as [| c s IH]; [reflexivity |].
  cbn [fmt.count_char os_path.after_last_sep].
  destruct (Ascii.eqb_spec os_path.sep c) as [<- | Hc]; [discriminate |].
  intros H. rewrite (IH H).
  destruct (Ascii.eqb_spec c os_path.sep) as [-> | _]; [contradiction | reflexivity].
Qed.

Lemma no_dot_split_last_dot (e : string) :
  fmt.count_char "." e = O -> os_path.split_last_dot e = None.
Proof.
  induction e as [| c e IH]; [reflexivity |].
  cbn [fmt.count_char os_path.split_last_dot].
  destruct (Ascii.eqb_spec "." c) as [<- | Hc]; [discriminate |].
  intros H. rewrite (IH H).
  destruct (Ascii.eqb_spec c ".") as [-> | _]; [contradiction | reflexivity].
Qed.

Lemma split_last_dot_ext (stem e : string) :
  fmt.count_char "." e = O ->
  os_path.split_last_dot (stem +:+ String "." e) = Some (stem, String "." e).
Proof.
  intros He. induction stem as [| c stem IH].
  - rewrite append_nil. cbn [os_path.split_last_dot].
    rewrite (no_dot_split_last_dot e He). reflexivity.
  - rewrite append_cons. cbn [os_path.split_last_dot]. rewrite IH. reflexivity.
Qed.

Lemma splitext_ext (stem e : string) :
  fmt.count_char "." e = O -> os_path.only_dots stem = false ->
  os_path.splitext (stem +:+ String "." e) = (stem, String "." e).
Proof.
  intros He Hs. unfold os_path.splitext.
  rewrite (split_last_dot_ext stem e He), Hs. reflexivity.
Qed.

(** X22: the label of an image is looked up under the stem of its file
    name alone: for a file name stem.ext (the stem not made of dots only,
    no dot in ext), in any directory or in none, get_corresponding_label_file
    returns the label directory joined with stem.txt. *)
Theorem label_file_of_image (dir stem ext labels_dir : string) :
  fmt.count_char os_path.sep stem = O ->
  fmt.count_char os_path.sep ext = O ->
  fmt.count_char "." ext = O ->
  os_path.only_dots stem = false ->
  get_corresponding_label_file
    (dir +:+ String os_path.sep (stem +:+ String "." ext)) labels_dir
  = os_path.join labels_dir (stem +:+ ".txt")
  /\ get_corresponding_label_file (stem +:+ String "." ext) labels_dir
     = os_path.join labels_dir (stem +:+ ".txt").
Proof.
  intros Hs He Hd Hdots.
  assert (Hname : os_path.after_last_sep (stem +:+ String "." ext) = None).
  { apply no_sep_after_last_sep. rewrite count_char_app.
    cbn [fmt.count_char]. rewrite Hs, He. reflexivity. }
  unfold get_corresponding_label_file, os_path.basename.
  rewrite (after_last_sep_app dir _ Hname), Hname. cbv [default from_option id].
  rewrite (splitext_ext stem ext Hd Hdots). split; reflexivity.
Qed.

(** An image of the ring generator in the source directory. *)
Lemma label_file_of_image_witness :
  get_corresponding_label_file
    ("hotspot_dataset/images/train"
     +:+ String os_path.sep ("hotspot_00001" +:+ String "." "png"))
    SOURCE_LABELS_DIR
  = os_path.join SOURCE_LABELS_DIR ("hotspot_00001" +:+ ".txt")
  /\ get_corresponding_label_file ("hotspot_00001" +:+ String "." "png")
       SOURCE_LABELS_DIR
     = os_path.join SOURCE_LABELS_DIR ("hotspot_00001" +:+ ".txt").
Proof.
  apply (label_file_of_image "hotspot_dataset/images/train" "hotspot_00001"
           "png" SOURCE_LABELS_DIR); reflexivity.
Defined.

End LabelFile.

(** ** What the copies hold *)

Section CopyContents.

Import split_dataset.

Variables dest_img_dir dest_lbl_dir source_lbl_dir : string.

Local Abbreviation step := (copy_step dest_img_dir dest_lbl_dir source_lbl_dir).
Local Abbreviation label img := (get_corresponding_label_file img source_lbl_dir).
Local Abbreviation targets x :=
  (copy_targets dest_img_dir dest_lbl_dir source_lbl_dir x).
Local Abbreviation pairs x :=
  (copy_pairs dest_img_dir dest_lbl_dir source_lbl_dir x).
Local Abbreviation img_target x :=
  (os_path.join dest_img_dir (os_path.basename x)).
Local Abbreviation lbl_target x :=
  (os_path.join dest_lbl_dir (os_path.basename (label x))).

Variable file_list : list string.
Hypothesis Hsep : separated dest_img_dir dest_lbl_dir source_lbl_dir file_list.
Hypothesis Hone : one_source dest_img_dir dest_lbl_dir source_lbl_dir file_list.

Variable files0 : gmap string string.

Local Abbreviation agree files :=
  (agree_on_sources source_lbl_dir file_list files files0).
Local Abbreviation holds files x :=
  (copied dest_img_dir dest_lbl_dir source_lbl_dir files files0 x).

Lemma pairs_cases (x q t : string) :
  (q, t) ∈ pairs x <->
  (q = x /\ t = img_target x) \/ (q = label x /\ t = lbl_target x).
Proof.
  unfold copy_pairs, copy_sources, copy_targets. cbn [zip zip_with].
  rewrite !elem_of_cons, elem_of_nil.
  split.
  - intros [[= -> ->] | [[= -> ->] | []]]; [left | right]; split; reflexivity.
  - intros [[-> ->] | [-> ->]]; [left | right; left]; reflexivity.
Qed.

Lemma targets_cases (x t : string) :
  t ∈ targets x <-> t = img_target x \/ t = lbl_target x.
Proof.
  unfold copy_targets. rewrite !elem_of_cons, elem_of_nil. tauto.
Qed.

(** An image that is not copyable is passed over. *)
Lemma copy_step_passes (st : gmap string string * Z) (x : string) :
  x ∈ file_list -> agree (fst st) ->
  copyable files0 source_lbl_dir x = false ->
  fst (step st x) = fst st.
Proof.
  clear Hsep Hone.
  intros Hx Hag Hno. destruct st as [files n]. cbn [fst] in *.
  assert (Hlbl : files !! label x = files0 !! label x).
  { apply (Hag x); [exact Hx | unfold copy_sources; set_solver]. }
  assert (Himg : files !! x = files0 !! x).
  { apply (Hag x); [exact Hx | unfold copy_sources; set_solver]. }
  unfold copyable, path_exists in Hno.
  unfold copy_step, path_exists, shutil_copy. rewrite Hlbl, Himg.
  destruct (files0 !! label x) as [ldata |] eqn:El.
  2:{ rewrite bool_decide_eq_false_2 by (intros [? ?]; discriminate).
      reflexivity. }
  rewrite (bool_decide_eq_true_2 (is_Some (Some ldata))) in *
    by (eexists; reflexivity).
  cbn [negb andb] in *.
  destruct (files0 !! x) as [data |] eqn:Ei; [| reflexivity].
  rewrite bool_decide_eq_true_2 in Hno by (eexists; reflexivity).
  discriminate Hno.
Qed.

(** A copyable image is copied: both targets hold their sources. *)
Lemma copy_step_copies (st : gmap string string * Z) (x : string) :
  x ∈ file_list -> agree (fst st) ->
  copyable files0 source_lbl_dir x = true ->
  holds (fst (step st x)) x.
Proof.
  intros Hx Hag Hyes. destruct st as [files n]. cbn [fst] in *.
  assert (Hlbl : files !! label x = files0 !! label x).
  { apply (Hag x); [exact Hx | unfold copy_sources; set_solver]. }
  assert (Himg : files !! x = files0 !! x).
  { apply (Hag x); [exact Hx | unfold copy_sources; set_solver]. }
  assert (S1 : img_target x <> x).
  { apply (Hsep x x); [exact Hx | exact Hx | |];
      unfold copy_targets, copy_sources; set_solver. }
  assert (S2 : img_target x <> label x).
  { apply (Hsep x x); [exact Hx | exact Hx | |];
      unfold copy_targets, copy_sources; set_solver. }
  assert (S3 : lbl_target x <> label x).
  { apply (Hsep x x); [exact Hx | exact Hx | |];
      unfold copy_targets, copy_sources; set_solver. }
  unfold copyable, path_exists in Hyes.
  apply andb_prop in Hyes as [Hl Hi].
  apply bool_decide_eq_true in Hl as [ldata El], Hi as [data Ei].
  unfold copy_step, path_exists, shutil_copy. rewrite Hlbl, Himg, El, Ei.
  rewrite bool_decide_eq_true_2 by (eexists; reflexivity).
  cbn [negb].
  destruct (String.eqb_spec (img_target x) x) as [E | _]; [contradiction |].
  rewrite lookup_insert_ne by exact S2. rewrite Hlbl, El.
  destruct (String.eqb_spec (lbl_target x) (label x)) as [E | _];
    [contradiction |].
  cbn [fst]. intros q t Hqt. apply pairs_cases in Hqt as [[-> ->] | [-> ->]].
  - destruct (decide (lbl_target x = img_target x)) as [Eq | Hne].
    + rewrite Eq, lookup_insert_eq.
      assert (Hsame : x = label x).
      { apply (Hone x x x (label x) (img_target x) Hx Hx);
          apply pairs_cases; [left | right]; split; congruence. }
      rewrite Ei, <- El. f_equal. rewrite <- Hsame in El. congruence.
    + rewrite lookup_insert_ne by exact Hne.
      rewrite lookup_insert_eq. symmetry. exact Ei.
  - rewrite lookup_insert_eq. symmetry. exact El.
Qed.

(** A later pass leaves the copies of an image as they are. *)
Lemma copy_step_preserves (st : gmap string string * Z) (x y : string) :
  x ∈ file_list -> y ∈ file_list -> agree (fst st) ->
  holds (fst st) x -> holds (fst (step st y)) x.
Proof.
  intros Hx Hy Hag Hold.
  destruct (copyable files0 source_lbl_dir y) eqn:Hc.
  - pose proof (copy_step_copies st y Hy Hag Hc) as Hnew.
    intros q t Hqt.
    destruct (decide (t ∈ targets y)) as [Hin | Hout].
    + assert (Hq' : exists q', (q', t) ∈ pairs y).
      { apply targets_cases in Hin as [-> | ->];
          [exists y | exists (label y)]; apply pairs_cases;
          [left | right]; split; reflexivity. }
      destruct Hq' as (q' & Hq').
      rewrite (Hone x y q q' t Hx Hy Hqt Hq'). apply Hnew. exact Hq'.
    + rewrite copy_step_frame by exact Hout. apply Hold. exact Hqt.
  - rewrite (copy_step_passes st y Hy Hag Hc). exact Hold.
Qed.

Lemma foldl_copy_step_contents (l : list string) :
  forall st : gmap string string * Z,
    (forall x, x ∈ l -> x ∈ file_list) -> agree (fst st) ->
    (forall x, x ∈ file_list -> holds (fst st) x ->
               holds (fst (foldl step st l)) x)
    /\ (forall x, x ∈ l -> copyable files0 source_lbl_dir x = true ->
                  holds (fst (foldl step st l)) x)
    /\ (forall p,
          (forall x, x ∈ l -> copyable files0 source_lbl_dir x = true ->
                     p ∉ targets x) ->
          fst (foldl step st l) !! p = fst st !! p).
Proof.
  induction l as [| y l IH]; intros st Hsub Hag.
  - cbn [foldl]. split; [auto |]. split; [| reflexivity].
    intros x Hx. apply elem_of_nil in Hx. contradiction.
  - assert (Hy : y ∈ file_list) by (apply Hsub; left).
    pose proof (copy_step_agree dest_img_dir dest_lbl_dir source_lbl_dir
                  file_list Hsep files0 st y Hy Hag) as Hag'.
    destruct (IH (step st y)) as (IH1 & IH2 & IH3);
      [intros z Hz; apply Hsub; right; exact Hz | exact Hag' |].
    cbn [foldl]. split; [| split].
    + intros x Hx Hold. apply IH1; [exact Hx |].
      apply copy_step_preserves; assumption.
    + intros x Hx Hc. apply elem_of_cons in Hx as [-> | Hx].
      * apply IH1; [exact Hy |]. apply copy_step_copies; assumption.
      * apply IH2; assumption.
    + intros p Hp. rewrite IH3.
      * destruct (copyable files0 source_lbl_dir y) eqn:Hc.
        -- apply copy_step_frame. apply Hp; [left | exact Hc].
        -- rewrite (copy_step_passes st y Hy Hag Hc). reflexivity.
      * intros x Hx Hc. apply Hp; [right; exact Hx | exact Hc].
Qed.

End CopyContents.

Section MainCopies.

Import split_dataset.

Lemma append_inj_l (a b c : string) : a +:+ b = a +:+ c -> b = c.
Proof.
  induction a as [| x a IH]; [rewrite !append_nil; auto |].
  rewrite !append_cons. intros [= E]. apply IH. exact E.
Qed.

Lemma after_last_sep_no_sep (s : string) :
  os_path.after_last_sep s = None -> fmt.count_char os_path.sep s = O.
Proof.
  induction s as [| c s IH]; [reflexivity |].
  cbn [os_path.after_last_sep fmt.count_char].
  destruct (os_path.after_last_sep s); [discriminate |].
  destruct (Ascii.eqb_spec c os_path.sep) as [-> | Hc]; [discriminate |].
  intros _. rewrite (IH eq_refl).
  destruct (Ascii.eqb_spec os_path.sep c) as [<- | _]; [contradiction | reflexivity].
Qed.

Lemma split_last_dot_app (s a b : string) :
  os_path.split_last_dot s = Some (a, b) -> s = a +:+ b.
Proof.
  revert a b. induction s as [| c s IH]; intros a b; [discriminate |].
  cbn [os_path.split_last_dot].
  destruct (os_path.split_last_dot s) as [[a' b'] |].
  - intros [= <- <-]. rewrite append_cons, (IH a' b' eq_refl). reflexivity.
  - destruct (Ascii.eqb c "."); [| discriminate].
    intros [= <- <-]. reflexivity.
Qed.

Lemma splitext_no_sep (name : string) :
  os_path.after_last_sep name = None ->
  fmt.count_char os_path.sep (fst (os_path.splitext name)) = O.
Proof.
  intros H. apply after_last_sep_no_sep in H.
  unfold os_path.splitext.
  destruct (os_path.split_last_dot name) as [[root ext] |] eqn:E; [| exact H].
  destruct (os_path.only_dots root); [exact H |].
  apply split_last_dot_app in E. rewrite E, count_char_app in H.
  cbn [fst]. lia.
Qed.

(** The paths of an image of the source directory: its base name, its
    label and the base name of the label. *)
Lemma in_source_dir_paths (x : string) :
  in_source_dir x ->
  exists name stem,
    x = SOURCE_IMAGES_DIR +:+ String os_path.sep name
    /\ os_path.basename x = name
    /\ os_path.after_last_sep name = None
    /\ get_corresponding_label_file x SOURCE_LABELS_DIR
       = SOURCE_LABELS_DIR +:+ String os_path.sep (stem +:+ ".txt")
    /\ os_path.basename (get_corresponding_label_file x SOURCE_LABELS_DIR)
       = stem +:+ ".txt"
    /\ os_path.after_last_sep (stem +:+ ".txt") = None.
Proof.
  intros (name & -> & Hname).
  exists name, (fst (os_path.splitext name)).
  assert (Hb : os_path.basename (SOURCE_IMAGES_DIR +:+ String os_path.sep name)
               = name).
  { unfold os_path.basename. rewrite (after_last_sep_app _ _ Hname). reflexivity. }
  assert (Hstem : os_path.after_last_sep (fst (os_path.splitext name) +:+ ".txt")
                  = None).
  { apply no_sep_after_last_sep. rewrite count_char_app.
    rewrite (splitext_no_sep name Hname). reflexivity. }
  assert (Hl : get_corresponding_label_file
                 (SOURCE_IMAGES_DIR +:+ String os_path.sep name) SOURCE_LABELS_DIR
               = SOURCE_LABELS_DIR
                 +:+ String os_path.sep (fst (os_path.splitext name) +:+ ".txt")).
  { unfold get_corresponding_label_file. rewrite Hb.
    apply join_dir; [discriminate | reflexivity |].
    apply no_sep_no_leading_sep. exact Hstem. }
  split; [reflexivity |]. split; [exact Hb |]. split; [exact Hname |].
  split; [exact Hl |]. split; [| exact Hstem].
  rewrite Hl. unfold os_path.basename.
  rewrite (after_last_sep_app _ _ Hstem). reflexivity.
Qed.

(** The two targets of an image of the source directory. *)
Lemma main_targets (dest_img dest_lbl x : string) :
  dest_img <> EmptyString -> os_path.ends_with_sep dest_img = false ->
  dest_lbl <> EmptyString -> os_path.ends_with_sep dest_lbl = false ->
  in_source_dir x ->
  exists b1 b2,
    os_path.join dest_img (os_path.basename x)
    = dest_img +:+ String os_path.sep b1
    /\ os_path.join dest_lbl
         (os_path.basename (get_corresponding_label_file x SOURCE_LABELS_DIR))
       = dest_lbl +:+ String os_path.sep b2
    /\ x = SOURCE_IMAGES_DIR +:+ String os_path.sep b1
    /\ get_corresponding_label_file x SOURCE_LABELS_DIR
       = SOURCE_LABELS_DIR +:+ String os_path.sep b2.
Proof.
  intros N1 S1 N2 S2 Hx.
  destruct (in_source_dir_paths x Hx)
    as (name & stem & E & Hb & Hname & Hl & Hlb & Hstem).
  exists name, (stem +:+ ".txt"). rewrite Hb, Hlb.
  split; [apply join_dir; [exact N1 | exact S1 |];
          apply no_sep_no_leading_sep; exact Hname |].
  split; [apply join_dir; [exact N2 | exact S2 |];
          apply no_sep_no_leading_sep; exact Hstem |].
  split; [exact E | exact Hl].
Qed.

Lemma main_one_source (dest_img dest_lbl : string) (file_list : list string) :
  dest_img <> EmptyString -> os_path.ends_with_sep dest_img = false ->
  dest_lbl <> EmptyString -> os_path.ends_with_sep dest_lbl = false ->
  (forall b1 b2, dest_img +:+ String os_path.sep b1
                 <> dest_lbl +:+ String os_path.sep b2) ->
  Forall in_source_dir file_list ->
  one_source dest_img dest_lbl SOURCE_LABELS_DIR file_list.
Proof.
  intros N1 S1 N2 S2 Hdiff Hall x y q q' t Hx Hy Hq Hq'.
  rewrite Forall_forall in Hall.
  destruct (main_targets dest_img dest_lbl x N1 S1 N2 S2 (Hall x Hx))
    as (a1 & a2 & Ea1 & Ea2 & Ex & Elx).
  destruct (main_targets dest_img dest_lbl y N1 S1 N2 S2 (Hall y Hy))
    as (b1 & b2 & Eb1 & Eb2 & Ey & Ely).
  apply pairs_cases in Hq as [[-> Ht] | [-> Ht]];
    apply pairs_cases in Hq' as [[-> Ht'] | [-> Ht']]; rewrite Ht in Ht'.
  - rewrite Ea1, Eb1 in Ht'. apply append_inj_l in Ht'.
    injection Ht' as ->. rewrite Ex, Ey. reflexivity.
  - rewrite Ea1, Eb2 in Ht'. destruct (Hdiff _ _ Ht').
  - rewrite Ea2, Eb1 in Ht'. symmetry in Ht'. destruct (Hdiff _ _ Ht').
  - rewrite Ea2, Eb2 in Ht'. apply append_inj_l in Ht'.
    injection Ht' as E. rewrite Elx, Ely, E. reflexivity.
Qed.

(** X23: when no target is a source and no path is the target of two
    different sources, copy_files leaves at the two targets of every listed
    image that has its image and its label in the store the contents of that
    image and of that label, and every path that is not such a target holds
    what it held before: nothing is moved or removed. *)
Theorem copy_files_contents (dest_img_dir dest_lbl_dir source_lbl_dir : string)
    (file_list : list string) (files : gmap string string) :
  separated dest_img_dir dest_lbl_dir source_lbl_dir file_list ->
  one_source dest_img_dir dest_lbl_dir source_lbl_dir file_list ->
  let label img := get_corresponding_label_file img source_lbl_dir in
  let result :=
    fst (copy_files file_list dest_img_dir dest_lbl_dir source_lbl_dir files) in
  (forall x, x ∈ file_list -> copyable files source_lbl_dir x = true ->
     result !! os_path.join dest_img_dir (os_path.basename x) = files !! x
     /\ result !! os_path.join dest_lbl_dir (os_path.basename (label x))
        = files !! label x)
  /\ (forall p,
        (forall x, x ∈ file_list -> copyable files source_lbl_dir x = true ->
                   p ∉ copy_targets dest_img_dir dest_lbl_dir source_lbl_dir x) ->
        result !! p = files !! p).
Proof.
  intros Hsep Hone label result.
  destruct (foldl_copy_step_contents dest_img_dir dest_lbl_dir source_lbl_dir
              file_list Hsep Hone files file_list (files, 0))
    as (_ & Hcopied & Hframe); [auto | intros img q _ _; reflexivity |].
  split.
  - intros x Hx Hc. specialize (Hcopied x Hx Hc).
    split; apply Hcopied; apply pairs_cases; [left | right]; split; reflexivity.
  - intros p Hp. apply Hframe. exact Hp.
Qed.

(** The three images of the example store, copied to the train
    directories. *)
Lemma copy_files_contents_witness :
  let dest_img_dir := "yolo_hotspot_data/images/train" in
  let dest_lbl_dir := "yolo_hotspot_data/labels/train" in
  let label img := get_corresponding_label_file img SOURCE_LABELS_DIR in
  let result :=
    fst (copy_files (demo_listing 3) dest_img_dir dest_lbl_dir SOURCE_LABELS_DIR
           demo_store) in
  (forall x, x ∈ demo_listing 3 -> copyable demo_store SOURCE_LABELS_DIR x = true ->
     result !! os_path.join dest_img_dir (os_path.basename x) = demo_store !! x
     /\ result !! os_path.join dest_lbl_dir (os_path.basename (label x))
        = demo_store !! label x)
  /\ (forall p,
        (forall x, x ∈ demo_listing 3 ->
                   copyable demo_store SOURCE_LABELS_DIR x = true ->
                   p ∉ copy_targets dest_img_dir dest_lbl_dir SOURCE_LABELS_DIR x) ->
        result !! p = demo_store !! p).
Proof.
  apply (copy_files_contents "yolo_hotspot_data/images/train"
           "yolo_hotspot_data/labels/train" SOURCE_LABELS_DIR (demo_listing 3)
           demo_store).
  - apply (main_separated _ _ "olo_hotspot_data/images/train"
             "olo_hotspot_data/labels/train");
      [reflexivity | reflexivity | reflexivity | reflexivity |].
    apply demo_listing_in_source_dir. vm_compute. reflexivity.
  - apply main_one_source;
      [discriminate | reflexivity | discriminate | reflexivity | |].
    + intros b1 b2 E. apply (f_equal (String.get 18)) in E.
      vm_compute in E. discriminate E.
    + apply demo_listing_in_source_dir. vm_compute. reflexivity.
Defined.

End MainCopies.

(** ** A pass over images that are already copied *)

Section CopyIdle.

Import split_dataset.

Variables dest_img_dir dest_lbl_dir source_lbl_dir : string.
Variable file_list : list string.
Hypothesis Hsep : separated dest_img_dir dest_lbl_dir source_lbl_dir file_list.
Variable files0 : gmap string string.

Local Abbreviation step := (copy_step dest_img_dir dest_lbl_dir source_lbl_dir).
Local Abbreviation label img := (get_corresponding_label_file img source_lbl_dir).
Local Abbreviation agree files :=
  (agree_on_sources source_lbl_dir file_list files files0).
Local Abbreviation holds files x :=
  (copied dest_img_dir dest_lbl_dir source_lbl_dir files files0 x).

(** A pass for an image whose copies are in place changes nothing in the
    store. *)
Lemma copy_step_idle (st : gmap string string * Z) (x : string) :
  x ∈ file_list -> agree (fst st) ->
  (copyable files0 source_lbl_dir x = true -> holds (fst st) x) ->
  fst (step st x) = fst st.
Proof.
  intros Hx Hag Hheld.
  destruct (copyable files0 source_lbl_dir x) eqn:Hc;
    [| apply (copy_step_passes dest_img_dir dest_lbl_dir source_lbl_dir
                file_list files0 st x Hx Hag Hc)].
  specialize (Hheld eq_refl).
  destruct st as [files n]. cbn [fst] in *.
  assert (Hlbl : files !! label x = files0 !! label x).
  { apply (Hag x); [exact Hx | unfold copy_sources; set_solver]. }
  assert (Himg : files !! x = files0 !! x).
  { apply (Hag x); [exact Hx | unfold copy_sources; set_solver]. }
  assert (S1 : os_path.join dest_img_dir (os_path.basename x) <> x).
  { apply (Hsep x x); [exact Hx | exact Hx | |];
      unfold copy_targets, copy_sources; set_solver. }
  assert (S3 : os_path.join dest_lbl_dir (os_path.basename (label x)) <> label x).
  { apply (Hsep x x); [exact Hx | exact Hx | |];
      unfold copy_targets, copy_sources; set_solver. }
  assert (H1 : files !! os_path.join dest_img_dir (os_path.basename x)
               = files0 !! x).
  { apply Hheld. apply pairs_cases. left. split; reflexivity. }
  assert (H2 : files !! os_path.join dest_lbl_dir (os_path.basename (label x))
               = files0 !! label x).
  { apply Hheld. apply pairs_cases. right. split; reflexivity. }
  unfold copyable, path_exists in Hc.
  apply andb_prop in Hc as [Hl Hi].
  apply bool_decide_eq_true in Hl as [ldata El], Hi as [data Ei].
  rewrite Ei in H1. rewrite El in H2.
  unfold copy_step, path_exists, shutil_copy. rewrite Hlbl, Himg, El, Ei.
  rewrite bool_decide_eq_true_2 by (eexists; reflexivity).
  cbn [negb].
  destruct (String.eqb_spec (os_path.join dest_img_dir (os_path.basename x)) x)
    as [E | _]; [contradiction |].
  rewrite (insert_id files _ data H1). rewrite Hlbl, El.
  destruct (String.eqb_spec
              (os_path.join dest_lbl_dir (os_path.basename (label x))) (label x))
    as [E | _]; [contradiction |].
  cbn [fst]. apply insert_id. exact H2.
Qed.

Lemma foldl_copy_step_idle (l : list string) :
  forall st : gmap string string * Z,
    (forall x, x ∈ l -> x ∈ file_list) -> agree (fst st) ->
    (forall x, x ∈ l -> copyable files0 source_lbl_dir x = true ->
               holds (fst st) x) ->
    fst (foldl step st l) = fst st.
Proof.
  induction l as [| y l IH]; intros st Hsub Hag Hheld; [reflexivity |].
  assert (Hy : y ∈ file_list) by (apply Hsub; left).
  assert (E : fst (step st y) = fst st).
  { apply copy_step_idle; [exact Hy | exact Hag |].
    apply Hheld. left. }
  cbn [foldl]. rewrite IH; [exact E | | rewrite E; exact Hag |].
  - intros z Hz. apply Hsub. right. exact Hz.
  - intros z Hz Hc. rewrite E. apply Hheld; [right; exact Hz | exact Hc].
Qed.

End CopyIdle.

(** ** What a run of the partitioner leaves in the store *)

Section MainContents.

Import split_dataset.

Local Abbreviation TI := (os_path.join (os_path.join OUTPUT_DATA_DIR "images") "train").
Local Abbreviation TL := (os_path.join (os_path.join OUTPUT_DATA_DIR "labels") "train").
Local Abbreviation VI := (os_path.join (os_path.join OUTPUT_DATA_DIR "images") "val").
Local Abbreviation VL := (os_path.join (os_path.join OUTPUT_DATA_DIR "labels") "val").
Local Abbreviation label img := (get_corresponding_label_file img SOURCE_LABELS_DIR).

Lemma main_unfold (mt : Z -> nat -> Z) (image_files : list string)
    (files : gmap string string) (s s1 : rng) (train val : list string) :
  image_files <> [] ->
  partition mt TRAIN_RATIO RANDOM_SEED image_files s = Ok ((train, val), s1) ->
  main mt image_files files s
  = Ok ((fst (copy_files val VI VL SOURCE_LABELS_DIR
                (fst (copy_files train TI TL SOURCE_LABELS_DIR files))),
         Some (mk_report train val
                 (snd (copy_files train TI TL SOURCE_LABELS_DIR files))
                 (snd (copy_files val VI VL SOURCE_LABELS_DIR
                         (fst (copy_files train TI TL SOURCE_LABELS_DIR files)))))),
        s1).
Proof.
  intros Hne E. unfold main. destruct image_files as [| f0 rest]; [contradiction |].
  rewrite (bind_Ok _ _ _ _ _ E). cbv beta iota.
  destruct (copy_files train _ _ SOURCE_LABELS_DIR files) as [files_a c1].
  cbn [fst snd].
  destruct (copy_files val _ _ SOURCE_LABELS_DIR files_a) as [files_b c2].
  reflexivity.
Qed.

(** The targets of the two passes lie in the output directory, those of
    the train pass apart from those of the val pass. *)
Lemma train_target_not_val (x y t : string) :
  in_source_dir x -> in_source_dir y ->
  t ∈ copy_targets TI TL SOURCE_LABELS_DIR x ->
  t ∉ copy_targets VI VL SOURCE_LABELS_DIR y.
Proof.
  intros Hx Hy Ht Hv.
  destruct (main_targets TI TL x) as (a1 & a2 & Ea1 & Ea2 & _);
    [discriminate | reflexivity | discriminate | reflexivity | exact Hx |].
  destruct (main_targets VI VL y) as (b1 & b2 & Eb1 & Eb2 & _);
    [discriminate | reflexivity | discriminate | reflexivity | exact Hy |].
  apply targets_cases in Ht, Hv. rewrite Ea1, Ea2 in Ht. rewrite Eb1, Eb2 in Hv.
  assert (H25 : String.get 25 t = Some "t"%char)
    by (destruct Ht as [-> | ->]; reflexivity).
  assert (H25' : String.get 25 t = Some "v"%char)
    by (destruct Hv as [-> | ->]; reflexivity).
  rewrite H25 in H25'. discriminate H25'.
Qed.

Lemma target_in_output_dir (dest_img dest_lbl d1 d2 x t : string) :
  dest_img = (OUTPUT_DATA_DIR +:+ String os_path.sep "") +:+ d1 ->
  dest_lbl = (OUTPUT_DATA_DIR +:+ String os_path.sep "") +:+ d2 ->
  os_path.ends_with_sep dest_img = false ->
  os_path.ends_with_sep dest_lbl = false ->
  in_source_dir x ->
  t ∈ copy_targets dest_img dest_lbl SOURCE_LABELS_DIR x ->
  in_output_dir t.
Proof.
  intros E1 E2 S1 S2 Hx Ht.
  destruct (main_targets dest_img dest_lbl x) as (a1 & a2 & Ea1 & Ea2 & _);
    [rewrite E1; discriminate | exact S1 | rewrite E2; discriminate
     | exact S2 | exact Hx |].
  apply targets_cases in Ht. rewrite Ea1, Ea2 in Ht.
  unfold in_output_dir.
  destruct Ht as [-> | ->]; [rewrite E1 | rewrite E2];
    rewrite append_assoc; cbv; eexists; reflexivity.
Qed.

Lemma main_separated_train (image_files : list string) :
  Forall in_source_dir image_files ->
  separated TI TL SOURCE_LABELS_DIR image_files.
Proof.
  intros Hall.
  apply (main_separated TI TL "olo_hotspot_data/images/train"
           "olo_hotspot_data/labels/train");
    [reflexivity | reflexivity | reflexivity | reflexivity | exact Hall].
Qed.

Lemma main_separated_val (image_files : list string) :
  Forall in_source_dir image_files ->
  separated VI VL SOURCE_LABELS_DIR image_files.
Proof.
  intros Hall.
  apply (main_separated VI VL "olo_hotspot_data/images/val"
           "olo_hotspot_data/labels/val");
    [reflexivity | reflexivity | reflexivity | reflexivity | exact Hall].
Qed.

Lemma main_one_source_train (image_files : list string) :
  Forall in_source_dir image_files ->
  one_source TI TL SOURCE_LABELS_DIR image_files.
Proof.
  intros Hall. apply main_one_source;
    [discriminate | reflexivity | discriminate | reflexivity | | exact Hall].
  intros b1 b2 Eb. apply (f_equal (String.get 18)) in Eb. discriminate Eb.
Qed.

Lemma main_one_source_val (image_files : list string) :
  Forall in_source_dir image_files ->
  one_source VI VL SOURCE_LABELS_DIR image_files.
Proof.
  intros Hall. apply main_one_source;
    [discriminate | reflexivity | discriminate | reflexivity | | exact Hall].
  intros b1 b2 Eb. apply (f_equal (String.get 18)) in Eb. discriminate Eb.
Qed.

(** The two passes of a run, on the split [train], [val] of the listing:
    the store they leave and the two counts. *)
Lemma main_passes (image_files train val : list string)
    (files : gmap string string) :
  Forall in_source_dir image_files ->
  (forall x, x ∈ train -> x ∈ image_files) ->
  (forall x, x ∈ val -> x ∈ image_files) ->
  let a := copy_files train TI TL SOURCE_LABELS_DIR files in
  let b := copy_files val VI VL SOURCE_LABELS_DIR (fst a) in
  agree_on_sources SOURCE_LABELS_DIR image_files (fst b) files
  /\ (forall x, x ∈ train -> copyable files SOURCE_LABELS_DIR x = true ->
        copied TI TL SOURCE_LABELS_DIR (fst b) files x)
  /\ (forall x, x ∈ val -> copyable files SOURCE_LABELS_DIR x = true ->
        copied VI VL SOURCE_LABELS_DIR (fst b) files x)
  /\ (forall p, ~ in_output_dir p -> fst b !! p = files !! p).
Proof.
  intros Hall Htrain Hval a b.
  pose proof Hall as Hin. rewrite Forall_forall in Hin.
  pose proof (main_separated_train image_files Hall) as Hsep_t.
  pose proof (main_separated_val image_files Hall) as Hsep_v.
  pose proof (main_one_source_train image_files Hall) as Hone_t.
  pose proof (main_one_source_val image_files Hall) as Hone_v.
  assert (Hag0 : agree_on_sources SOURCE_LABELS_DIR image_files files files)
    by (intros img q _ _; reflexivity).
  destruct (foldl_copy_step_contents TI TL SOURCE_LABELS_DIR image_files
              Hsep_t Hone_t files train (files, 0) Htrain Hag0)
    as (_ & T2 & T3).
  destruct (foldl_copy_step_counted TI TL SOURCE_LABELS_DIR image_files
              Hsep_t files train (files, 0) Htrain Hag0) as (Hag1 & _).
  fold (copy_files train TI TL SOURCE_LABELS_DIR files) in T2, T3, Hag1.
  fold a in T2, T3, Hag1.
  destruct (foldl_copy_step_contents VI VL SOURCE_LABELS_DIR image_files
              Hsep_v Hone_v files val (fst a, 0) Hval Hag1)
    as (_ & V2 & V3).
  destruct (foldl_copy_step_counted VI VL SOURCE_LABELS_DIR image_files
              Hsep_v files val (fst a, 0) Hval Hag1) as (Hag2 & _).
  fold (copy_files val VI VL SOURCE_LABELS_DIR (fst a)) in V2, V3, Hag2.
  fold b in V2, V3, Hag2.
  cbn [fst] in V3.
  split; [exact Hag2 |]. split; [| split; [exact V2 |]].
  - intros x Hx Hc q t Hqt.
    assert (Ht : t ∈ copy_targets TI TL SOURCE_LABELS_DIR x).
    { apply targets_cases. apply pairs_cases in Hqt as [[_ ->] | [_ ->]];
        [left | right]; reflexivity. }
    rewrite V3; [apply (T2 x Hx Hc q t Hqt) |].
    intros y Hy _.
    apply (train_target_not_val x y t);
      [apply Hin, Htrain, Hx | apply Hin, Hval, Hy | exact Ht].
  - intros p Hp. rewrite V3, T3; [reflexivity | |].
    + intros y Hy _ Ht. apply Hp.
      apply (target_in_output_dir TI TL "images/train" "labels/train" y p);
        [reflexivity | reflexivity | reflexivity | reflexivity
         | apply Hin, Htrain, Hy | exact Ht].
    + intros y Hy _ Ht. apply Hp.
      apply (target_in_output_dir VI VL "images/val" "labels/val" y p);
        [reflexivity | reflexivity | reflexivity | reflexivity
         | apply Hin, Hval, Hy | exact Ht].
Qed.

(** X24: a run of main on a non-empty listing of the source directory
    returns; in the store it leaves, every image of the train list that had
    its image and its label in the store is under images/train with its
    contents, and its label under labels/train with its contents; likewise
    for the val list under images/val and labels/val; every listed image and
    its label are where and what they were; and nothing outside the output
    directory has changed. *)
Theorem main_store (mt : Z -> nat -> Z) (image_files : list string)
    (files : gmap string string) (s : rng) :
  image_files <> [] ->
  Forall in_source_dir image_files ->
  exists files1 rep s1,
    main mt image_files files s = Ok ((files1, Some rep), s1)
    /\ (forall x, x ∈ train_files rep ->
          copyable files SOURCE_LABELS_DIR x = true ->
          files1 !! os_path.join "yolo_hotspot_data/images/train"
                      (os_path.basename x) = files !! x
          /\ files1 !! os_path.join "yolo_hotspot_data/labels/train"
                         (os_path.basename (label x)) = files !! label x)
    /\ (forall x, x ∈ val_files rep ->
          copyable files SOURCE_LABELS_DIR x = true ->
          files1 !! os_path.join "yolo_hotspot_data/images/val"
                      (os_path.basename x) = files !! x
          /\ files1 !! os_path.join "yolo_hotspot_data/labels/val"
                         (os_path.basename (label x)) = files !! label x)
    /\ (forall x, x ∈ image_files ->
          files1 !! x = files !! x /\ files1 !! label x = files !! label x)
    /\ (forall p, ~ in_output_dir p -> files1 !! p = files !! p).
Proof.
  intros Hne Hall.
  destruct (partition_returns mt TRAIN_RATIO RANDOM_SEED image_files s)
    as ([train val] & s1 & E & Hperm & _).
  cbn [fst snd] in Hperm.
  assert (Htrain : forall x, x ∈ train -> x ∈ image_files).
  { intros x Hx. rewrite <- Hperm. apply elem_of_app. left. exact Hx. }
  assert (Hval : forall x, x ∈ val -> x ∈ image_files).
  { intros x Hx. rewrite <- Hperm. apply elem_of_app. right. exact Hx. }
  destruct (main_passes image_files train val files Hall Htrain Hval)
    as (Hag & HT & HV & Hframe).
  eexists _, _, s1.
  split; [apply (main_unfold mt image_files files s s1 train val Hne E) |].
  cbn [train_files val_files].
  split; [| split; [| split; [| exact Hframe]]].
  - intros x Hx Hc. specialize (HT x Hx Hc).
    split; apply HT; apply pairs_cases; [left | right]; split; reflexivity.
  - intros x Hx Hc. specialize (HV x Hx Hc).
    split; apply HV; apply pairs_cases; [left | right]; split; reflexivity.
  - intros x Hx. split; apply (Hag x); try exact Hx;
      unfold copy_sources; set_solver.
Qed.

(** Five images, of which the second has no label, from the stream of the
    examples. *)
Lemma main_store_witness :
  exists files1 rep s1,
    main demo_mt (demo_listing 5) demo_store demo_rng
    = Ok ((files1, Some rep), s1)
    /\ (forall x, x ∈ train_files rep ->
          copyable demo_store SOURCE_LABELS_DIR x = true ->
          files1 !! os_path.join "yolo_hotspot_data/images/train"
                      (os_path.basename x) = demo_store !! x
          /\ files1 !! os_path.join "yolo_hotspot_data/labels/train"
                         (os_path.basename (label x)) = demo_store !! label x)
    /\ (forall x, x ∈ val_files rep ->
          copyable demo_store SOURCE_LABELS_DIR x = true ->
          files1 !! os_path.join "yolo_hotspot_data/images/val"
                      (os_path.basename x) = demo_store !! x
          /\ files1 !! os_path.join "yolo_hotspot_data/labels/val"
                         (os_path.basename (label x)) = demo_store !! label x)
    /\ (forall x, x ∈ demo_listing 5 ->
          files1 !! x = demo_store !! x
          /\ files1 !! label x = demo_store !! label x)
    /\ (forall p, ~ in_output_dir p -> files1 !! p = demo_store !! p).
Proof.
  apply (main_store demo_mt (demo_listing 5) demo_store demo_rng).
  - discriminate.
  - apply demo_listing_in_source_dir. vm_compute. reflexivity.
Defined.

(** X25: a second run of main on the same listing, in the store the first
    run left and from any state of the random source, returns the same
    report and leaves the store exactly as the first run left it. *)
Theorem main_twice (mt : Z -> nat -> Z) (image_files : list string)
    (files : gmap string string) (s : rng) :
  image_files <> [] ->
  Forall in_source_dir image_files ->
  exists files1 rep s1,
    main mt image_files files s = Ok ((files1, Some rep), s1)
    /\ (forall s', main mt image_files files1 s' = Ok ((files1, Some rep), s1)).
Proof.
  intros Hne Hall.
  destruct (partition_returns mt TRAIN_RATIO RANDOM_SEED image_files s)
    as ([train val] & s1 & E & Hperm & _).
  cbn [fst snd] in Hperm.
  assert (Htrain : forall x, x ∈ train -> x ∈ image_files).
  { intros x Hx. rewrite <- Hperm. apply elem_of_app. left. exact Hx. }
  assert (Hval : forall x, x ∈ val -> x ∈ image_files).
  { intros x Hx. rewrite <- Hperm. apply elem_of_app. right. exact Hx. }
  destruct (main_passes image_files train val files Hall Htrain Hval)
    as (Hag & HT & HV & _).
  set (a := copy_files train TI TL SOURCE_LABELS_DIR files) in *.
  set (b := copy_files val VI VL SOURCE_LABELS_DIR (fst a)) in *.
  pose proof (main_separated_train image_files Hall) as Hsep_t.
  pose proof (main_separated_val image_files Hall) as Hsep_v.
  assert (Hag0 : agree_on_sources SOURCE_LABELS_DIR image_files files files)
    by (intros img q _ _; reflexivity).
  (* the counts of the first run *)
  destruct (foldl_copy_step_counted TI TL SOURCE_LABELS_DIR image_files
              Hsep_t files train (files, 0) Htrain Hag0) as (Hag1 & Hc1 & _).
  fold (copy_files train TI TL SOURCE_LABELS_DIR files) in Hag1, Hc1.
  fold a in Hag1, Hc1.
  destruct (foldl_copy_step_counted VI VL SOURCE_LABELS_DIR image_files
              Hsep_v files val (fst a, 0) Hval Hag1) as (_ & Hc2 & _).
  fold (copy_files val VI VL SOURCE_LABELS_DIR (fst a)) in Hc2. fold b in Hc2.
  (* the second run *)
  assert (Ea' : copy_files train TI TL SOURCE_LABELS_DIR (fst b) = (fst b, snd a)).
  { apply injective_projections; cbn [fst snd].
    - apply (foldl_copy_step_idle TI TL SOURCE_LABELS_DIR image_files Hsep_t
               files train (fst b, 0) Htrain Hag HT).
    - destruct (foldl_copy_step_counted TI TL SOURCE_LABELS_DIR image_files
                  Hsep_t files train (fst b, 0) Htrain Hag) as (_ & Hc & _).
      unfold copy_files. rewrite Hc, Hc1. reflexivity. }
  assert (Eb' : copy_files val VI VL SOURCE_LABELS_DIR (fst b) = (fst b, snd b)).
  { apply injective_projections; cbn [fst snd].
    - apply (foldl_copy_step_idle VI VL SOURCE_LABELS_DIR image_files Hsep_v
               files val (fst b, 0) Hval Hag HV).
    - destruct (foldl_copy_step_counted VI VL SOURCE_LABELS_DIR image_files
                  Hsep_v files val (fst b, 0) Hval Hag) as (_ & Hc & _).
      unfold copy_files. rewrite Hc, Hc2. reflexivity. }
  exists (fst b), (mk_report train val (snd a) (snd b)), s1.
  split; [apply (main_unfold mt image_files files s s1 train val Hne E) |].
  intros s'.
  rewrite (partition_reseeds mt TRAIN_RATIO RANDOM_SEED image_files s s') in E.
  rewrite (main_unfold mt image_files (fst b) s' s1 train val Hne E).
  rewrite Ea'. cbn [fst snd]. rewrite Eb'. reflexivity.
Qed.

(** Five images, of which the second has no label, from the stream of the
    examples. *)
Lemma main_twice_witness :
  exists files1 rep s1,
    main demo_mt (demo_listing 5) demo_store demo_rng
    = Ok ((files1, Some rep), s1)
    /\ (forall s', main demo_mt (demo_listing 5) files1 s'
                   = Ok ((files1, Some rep), s1)).
Proof.
  apply (main_twice demo_mt (demo_listing 5) demo_store demo_rng).
  - discriminate.
  - apply demo_listing_in_source_dir. vm_compute. reflexivity.
Defined.

End MainContents.

(** ** The round trip of a label *)

Section LabelRoundTrip.

Import generate_yolo_dataset.
Open Scope Q_scope.









End LabelRoundTrip.
